(** * prepare.py: preparation, partitioning and scaling of the telco churn table

    A shallow embedding of [src/prepare.py].  The module is a thin layer over
    pandas, numpy and scikit-learn, so the development has three layers:

    - a small model of the pandas objects the module handles (cells, Series,
      DataFrame) and of the pandas operations it calls, each written after the
      library's documented behaviour on the inputs the module feeds it;
    - the library parts that cannot be written down from the repository (the
      string-to-number parser behind [pd.to_numeric], Python's [float(str)],
      and the index arrays chosen by scikit-learn's splitters from a numpy
      random state) as [Variable]s of a [Section], with the library contract
      they are used under as [Hypothesis];
    - the functions of [prepare.py] themselves, statement by statement.

    float64 cells are Rocq's primitive binary64 floats, so arithmetic rounds
    as it does in numpy. *)

From Stdlib Require Import ZArith Floats.
From stdpp Require Import base option list strings gmap.

(** ** Cells, Series and exceptions *)

(** A cell of a pandas column: a Python [str] (object column), an int64 or a
    float64.  A missing cell is the float NaN, as pandas stores it. *)
Inductive value : Type :=
  | VStr (s : string)
  | VInt (z : Z)
  | VFloat (f : float).

Abbreviation Series := (list value).

(** The exceptions the modelled calls raise. *)
Inductive exn : Type :=
  | KeyError (label : string)
  | AttributeError (name : string)
  | TypeError
  | ValueError
  | IndexError.

Inductive result (A : Type) : Type :=
  | Ok (a : A)
  | Raise (e : exn).
Arguments Ok {A} a.
Arguments Raise {A} e.

#[global] Instance result_ret : MRet result := @Ok.
#[global] Instance result_bind : MBind result :=
  λ A B f m, match m with Ok a => f a | Raise e => Raise e end.

(** int64 -> float64, correctly rounded. *)
Definition Z2F (z : Z) : float := SF2Prim (binary_normalize prec emax z 0 false).

(** int64 arithmetic wraps around. *)
Definition wrap64 (z : Z) : Z := ((z + 2 ^ 63) mod 2 ^ 64 - 2 ^ 63)%Z.

Definition to_float (v : value) : value :=
  match v with
  | VInt z => VFloat (Z2F z)
  | _ => v
  end.

Definition is_int (v : value) : bool :=
  match v with VInt _ => true | _ => false end.

(** Python's [==] between a dictionary key and a cell.  An int and a float
    compare by value (through [Z2F], exact below 2^53). *)
Definition py_eq (k v : value) : bool :=
  match k, v with
  | VStr a, VStr b => bool_decide (a = b)
  | VInt a, VInt b => (a =? b)%Z
  | VInt a, VFloat b => (Z2F a =? b)%float
  | VFloat a, VInt b => (a =? Z2F b)%float
  | VFloat a, VFloat b => (a =? b)%float
  | _, _ => false
  end.

(** A Python dict literal with int values, as [Series.map] receives it. *)
Abbreviation pydict := (list (value * Z)).

Fixpoint dict_get (d : pydict) (v : value) : option Z :=
  match d with
  | [] => None
  | (k, r) :: d' => if py_eq k v then Some r else dict_get d' v
  end.

(** [Series.map(dict)]: every cell is looked up in the dict.  When every cell
    is found the result is an int64 column; a cell that is not found becomes
    NaN, and the whole result is then a float64 column. *)
Definition Series_map (d : pydict) (s : Series) : Series :=
  match mapM (dict_get d) s with
  | Some zs => VInt <$> zs
  | None => (λ v, VFloat (from_option Z2F nan (dict_get d v))) <$> s
  end.

(** [a + b] on two cells.  int64 + int64 stays int64; a float operand makes
    the sum a float; two strings concatenate; a string and a number do not
    add. *)
Definition add_value (a b : value) : result value :=
  match a, b with
  | VInt x, VInt y => Ok (VInt (wrap64 (x + y)))
  | VInt x, VFloat y => Ok (VFloat (Z2F x + y))
  | VFloat x, VInt y => Ok (VFloat (x + Z2F y))
  | VFloat x, VFloat y => Ok (VFloat (x + y))
  | VStr x, VStr y => Ok (VStr (x +:+ y))
  | _, _ => Raise TypeError
  end.

(** [s1 + s2] on two columns of one frame (same index, so cell by cell). *)
Definition Series_add (s1 s2 : Series) : result Series :=
  mapM (λ p, add_value p.1 p.2) (zip s1 s2).

(** [s / k] for an int [k]: true division, always float64. *)
Definition truediv_value (k : Z) (v : value) : result value :=
  match v with
  | VInt z => Ok (VFloat (Z2F z / Z2F k))
  | VFloat f => Ok (VFloat (f / Z2F k))
  | VStr _ => Raise TypeError
  end.

Definition Series_truediv (s : Series) (k : Z) : result Series :=
  mapM (truediv_value k) s.

(** C's [rint] under round-to-nearest-even: below 2^52 in magnitude, adding
    and subtracting 2^52 leaves the nearest integer; larger floats (and NaN)
    are returned as they are.  The sign of the argument is kept. *)
Definition rint (f : float) : float :=
  if (abs f <? 0x1p52)%float
  then let r := ((abs f + 0x1p52) - 0x1p52)%float in
       if get_sign f then (- r)%float else r
  else f.

(** [numpy.round(x, 2)]: scale by 10^2, [rint], scale back. *)
Definition round2 (f : float) : float := (rint (f * 100) / 100)%float.

(** [round(s, 2)] on a column: floats are rounded, ints are left alone. *)
Definition round2_value (v : value) : result value :=
  match v with
  | VFloat f => Ok (VFloat (round2 f))
  | VInt z => Ok (VInt z)
  | VStr _ => Raise TypeError
  end.

Definition Series_round2 (s : Series) : result Series := mapM round2_value s.

(** [Series.isnull()]. *)
Definition isnull (v : value) : bool :=
  match v with
  | VFloat f => is_nan f
  | _ => false
  end.

(** ** DataFrame *)

(** A frame is its index (the row labels) and its columns in order, each a
    name and a Series. *)
Record DataFrame : Type := mkDF {
  index : Series;
  cols : list (string * Series)
}.

Definition columns (df : DataFrame) : list string := (cols df).*1.

Definition nrows (df : DataFrame) : nat := length (index df).

(** The invariant of a pandas frame with unambiguous labels: every column has
    one cell per row and no label is used twice. *)
Definition wf_frame (df : DataFrame) : Prop :=
  NoDup (columns df) ∧ Forall (λ c, length c.2 = nrows df) (cols df).

Fixpoint column (c : string) (cs : list (string * Series)) : option Series :=
  match cs with
  | [] => None
  | (c', s) :: cs' => if decide (c = c') then Some s else column c cs'
  end.

(** [df[c]] reading a column. *)
Definition getitem (df : DataFrame) (c : string) : result Series :=
  match column c (cols df) with
  | Some s => Ok s
  | None => Raise (KeyError c)
  end.

(** [df.c] reading a column. *)
Definition getattr (df : DataFrame) (c : string) : result Series :=
  match column c (cols df) with
  | Some s => Ok s
  | None => Raise (AttributeError c)
  end.

Fixpoint set_column (c : string) (s : Series) (cs : list (string * Series))
  : list (string * Series) :=
  match cs with
  | [] => [(c, s)]
  | (c', s') :: cs' =>
      if decide (c = c') then (c, s) :: cs' else (c', s') :: set_column c s cs'
  end.

(** [df[c] = s] (and [df.c = s] for a column that exists): an existing column
    is replaced in place, a new one is appended.  Every Series the module
    assigns is computed from columns of the same frame, so the alignment on
    the index that pandas performs is the identity. *)
Definition setitem (df : DataFrame) (c : string) (s : Series) : DataFrame :=
  mkDF (index df) (set_column c s (cols df)).

Definition first_missing (labels have : list string) : option string :=
  head (filter (λ c, c ∉ have) labels).

(** [df.drop(columns=labels)]: every label must name a column. *)
Definition drop_columns (df : DataFrame) (labels : list string) : result DataFrame :=
  match first_missing labels (columns df) with
  | Some c => Raise (KeyError c)
  | None => Ok (mkDF (index df) (filter (λ p, p.1 ∉ labels) (cols df)))
  end.

Fixpoint rename_label (m : list (string * string)) (c : string) : string :=
  match m with
  | [] => c
  | (old, new) :: m' => if decide (c = old) then new else rename_label m' c
  end.

(** [df.rename(columns=m)]: labels that are not columns are ignored. *)
Definition rename (df : DataFrame) (m : list (string * string)) : DataFrame :=
  mkDF (index df) (prod_map (rename_label m) id <$> cols df).

(** [df.set_index(c)]: the column becomes the index and leaves the columns. *)
Definition set_index (df : DataFrame) (c : string) : result DataFrame :=
  s ← getitem df c;
  Ok (mkDF s (filter (λ p, p.1 ≠ c) (cols df))).

(** Rows picked by a boolean mask, [l[mask]]. *)
Fixpoint select {A : Type} (mask : list bool) (l : list A) : list A :=
  match mask, l with
  | b :: mask', x :: l' => if b then x :: select mask' l' else select mask' l'
  | _, _ => []
  end.

(** [df[mask]] for a boolean Series computed from [df]. *)
Definition getitem_mask (df : DataFrame) (mask : list bool) : DataFrame :=
  mkDF (select mask (index df)) (prod_map id (select mask) <$> cols df).

(** Rows picked by position, [l[positions]] of numpy; a position past the end
    is an IndexError. *)
Definition take_rows {A : Type} (positions : list nat) (l : list A) : result (list A) :=
  mapM (λ i, match l !! i with Some x => Ok x | None => Raise IndexError end) positions.

(** [df.iloc[positions]]. *)
Definition iloc (df : DataFrame) (positions : list nat) : result DataFrame :=
  idx ← take_rows positions (index df);
  cs ← mapM (λ p, s ← take_rows positions p.2; Ok (p.1, s)) (cols df);
  Ok (mkDF idx cs).

(** The cell of column [c] in the row at position [i]. *)
Definition cell (df : DataFrame) (c : string) (i : nat) : option value :=
  s ← column c (cols df); s !! i.

(** The row at position [i]: its label and its cells, column by column. *)
Abbreviation row := (value * list (string * value))%type.

Definition row_at (df : DataFrame) (i : nat) : option row :=
  l ← index df !! i;
  cs ← mapM (λ p, v ← p.2 !! i; Some (p.1, v)) (cols df);
  Some (l, cs).

Definition rows (df : DataFrame) : list row :=
  omap (row_at df) (seq 0 (nrows df)).


(** ** State and text *)

(** What a call can reach besides its arguments: the frames the caller holds,
    by reference, and the state of the generator numpy uses when no seed is
    given (of type [G]). *)
Record world (G : Type) : Type := mkWorld {
  objects : gmap nat DataFrame;
  np_random : G
}.
Arguments mkWorld {G} objects np_random.
Arguments objects {G} w.
Arguments np_random {G} w.

Definition is_space (a : Ascii.ascii) : bool :=
  bool_decide (a ∈ Ascii.ascii_of_nat <$> [32; 9; 10; 11; 12; 13]).

(** Text that is empty or made of whitespace only. *)
Fixpoint blank (s : string) : bool :=
  match s with
  | EmptyString => true
  | String a s' => is_space a && blank s'
  end.


(** ** float64 rounding

    The notions used to reason about the rounding of the float64
    operations: the steps of [SpecFloat]'s rounding in arithmetic terms, and
    the value of a float as an integer, which orders floats as [<?] does. *)

(** The shift record after [n] right shifts of the mantissa [M]: the
    quotient, the round bit and the sticky bit. *)
Definition shr_state (M : Z) (n : nat) : shr_record :=
  {| shr_m := (M / 2 ^ Z.of_nat n)%Z;
     shr_r := match n with
              | O => false
              | S n' => Z.odd (M / 2 ^ Z.of_nat n')
              end;
     shr_s := match n with
              | O => false
              | S n' => negb (M mod 2 ^ Z.of_nat n' =? 0)%Z
              end |}.

(** [M / 2^n] rounded to the nearest integer, ties to even. *)
Definition rne (M n : Z) : Z :=
  let T := (M / 2 ^ n)%Z in
  let f := (M mod 2 ^ n)%Z in
  if (2 * f <? 2 ^ n)%Z then T
  else if (2 * f =? 2 ^ n)%Z then (if Z.even T then T else T + 1)%Z
  else (T + 1)%Z.

(** A value [W], in units of [2^-2148], is rounded to a multiple of
    [2^(grid W)]: 53 significant bits, and no finer than [2^-1074]. *)
Definition grid (W : Z) : Z := Z.max (Zdigits2 W - 53) 1074.
Definition rnd (W : Z) : Z := (rne W (grid W) * 2 ^ grid W)%Z.

(** Rounding of a signed value, with overflow at [2^1024]. *)
Definition rnd_signed (W : Z) : Z :=
  if (W <? 0)%Z then (- Z.min (rnd (- W)) (2 ^ 3172))%Z
  else Z.min (rnd W) (2 ^ 3172).

(** The value of a float64 in units of [2^-1074], with the infinities at
    [2^2098] and [-2^2098]. *)
Definition SFord (f : spec_float) : Z :=
  match f with
  | S754_zero _ | S754_nan => 0%Z
  | S754_infinity s => cond_Zopp s (2 ^ 2098)
  | S754_finite s m e => cond_Zopp s (Z.pos m * 2 ^ (e + 1074))
  end.

Definition ford (x : float) : Z := SFord (Prim2SF x).

(** A zero or a finite number. *)
Definition SFfinite (f : spec_float) : Prop :=
  match f with
  | S754_zero _ | S754_finite _ _ _ => True
  | _ => False
  end.

(** Sign bit clear: [+0], a positive number or [+inf]. *)
Definition SFnonneg (f : spec_float) : Prop :=
  match f with
  | S754_zero s | S754_infinity s | S754_finite s _ _ => s = false
  | S754_nan => False
  end.

(** Two floats are the same float: same class, sign, mantissa and
    exponent. *)
Definition SFsame (x y : spec_float) : bool :=
  match x, y with
  | S754_zero s, S754_zero s' => Bool.eqb s s'
  | S754_infinity s, S754_infinity s' => Bool.eqb s s'
  | S754_nan, S754_nan => true
  | S754_finite s m e, S754_finite s' m' e' =>
      Bool.eqb s s' && (m =? m')%positive && (e =? e')%Z
  | _, _ => false
  end.

Definition same_float (x y : float) : bool := SFsame (Prim2SF x) (Prim2SF y).
(** ** A small instance of the library parameters

    The module is stated over the parser and the splitter of the libraries.
    To run it on small tables, this instance parses two texts only, and
    splits a table of at least two rows into its first row (test) and the
    other rows (train), counting the draws in its state. *)

Definition demo_str_to_num (s : string) : option (Z + float) :=
  if decide (s = "100.5") then Some (inr 100.5%float)
  else if decide (s = "1889") then Some (inl 1889%Z)
  else None.

Definition demo_py_float (s : string) : option float := None.

Definition demo_cv_split (g : Z) (test_size : float) (n : nat)
    (stratify : option Series) : result (list nat * list nat) * Z :=
  if decide (n < 2) then (Raise ValueError, g)
  else (Ok (seq 1 (n - 1), [0]), (g + 1)%Z).

(** A raw table of three customers; the second has a blank total_charges. *)
Definition demo_raw : DataFrame :=
  mkDF [VInt 0; VInt 1; VInt 2]
    [("customer_id", [VStr "0002-ORFBO"; VStr "0003-MKNFE"; VStr "0004-TLHLJ"]);
     ("gender", [VStr "Female"; VStr "Male"; VStr "Male"]);
     ("senior_citizen", [VInt 0; VInt 0; VInt 1]);
     ("partner", [VStr "Yes"; VStr "No"; VStr "No"]);
     ("dependents", [VStr "Yes"; VStr "No"; VStr "No"]);
     ("tenure", [VInt 9; VInt 0; VInt 4]);
     ("phone_service", [VStr "Yes"; VStr "Yes"; VStr "No"]);
     ("internet_service_type_id", [VInt 1; VInt 3; VInt 2]);
     ("online_security", [VStr "No"; VStr "No internet service"; VStr "Yes"]);
     ("online_backup", [VStr "Yes"; VStr "No internet service"; VStr "Yes"]);
     ("device_protection", [VStr "No"; VStr "No internet service"; VStr "Yes"]);
     ("tech_support", [VStr "Yes"; VStr "No internet service"; VStr "Yes"]);
     ("streaming_tv", [VStr "Yes"; VStr "No internet service"; VStr "Yes"]);
     ("streaming_movies", [VStr "No"; VStr "No internet service"; VStr "Yes"]);
     ("contract_type_id", [VInt 2; VInt 3; VInt 1]);
     ("monthly_charges", [VFloat 65.5; VFloat 20.5; VFloat 74.5]);
     ("total_charges", [VStr "100.5"; VStr " "; VStr "1889"]);
     ("churn", [VStr "No"; VStr "No"; VStr "Yes"])].

(** A prepared table of three customers, cut down to four columns. *)
Definition demo_prepared : DataFrame :=
  mkDF [VStr "0002-ORFBO"; VStr "0004-TLHLJ"; VStr "0011-IGKFF"]
    [("contract_type", [VInt 1; VInt 0; VInt 0]);
     ("tenure", [VInt 9; VInt 4; VInt 13]);
     ("churn", [VInt 0; VInt 1; VInt 1]);
     ("num_add_ons", [VInt 3; VInt 6; VInt 1])].

(** A mall table of three customers. *)
Definition demo_mall : DataFrame :=
  mkDF [VInt 1; VInt 2; VInt 3]
    [("gender", [VStr "Male"; VStr "Female"; VStr "Female"]);
     ("age", [VInt 19; VInt 21; VInt 20]);
     ("annual_income", [VInt 15; VInt 15; VInt 16]);
     ("spending_score", [VInt 39; VInt 81; VInt 6])].

(** The caller holds no frame and the global generator has made no draw. *)
Definition demo_world : world Z := mkWorld ∅ 0%Z.


(** A cast for small tables: ints are kept, the texts 85 and 90 convert,
    and nothing else does. *)
Definition demo_astype_int (s : Series) : option (list Z) :=
  mapM (λ v, match v with
             | VInt z => Some z
             | VStr t => if decide (t = "85") then Some 85%Z
                         else if decide (t = "90") then Some 90%Z else None
             | VFloat _ => None
             end) s.

(** A grades file of four students; the second has a blank exam2 and the
    third a blank student_id. *)
Definition demo_grades : DataFrame :=
  mkDF [VInt 0; VInt 1; VInt 2; VInt 3]
    [("student_id", [VStr "1"; VStr "2"; VStr " "; VStr "4"]);
     ("exam1", [VInt 100; VInt 98; VInt 85; VInt 83]);
     ("exam2", [VStr "90"; VStr " "; VStr "85"; VStr "90"]);
     ("final_grade", [VInt 96; VInt 95; VInt 87; VInt 85])].

(** A raw table of three customers with its columns in the order the scaler
    takes for granted; every total_charges converts. *)
Definition demo_raw_ordered : DataFrame :=
  mkDF [VInt 0; VInt 1; VInt 2]
    [("customer_id", [VStr "0002-ORFBO"; VStr "0003-MKNFE"; VStr "0004-TLHLJ"]);
     ("contract_type_id", [VInt 2; VInt 3; VInt 1]);
     ("phone_service", [VStr "Yes"; VStr "Yes"; VStr "No"]);
     ("internet_service_type_id", [VInt 1; VInt 3; VInt 2]);
     ("senior_citizen", [VInt 0; VInt 0; VInt 1]);
     ("partner", [VStr "Yes"; VStr "No"; VStr "No"]);
     ("dependents", [VStr "Yes"; VStr "No"; VStr "No"]);
     ("tenure", [VInt 9; VInt 1; VInt 4]);
     ("monthly_charges", [VFloat 65.5; VFloat 20.5; VFloat 74.5]);
     ("total_charges", [VStr "100.5"; VStr "1889"; VStr "1889"]);
     ("gender", [VStr "Female"; VStr "Male"; VStr "Male"]);
     ("online_security", [VStr "No"; VStr "No internet service"; VStr "Yes"]);
     ("online_backup", [VStr "Yes"; VStr "No internet service"; VStr "Yes"]);
     ("device_protection", [VStr "No"; VStr "No internet service"; VStr "Yes"]);
     ("tech_support", [VStr "Yes"; VStr "No internet service"; VStr "Yes"]);
     ("streaming_tv", [VStr "Yes"; VStr "No internet service"; VStr "Yes"]);
     ("streaming_movies", [VStr "No"; VStr "No internet service"; VStr "Yes"]);
     ("churn", [VStr "No"; VStr "No"; VStr "Yes"])].
(** ** The module *)

Section Prepare.

Set Default Proof Using "Type".

(** What [pd.to_numeric] makes of one string cell: an int, a float, or
    nothing when the text does not parse. *)
Variable str_to_num : string → option (Z + float).

(** Python's [float(s)], which numpy applies to the string cells of an
    object array converted to float64. *)
Variable py_float : string → option float.

(** The state of a numpy random generator, and [RandomState(seed)]. *)
Variable rng_state : Type.
Variable RandomState : Z → rng_state.

(** The positions scikit-learn's splitter draws for one split of [n] rows:
    [ShuffleSplit] when [stratify] is None and [StratifiedShuffleSplit] on the
    labels otherwise, with [test_size] the fraction given and [train_size]
    left to its default (the complement).  It returns the train and the test
    positions, or raises (no rows, an empty train set, a class with a single
    member, ...), and leaves the generator advanced. *)
Variable cv_split :
  rng_state → float → nat → option Series →
  result (list nat * list nat) * rng_state.

(** The two library contracts the statements below rest on, each named in the
    [Proof using] of the proofs that need it.  With [train_size] left to its
    default, the train and test positions of a split together are the
    positions of all rows, each once; and text that is empty or whitespace
    only does not parse as a number. *)
Hypothesis cv_split_partition :
  ∀ g test_size n stratify train test g',
    cv_split g test_size n stratify = (Ok (train, test), g') →
    train ++ test ≡ₚ seq 0 n.

Hypothesis str_to_num_blank : ∀ s, blank s = true → str_to_num s = None.

Definition to_numeric_cell (v : value) : value :=
  match v with
  | VStr s =>
      match str_to_num s with
      | Some (inl z) => VInt z
      | Some (inr f) => VFloat f
      | None => VFloat nan
      end
  | _ => v
  end.

(** [pd.to_numeric(s, errors='coerce')]: cells that do not parse become
    NaN; the result is int64 when every cell is an int and float64
    otherwise. *)
Definition to_numeric (s : Series) : Series :=
  let r := to_numeric_cell <$> s in
  if forallb is_int r then r else to_float <$> r.

Definition addon_dict : pydict :=
  [(VStr "Yes", 1%Z); (VStr "No", 0%Z); (VStr "No internet service", 0%Z)].

Definition yes_no_dict : pydict := [(VStr "Yes", 1%Z); (VStr "No", 0%Z)].

Definition gender_dict : pydict := [(VStr "Male", 1%Z); (VStr "Female", 0%Z)].

Definition contract_dict : pydict := [(VInt 1, 0%Z); (VInt 2, 1%Z); (VInt 3, 2%Z)].

Definition internet_dict : pydict := [(VInt 3, 0%Z); (VInt 1, 1%Z); (VInt 2, 2%Z)].

Definition addon_columns : list string :=
  ["online_security"; "online_backup"; "device_protection"; "tech_support";
   "streaming_tv"; "streaming_movies"].

Definition short_names : list (string * string) :=
  [("contract_type_id", "contract_type"); ("phone_service", "phone");
   ("internet_service_type_id", "internet_type"); ("senior_citizen", "senior");
   ("dependents", "depend")].

(** [df.c = df.c.map(d)] *)
Definition map_column (df : DataFrame) (c : string) (d : pydict) : result DataFrame :=
  s ← getattr df c;
  Ok (setitem df c (Series_map d s)).

(** [prep_telco()].  The frame that [get_telco_data()] of acquire.py returns
    is the argument. *)
Definition prep_telco (get_telco_data : DataFrame) : result DataFrame :=
  let df := get_telco_data in
  df ← set_index df "customer_id";
  df ← map_column df "online_security" addon_dict;
  df ← map_column df "online_backup" addon_dict;
  df ← map_column df "device_protection" addon_dict;
  df ← map_column df "tech_support" addon_dict;
  df ← map_column df "streaming_tv" addon_dict;
  df ← map_column df "streaming_movies" addon_dict;
  a1 ← getattr df "online_security";
  a2 ← getattr df "online_backup";
  s ← Series_add a1 a2;
  a3 ← getattr df "device_protection";
  s ← Series_add s a3;
  a4 ← getattr df "tech_support";
  s ← Series_add s a4;
  a5 ← getattr df "streaming_tv";
  s ← Series_add s a5;
  a6 ← getattr df "streaming_movies";
  s ← Series_add s a6;
  let df := setitem df "num_add_ons" s in
  df ← drop_columns df addon_columns;
  df ← map_column df "phone_service" yes_no_dict;
  g ← getattr df "gender";
  let df := setitem df "is_male" (Series_map gender_dict g) in
  df ← drop_columns df ["gender"];
  df ← map_column df "partner" yes_no_dict;
  df ← map_column df "dependents" yes_no_dict;
  df ← map_column df "churn" yes_no_dict;
  df ← map_column df "contract_type_id" contract_dict;
  df ← map_column df "internet_service_type_id" internet_dict;
  t ← getattr df "tenure";
  q ← Series_truediv t 12;
  y ← Series_round2 q;
  let df := setitem df "tenure_yrs" y in
  let df := rename df short_names in
  tc ← getitem df "total_charges";
  let df := setitem df "total_charges" (to_numeric tc) in
  tc ← getattr df "total_charges";
  Ok (getitem_mask df (negb ∘ isnull <$> tc)).

(** *** Calls that can touch the state *)

Definition M (A : Type) : Type := world rng_state → result A * world rng_state.

#[local] Instance M_ret : MRet M := λ A a w, (Ok a, w).
#[local] Instance M_bind : MBind M :=
  λ A B f m w, match m w with
               | (Ok a, w') => f a w'
               | (Raise e, w') => (Raise e, w')
               end.

Definition lift {A : Type} (r : result A) : M A := λ w, (r, w).

(** The frame a reference points to.  A caller can only pass a reference it
    holds; for any other the model raises. *)
Definition deref (l : nat) : M DataFrame :=
  λ w, match objects w !! l with
       | Some d => (Ok d, w)
       | None => (Raise (KeyError "unbound reference"), w)
       end.

(** In-place update of the frame a reference points to. *)
Definition assign (l : nat) (d : DataFrame) : M unit :=
  λ w, (Ok (), mkWorld (<[l := d]> (objects w)) (np_random w)).

(** *** train_test_split *)

(** [train_test_split(df, test_size=.., random_state=.., stratify=..)].
    An int [random_state] seeds a generator of its own; None draws from, and
    advances, the global one.  The two frames are [df.iloc[train]] and
    [df.iloc[test]]. *)
Definition train_test_split (df : DataFrame) (test_size : float)
    (random_state : option Z) (stratify : option Series)
  : M (DataFrame * DataFrame) :=
  λ w,
    let g := match random_state with
             | Some seed => RandomState seed
             | None => np_random w
             end in
    let '(r, g') := cv_split g test_size (nrows df) stratify in
    let w' := match random_state with
              | Some _ => w
              | None => mkWorld (objects w) g'
              end in
    (p ← r; a ← iloc df p.1; b ← iloc df p.2; Ok (a, b), w').

(** The float64 literals [.2], [.3] and [.15]. *)
Definition f0_2 : float := 0x1.999999999999ap-3.
Definition f0_3 : float := 0x1.3333333333333p-2.
Definition f0_15 : float := 0x1.3333333333333p-3.

Definition telco_split (df : DataFrame) : M (DataFrame * DataFrame * DataFrame) :=
  y ← lift (getattr df "churn");
  '(train_validate, test) ← train_test_split df f0_2 (Some 666%Z) (Some y);
  y ← lift (getattr train_validate "churn");
  '(train, validate) ← train_test_split train_validate f0_3 (Some 666%Z) (Some y);
  mret (train, validate, test).

(** The six values [telco_split_xy] returns. *)
Record xy_split : Type := mkXY {
  X_train : DataFrame; y_train : Series;
  X_validate : DataFrame; y_validate : Series;
  X_test : DataFrame; y_test : Series
}.

Definition telco_split_xy (df : DataFrame) (target : string) : M xy_split :=
  y ← lift (getattr df "churn");
  '(train_validate, test) ← train_test_split df f0_2 (Some 666%Z) (Some y);
  y ← lift (getattr train_validate "churn");
  '(train, validate) ← train_test_split train_validate f0_3 (Some 666%Z) (Some y);
  X_train ← lift (drop_columns train [target]);
  y_train ← lift (getitem train target);
  X_validate ← lift (drop_columns validate [target]);
  y_validate ← lift (getitem validate target);
  X_test ← lift (drop_columns test [target]);
  y_test ← lift (getitem test target);
  mret (mkXY X_train y_train X_validate y_validate X_test y_test).

(** *** MinMaxScaler *)

(** One cell of [check_array(X)]: the float64 the cell converts to; an
    infinite value, or text that is not a number, is a ValueError (NaN is
    let through by MinMaxScaler). *)
Definition as_float (v : value) : result float :=
  f ← match v with
      | VFloat f => Ok f
      | VInt z => Ok (Z2F z)
      | VStr s => match py_float s with
                  | Some f => Ok f
                  | None => Raise ValueError
                  end
      end;
  if is_infinity f then Raise ValueError else Ok f.

(** [check_array(X)]: the float64 matrix of the frame, column by column,
    with at least one row and one column. *)
Definition check_array (X : DataFrame) : result (list (list float)) :=
  if decide (nrows X = 0) then Raise ValueError
  else if decide (cols X = []) then Raise ValueError
  else mapM (λ p, mapM as_float p.2) (cols X).

Definition nan_min2 (a b : float) : float :=
  if is_nan a then b else if is_nan b then a
  else if (b <? a)%float then b else a.

Definition nan_max2 (a b : float) : float :=
  if is_nan a then b else if is_nan b then a
  else if (a <? b)%float then b else a.

(** [np.nanmin] and [np.nanmax] of a column: NaN cells are skipped, and a
    column of NaN only gives NaN. *)
Definition nanmin (l : list float) : float := foldr nan_min2 nan l.
Definition nanmax (l : list float) : float := foldr nan_max2 nan l.

(** [_handle_zeros_in_scale]: a zero range is replaced by 1 (scikit-learn
    up to 0.23, the releases of the module's time). *)
Definition handle_zeros_in_scale (r : float) : float :=
  if (r =? 0)%float then 1%float else r.

(** The fitted attributes, one entry per column. *)
Record MinMaxScaler : Type := mkScaler {
  scale_ : list float;
  min_ : list float
}.

(** [scale_ = (1 - 0) / handle_zeros(data_max - data_min)] *)
Definition fit_scale (col : list float) : float :=
  ((1 - 0) / handle_zeros_in_scale (nanmax col - nanmin col))%float.

(** [min_ = 0 - data_min * scale_] *)
Definition fit_min (col : list float) : float :=
  (0 - nanmin col * fit_scale col)%float.

(** [MinMaxScaler(copy=True).fit(X)], feature range (0, 1). *)
Definition fit (X : DataFrame) : result MinMaxScaler :=
  a ← check_array X;
  Ok (mkScaler (fit_scale <$> a) (fit_min <$> a)).

(** [X *= scale_; X += min_] on one column. *)
Definition transform_column (scale min : float) (col : list float) : list float :=
  (λ x, x * scale + min)%float <$> col.

(** [scaler.transform(X)]: [X] must have the columns count of the fit. *)
Definition transform (scaler : MinMaxScaler) (X : DataFrame)
  : result (list (list float)) :=
  a ← check_array X;
  if decide (length a = length (scale_ scaler))
  then Ok (zip_with (λ sm col, transform_column sm.1 sm.2 col)
             (zip (scale_ scaler) (min_ scaler)) a)
  else Raise ValueError.

Definition scaled_columns : list string :=
  ["contract_type"; "phone"; "internet_type"; "senior"; "partner";
   "depend"; "tenure"; "monthly_charges"; "total_charges"; "num_add_ons";
   "is_male"; "tenure_yrs"].

(** [pd.DataFrame(array).set_index([X.index.values])] followed by
    [.columns = scaled_columns]: the twelve names are given by position, and
    an array with another number of columns is a ValueError. *)
Definition scaled_frame (X : DataFrame) (a : list (list float)) : result DataFrame :=
  if decide (length a = length scaled_columns)
  then Ok (mkDF (index X) (zip scaled_columns ((λ col : list float, VFloat <$> col) <$> a)))
  else Raise ValueError.

Definition telco_X_scale (X_train X_validate X_test : DataFrame)
  : result (DataFrame * DataFrame * DataFrame) :=
  scaler ← fit X_train;
  X_train_scaled_array ← transform scaler X_train;
  X_validate_scaled_array ← transform scaler X_validate;
  X_test_scaled_array ← transform scaler X_test;
  X_train_scaled ← scaled_frame X_train X_train_scaled_array;
  X_validate_scaled ← scaled_frame X_validate X_validate_scaled_array;
  X_test_scaled ← scaled_frame X_test X_test_scaled_array;
  Ok (X_train_scaled, X_validate_scaled, X_test_scaled).

(** *** prep_mall_data *)

(** [(s == text).astype('int')] *)
Definition eq_str_as_int (text : string) (v : value) : value :=
  match v with
  | VStr s => VInt (if decide (s = text) then 1 else 0)
  | _ => VInt 0
  end.

(** [prep_mall_data(df)].  [df] is the caller's frame, passed by reference:
    the first statement assigns a column of that very object; the second
    rebinds the local name to the new frame [drop] returns. *)
Definition prep_mall_data (df : nat) : M (DataFrame * DataFrame * DataFrame) :=
  d ← deref df;
  g ← lift (getattr d "gender");
  _ ← assign df (setitem d "is_female" (eq_str_as_int "Female" <$> g));
  d ← deref df;
  df ← lift (drop_columns d ["gender"]);
  '(train_and_validate, test) ← train_test_split df f0_15 (Some 666%Z) None;
  '(train, validate) ← train_test_split train_and_validate f0_15 (Some 666%Z) None;
  mret (train, test, validate).

(** *** Notions used in the statements *)

(** The splitter has drawn the positions [train] and [test] for a table of
    [n] rows. *)
Definition drawn (n : nat) (train test : list nat) : Prop :=
  ∃ g test_size stratify g',
    cv_split g test_size n stratify = (Ok (train, test), g').

(** The two statements [telco_split_xy] applies to each partition:
    [X = part.drop(columns=[target])] and [y = part[target]]. *)
Definition feature_target (part : DataFrame) (target : string)
  : result (DataFrame * Series) :=
  X ← drop_columns part [target];
  y ← getitem part target;
  Ok (X, y).

(** A frame without the column [c]. *)
Definition without (c : string) (df : DataFrame) : DataFrame :=
  mkDF (index df) (filter (λ p, p.1 ≠ c) (cols df)).

Fixpoint position (c : string) (l : list string) : nat :=
  match l with
  | [] => 0
  | c' :: l' => if decide (c = c') then 0 else S (position c l')
  end.

(** [df.insert(loc, c, s)] as an expression: the frame with the column
    [(c, s)] put back at position [loc]. *)
Definition insert_column (df : DataFrame) (loc : nat) (c : string) (s : Series)
  : DataFrame :=
  mkDF (index df) (take loc (cols df) ++ (c, s) :: drop loc (cols df)).

(** The raw row of the end-to-end example, for a customer [cid]. *)
Definition example_raw (cid : value) : DataFrame :=
  mkDF [VInt 0]
    [("customer_id", [cid]); ("contract_type_id", [VInt 1]);
     ("internet_service_type_id", [VInt 3]); ("phone_service", [VStr "Yes"]);
     ("gender", [VStr "Male"]); ("partner", [VStr "No"]);
     ("dependents", [VStr "No"]); ("churn", [VStr "No"]); ("tenure", [VInt 5]);
     ("online_security", [VStr "Yes"]); ("online_backup", [VStr "No"]);
     ("device_protection", [VStr "No"]); ("tech_support", [VStr "No"]);
     ("streaming_tv", [VStr "No"]); ("streaming_movies", [VStr "No"]);
     ("total_charges", [VStr "100.5"])].

(** The float64 nearest to 0.42. *)
Definition f0_42 : float := 0x1.ae147ae147ae1p-2.

(** The prepared row the example expects, indexed by [cid]. *)
Definition example_prepared (cid : value) : DataFrame :=
  mkDF [cid]
    [("contract_type", [VInt 0]); ("internet_type", [VInt 0]);
     ("phone", [VInt 1]); ("partner", [VInt 0]); ("depend", [VInt 0]);
     ("churn", [VInt 0]); ("tenure", [VInt 5]);
     ("total_charges", [VFloat 100.5]); ("num_add_ons", [VInt 1]);
     ("is_male", [VInt 1]); ("tenure_yrs", [VFloat f0_42])].

(** What the scaler fitted on the column [train_col] makes of a cell [x]:
    [x * scale_ + min_]. *)
Definition scale_with (train_col : list float) (x : float) : float :=
  (x * fit_scale train_col + fit_min train_col)%float.

Definition scaled_series (train_col col : list float) : Series :=
  VFloat <$> (scale_with train_col <$> col).

(** Two small feature tables with the twelve columns: a training table of
    two rows that holds, column by column, the smallest and the largest value
    of the churn data (tenure 1 to 72 months, monthly charges 18.25 to
    118.75), and a validation table of one row lying outside the training
    range in two columns. *)
Definition scale_example_train : DataFrame :=
  mkDF [VStr "0002-ORFBO"; VStr "0003-MKNFE"]
    [("contract_type", [VInt 0; VInt 2]); ("phone", [VInt 0; VInt 1]);
     ("internet_type", [VInt 0; VInt 2]); ("senior", [VInt 0; VInt 1]);
     ("partner", [VInt 0; VInt 1]); ("depend", [VInt 0; VInt 1]);
     ("tenure", [VInt 1; VInt 72]);
     ("monthly_charges", [VFloat 18.25; VFloat 118.75]);
     ("total_charges", [VFloat 18.75; VFloat 8684.75]);
     ("num_add_ons", [VInt 0; VInt 6]); ("is_male", [VInt 0; VInt 1]);
     ("tenure_yrs", [VFloat 0.25; VFloat 6])].

Definition scale_example_validate : DataFrame :=
  mkDF [VStr "0004-TLHLJ"]
    [("contract_type", [VInt 1]); ("phone", [VInt 1]);
     ("internet_type", [VInt 1]); ("senior", [VInt 0]);
     ("partner", [VInt 1]); ("depend", [VInt 0]);
     ("tenure", [VInt 36]);
     ("monthly_charges", [VFloat 120.5]);
     ("total_charges", [VFloat 18.25]);
     ("num_add_ons", [VInt 3]); ("is_male", [VInt 1]);
     ("tenure_yrs", [VFloat 3])].

(** Every column of the frame has one cell per row. *)
Definition rectangular (df : DataFrame) : Prop :=
  Forall (λ c, length c.2 = nrows df) (cols df).

(** A cell holds the number [k]: as an int64, or as a float64 when its
    column has been cast to float. *)
Definition is_number (k : Z) (v : value) : Prop :=
  v = VInt k ∨ v = VFloat (Z2F k).

(** The add-on cells of the row at position [i], in the order of
    [addon_columns]. *)
Definition addons (df : DataFrame) (i : nat) : option (list value) :=
  mapM (λ c, cell df c i) addon_columns.

Definition addon_domain (v : value) : Prop :=
  v = VStr "Yes" ∨ v = VStr "No" ∨ v = VStr "No internet service".

Definition is_yes (v : value) : bool :=
  match v with
  | VStr s => bool_decide (s = "Yes")
  | _ => false
  end.

(** The number of cells equal to Yes. *)
Definition count_yes (vs : list value) : Z :=
  Z.of_nat (length (filter is_yes vs)).

(** The cell converts to a number: an int, or a float that is not NaN.
    [survives raw i] says so of the total_charges cell of the raw row at
    position [i]. *)
Definition parses (v : value) : bool := negb (isnull (to_numeric_cell v)).

Definition survives (raw : DataFrame) (i : nat) : bool :=
  match cell raw "total_charges" i with
  | Some v => parses v
  | None => false
  end.

(** The positions of the raw rows whose total_charges converts to a
    number, in the order of the table. *)
Definition surviving (raw : DataFrame) : list nat :=
  filter (λ i, survives raw i) (seq 0 (nrows raw)).


(** *** Further notions used in the statements *)

(** [col] is a column of the matrix the scaler is fitted on: a column of
    [check_array(X_train)]. *)
Definition fitted (X_train : DataFrame) (col : list float) : Prop :=
  ∃ tr, check_array X_train = Ok tr ∧ col ∈ tr.

(** The frame the caller of [prep_mall_data] holds after the call, for a
    frame [d] whose gender column is [g]. *)
Definition mall_frame (d : DataFrame) (g : Series) : DataFrame :=
  setitem d "is_female" (eq_str_as_int "Female" <$> g).

(** What [prep_mall_data] computes from that frame: the seeds are fixed, so
    the state plays no part. *)
Definition mall_splits (d' : DataFrame) : result (DataFrame * DataFrame * DataFrame) :=
  prepared ← drop_columns d' ["gender"];
  p ← (cv_split (RandomState 666) f0_15 (nrows prepared) None).1;
  train_and_validate ← iloc prepared p.1;
  test ← iloc prepared p.2;
  q ← (cv_split (RandomState 666) f0_15 (nrows train_and_validate) None).1;
  train ← iloc train_and_validate q.1;
  validate ← iloc train_and_validate q.2;
  Ok (train, test, validate).

(** The statements of [prep_telco], one after the other, as they run when
    none of them raises: a column that is read is taken as it is found (the
    empty Series stands for one that is not there), and the cell-wise
    operations keep the cell they compute (NaN stands for one they cannot
    compute).  [prep_telco_rows] is the frame before the last statement,
    with one row per raw row; [prep_telco_steps] is the frame after it, and
    [prep_telco] returns this frame whenever it returns. *)
Definition column_or_empty (df : DataFrame) (c : string) : Series :=
  default [] (column c (cols df)).

(** [df[c] = f(df[src])] *)
Definition derive (df : DataFrame) (c src : string) (f : Series → Series) : DataFrame :=
  setitem df c (f (column_or_empty df src)).

Definition map_total (df : DataFrame) (c : string) (d : pydict) : DataFrame :=
  derive df c c (Series_map d).

Definition drop_total (df : DataFrame) (labels : list string) : DataFrame :=
  mkDF (index df) (filter (λ p, p.1 ∉ labels) (cols df)).

Definition or_nan (r : result value) : value :=
  match r with
  | Ok v => v
  | Raise _ => VFloat nan
  end.

Definition add_total (s1 s2 : Series) : Series :=
  (λ p, or_nan (add_value p.1 p.2)) <$> zip s1 s2.

Definition sum_add_ons (df : DataFrame) : DataFrame :=
  let s := add_total (column_or_empty df "online_security")
             (column_or_empty df "online_backup") in
  let s := add_total s (column_or_empty df "device_protection") in
  let s := add_total s (column_or_empty df "tech_support") in
  let s := add_total s (column_or_empty df "streaming_tv") in
  let s := add_total s (column_or_empty df "streaming_movies") in
  setitem df "num_add_ons" s.

Definition tenure_in_years (v : value) : value :=
  or_nan (q ← truediv_value 12 v; round2_value q).

Definition prep_telco_rows (raw : DataFrame) : DataFrame :=
  let df := mkDF (column_or_empty raw "customer_id")
              (filter (λ p, p.1 ≠ "customer_id") (cols raw)) in
  let df := map_total df "online_security" addon_dict in
  let df := map_total df "online_backup" addon_dict in
  let df := map_total df "device_protection" addon_dict in
  let df := map_total df "tech_support" addon_dict in
  let df := map_total df "streaming_tv" addon_dict in
  let df := map_total df "streaming_movies" addon_dict in
  let df := sum_add_ons df in
  let df := drop_total df addon_columns in
  let df := map_total df "phone_service" yes_no_dict in
  let df := derive df "is_male" "gender" (Series_map gender_dict) in
  let df := drop_total df ["gender"] in
  let df := map_total df "partner" yes_no_dict in
  let df := map_total df "dependents" yes_no_dict in
  let df := map_total df "churn" yes_no_dict in
  let df := map_total df "contract_type_id" contract_dict in
  let df := map_total df "internet_service_type_id" internet_dict in
  let df := derive df "tenure_yrs" "tenure" (fmap tenure_in_years) in
  let df := rename df short_names in
  derive df "total_charges" "total_charges" to_numeric.

Definition prep_telco_steps (raw : DataFrame) : DataFrame :=
  let df := prep_telco_rows raw in
  getitem_mask df (negb ∘ isnull <$> column_or_empty df "total_charges").

(** The columns [prep_telco] reads, in the order it first reads them. *)
Definition required_columns : list string :=
  ["customer_id"; "online_security"; "online_backup"; "device_protection";
   "tech_support"; "streaming_tv"; "streaming_movies"; "phone_service";
   "gender"; "partner"; "dependents"; "churn"; "contract_type_id";
   "internet_service_type_id"; "tenure"; "total_charges"].

Definition is_text (v : value) : bool :=
  match v with VStr _ => true | _ => false end.

(** The names [prep_telco] assigns, drops or renames (from or to); every
    other column, tenure among them, is only carried along. *)
Definition written_columns : list string :=
  "customer_id" :: addon_columns ++
  ["num_add_ons"; "phone_service"; "is_male"; "gender"; "partner"; "dependents";
   "churn"; "contract_type_id"; "internet_service_type_id"; "tenure_yrs"] ++
  short_names.*1 ++ short_names.*2 ++ ["total_charges"].

(** *** wrangle_grades *)

(** Python's [\s] on a [str]: the Unicode whitespace characters U+0009 to
    U+000D, U+001C to U+0020, U+0085, U+00A0, U+1680, U+2000 to U+200A,
    U+2028, U+2029, U+202F, U+205F and U+3000.  Text is held as its UTF-8
    bytes, so the ones above U+007F are two or three bytes long. *)
Definition byte_in (lo hi : N) (a : Ascii.ascii) : bool :=
  (lo <=? Ascii.N_of_ascii a)%N && (Ascii.N_of_ascii a <=? hi)%N.

(** [re.search(r"^\s*$", s) is not None]: the text is empty or whitespace
    from end to end ([$] also matches before a last newline, itself
    whitespace). *)
Fixpoint all_whitespace (s : string) : bool :=
  match s with
  | EmptyString => true
  | String a s1 =>
      if byte_in 9 13 a || byte_in 28 32 a then all_whitespace s1
      else
        match s1 with
        | EmptyString => false
        | String b s2 =>
            if byte_in 0xC2 0xC2 a && (byte_in 0x85 0x85 b || byte_in 0xA0 0xA0 b)
            then all_whitespace s2
            else
              match s2 with
              | EmptyString => false
              | String c s3 =>
                  if byte_in 0xE1 0xE1 a && byte_in 0x9A 0x9A b && byte_in 0x80 0x80 c
                     || byte_in 0xE2 0xE2 a && byte_in 0x80 0x80 b
                        && (byte_in 0x80 0x8A c || byte_in 0xA8 0xA9 c
                            || byte_in 0xAF 0xAF c)
                     || byte_in 0xE2 0xE2 a && byte_in 0x81 0x81 b && byte_in 0x9F 0x9F c
                     || byte_in 0xE3 0xE3 a && byte_in 0x80 0x80 b && byte_in 0x80 0x80 c
                  then all_whitespace s3
                  else false
              end
        end
  end.

(** One cell under [replace(r"^\s*$", np.nan, regex=True)]: only text is
    matched against the pattern, and text that matches becomes NaN. *)
Definition replace_blank (v : value) : value :=
  match v with
  | VStr s => if all_whitespace s then VFloat nan else v
  | _ => v
  end.

(** [df.replace(r"^\s*$", np.nan, regex=True)] *)
Definition replace_blanks (df : DataFrame) : DataFrame :=
  mkDF (index df) (prod_map id (λ s : Series, replace_blank <$> s) <$> cols df).

(** [df.dropna()]: the rows without a missing value in any column; the row
    labels play no part. *)
Definition notna_at (i : nat) (s : Series) : bool :=
  match s !! i with
  | Some v => negb (isnull v)
  | None => true
  end.

Definition dropna (df : DataFrame) : DataFrame :=
  getitem_mask df ((λ i, forallb (λ p, notna_at i p.2) (cols df)) <$> seq 0 (nrows df)).

(** [Series.astype("int")] of one column without missing values: the ints
    of its cells, or nothing when the cast raises (a ValueError for text that
    is not an integer literal or for an infinite float, an OverflowError for
    an integer beyond the C long).  Where the C long has 64 bits, casting an
    int64 column is the identity. *)
Variable astype_int : Series → option (list Z).

Hypothesis astype_int_int64 : ∀ zs, astype_int (VInt <$> zs) = Some zs.

(** [df.astype("int")]: every column is cast. *)
Definition astype_int_column (p : string * Series) : option (string * Series) :=
  match astype_int p.2 with
  | Some zs => Some (p.1, VInt <$> zs)
  | None => None
  end.

Definition astype_int_frame (df : DataFrame) : option DataFrame :=
  match mapM astype_int_column (cols df) with
  | Some cs => Some (mkDF (index df) cs)
  | None => None
  end.

(** How a call of [wrangle_grades] ends.  The cast is its last statement;
    which exception the cast raises for a column that does not convert is
    the library's matter (it depends on the order in which pandas goes
    through its blocks) and is not told apart. *)
Inductive grades_outcome : Type :=
  | Returns (df : DataFrame)
  | Raises (e : exn)
  | CastRaises.

(** [wrangle_grades()].  The frame that [pd.read_csv("student_grades.csv")]
    returns is the argument. *)
Definition wrangle_grades (read_csv : DataFrame) : grades_outcome :=
  let grades := read_csv in
  match drop_columns grades ["student_id"] with
  | Raise e => Raises e
  | Ok grades =>
      let grades := replace_blanks grades in
      match astype_int_frame (dropna grades) with
      | Some df => Returns df
      | None => CastRaises
      end
  end.

(** A cell that [wrangle_grades] takes as missing: NaN, or text that is
    empty or whitespace only. *)
Definition missing_cell (v : value) : bool := isnull (replace_blank v).

(** The row at position [i] has no missing cell outside student_id. *)
Definition complete_row (csv : DataFrame) (i : nat) : bool :=
  forallb (λ p, bool_decide (p.1 = "student_id")
                || from_option (negb ∘ missing_cell) true (p.2 !! i))
    (cols csv).

(** The positions of those rows, in the order of the file. *)
Definition complete_rows (csv : DataFrame) : list nat :=
  filter (λ i, complete_row csv i) (seq 0 (nrows csv)).

(** ** Proofs *)

(** *** float64 facts *)

(** Rounding a non-negative mantissa never gives NaN, so the float64 of an
    int is a number. *)
Lemma shr_1_nonneg mrs : (0 ≤ shr_m mrs)%Z → (0 ≤ shr_m (shr_1 mrs))%Z.
Proof. destruct mrs as [[|[p|p|]|p] r s]; simpl; lia. Qed.

Lemma iter_pos_shr_1_nonneg n mrs :
  (0 ≤ shr_m mrs)%Z → (0 ≤ shr_m (SpecFloat.iter_pos shr_1 n mrs))%Z.
Proof.
  revert mrs. induction n as [n IH|n IH|]; intros mrs H; simpl.
  - by apply IH, IH, shr_1_nonneg.
  - by apply IH, IH.
  - by apply shr_1_nonneg.
Qed.

Lemma shr_fexp_nonneg m e l :
  (0 ≤ m)%Z → (0 ≤ shr_m (shr_fexp prec emax m e l).1)%Z.
Proof.
  intros H. unfold shr_fexp, shr.
  assert (0 ≤ shr_m (shr_record_of_loc m l))%Z by (by destruct l as [|[]]).
  destruct (_ - e)%Z; simpl; try done. by apply iter_pos_shr_1_nonneg.
Qed.

Lemma round_nearest_even_nonneg m l :
  (0 ≤ m)%Z → (0 ≤ round_nearest_even m l)%Z.
Proof. destruct l as [|[]]; simpl; try lia. destruct (Z.even m); lia. Qed.

Lemma binary_round_aux_not_nan s m e l :
  (0 ≤ m)%Z → binary_round_aux prec emax s m e l ≠ S754_nan.
Proof.
  intros H. unfold binary_round_aux.
  pose proof (shr_fexp_nonneg m e l H) as H1.
  destruct (shr_fexp prec emax m e l) as [mrs' e'].
  pose proof (shr_fexp_nonneg _ e' loc_Exact
                (round_nearest_even_nonneg _ (loc_of_shr_record mrs') H1)) as H2.
  destruct (shr_fexp prec emax _ e' loc_Exact) as [mrs'' e'']. simpl in H2.
  destruct (shr_m mrs''); [done| |lia]. by destruct (_ <=? _)%Z.
Qed.

Lemma binary_round_not_nan s m e : binary_round prec emax s m e ≠ S754_nan.
Proof.
  unfold binary_round. destruct (shl_align _ _ _) as [mz ez].
  by apply binary_round_aux_not_nan.
Qed.

Lemma binary_normalize_not_nan z e b : binary_normalize prec emax z e b ≠ S754_nan.
Proof. destruct z; simpl; [done| |]; apply binary_round_not_nan. Qed.

Lemma SFeqb_refl x : x ≠ S754_nan → SFeqb x x = true.
Proof.
  intros H. destruct x as [s|[]| |[] m e]; unfold SFeqb; simpl; try done.
  all: by rewrite Z.compare_refl, Pos.compare_cont_refl.
Qed.

Lemma is_nan_SF (x : float) : Prim2SF x ≠ S754_nan → is_nan x = false.
Proof. intros H. unfold is_nan. by rewrite FloatAxioms.eqb_spec, SFeqb_refl. Qed.

Lemma ldexp_not_nan (f : float) e :
  Prim2SF f ≠ S754_nan → Prim2SF (Z.ldexp f e) ≠ S754_nan.
Proof.
  intros H. rewrite Z_ldexp_spec. unfold SFldexp.
  destruct (Prim2SF f); try done. apply binary_round_not_nan.
Qed.

Lemma Z2F_not_nan z : is_nan (Z2F z) = false.
Proof.
  unfold Z2F. pose proof (binary_normalize_not_nan z 0 false) as H.
  destruct (binary_normalize prec emax z 0 false) as [[]|[]| |s m e]; try done.
  unfold SF2Prim. apply is_nan_SF.
  assert (Prim2SF (Z.ldexp (of_uint63 (Uint63.of_Z (Z.pos m))) e) ≠ S754_nan) as Hl.
  { apply ldexp_not_nan. rewrite of_uint63_spec. apply binary_normalize_not_nan. }
  destruct s; [|done]. rewrite opp_spec. by destruct (Prim2SF _).
Qed.

Lemma is_finite_SF (y : float) :
  is_finite y = true →
  (∃ s, Prim2SF y = S754_zero s) ∨ (∃ s m e, Prim2SF y = S754_finite s m e).
Proof.
  unfold is_finite, is_nan, is_infinity.
  rewrite !FloatAxioms.eqb_spec, abs_spec.
  change (Prim2SF infinity) with (S754_infinity false).
  destruct (Prim2SF y) as [s|[]| |s m e]; simpl; try discriminate; eauto.
Qed.

(** [y + (0 - y)] is exactly [+0] for every finite float. *)
Lemma float_cancel (y : float) :
  is_finite y = true → (y + (0 - y))%float = 0%float.
Proof.
  intros H. apply Prim2SF_inj. rewrite add_spec, sub_spec.
  change (Prim2SF 0) with (S754_zero false).
  destruct (is_finite_SF y H) as [[s ->]|(s & m & e & ->)].
  - by destruct s.
  - simpl. unfold SF64add, SFadd. rewrite Z.min_id. unfold shl_align.
    rewrite Z.sub_diag. simpl.
    replace (cond_Zopp s (Z.pos m) + cond_Zopp (negb s) (Z.pos m))%Z with 0%Z
      by (destruct s; unfold cond_Zopp, negb; lia).
    reflexivity.
Qed.

Lemma is_finite_not_nan (y : float) : is_finite y = true → is_nan y = false.
Proof. unfold is_finite. by destruct (is_nan y). Qed.

Lemma mul_nan_l (s : float) : is_nan (nan * s) = true.
Proof.
  unfold is_nan. rewrite FloatAxioms.eqb_spec, mul_spec.
  by change (Prim2SF nan) with S754_nan.
Qed.

Lemma is_nan_eq (x : float) : is_nan x = true → x = nan.
Proof.
  unfold is_nan. rewrite FloatAxioms.eqb_spec. intros H. apply Prim2SF_inj.
  change (Prim2SF nan) with S754_nan.
  destruct (Prim2SF x) as [s|[]| |[] m e]; simpl in H; try done.
  - unfold SFeqb in H; simpl in H. rewrite Z.compare_refl in H.
    by rewrite Pos.compare_cont_refl in H.
  - unfold SFeqb in H; simpl in H. rewrite Z.compare_refl in H.
    by rewrite Pos.compare_cont_refl in H.
Qed.

(** *** Rounding

    What [SpecFloat]'s rounding computes, in integer arithmetic; from it,
    that float64 multiplication and addition are monotone. *)

Section rounding.
Local Open Scope Z_scope.

(** [digits2_pos m] is the bit length of [m]. *)
Lemma digits2_pos_spec (m : positive) :
  2 ^ (Z.pos (digits2_pos m) - 1) ≤ Z.pos m < 2 ^ Z.pos (digits2_pos m).
Proof.
  induction m as [m IH|m IH|]; simpl digits2_pos.
  1,2: rewrite Pos2Z.inj_succ;
       replace (Z.succ (Z.pos (digits2_pos m)) - 1)
         with (Z.succ (Z.pos (digits2_pos m) - 1)) by lia;
       rewrite !Z.pow_succ_r by lia; lia.
  simpl. lia.
Qed.

(** [iter_pos f p] applies [f] [p] times. *)
Lemma iter_pos_twice {A} (f : A → A) n x :
  Nat.iter n f (Nat.iter n f x) = Nat.iter (n + n) f x.
Proof. by rewrite Nat.iter_add. Qed.

Lemma iter_pos_nat {A} (f : A → A) p x :
  SpecFloat.iter_pos f p x = Nat.iter (Pos.to_nat p) f x.
Proof.
  revert x. induction p as [p IH|p IH|]; intros x; simpl SpecFloat.iter_pos.
  - rewrite !IH, iter_pos_twice, <- Nat.iter_succ_r. f_equal. lia.
  - rewrite !IH, iter_pos_twice. f_equal. lia.
  - done.
Qed.

(** One right shift halves the mantissa, moves its low bit to the round bit
    and accumulates the sticky bit; [n] shifts give [shr_state M n]. *)
Lemma shr_1_m mrs : 0 ≤ shr_m mrs → shr_m (shr_1 mrs) = shr_m mrs / 2.
Proof.
  destruct mrs as [[|[p|p|]|p] r s]; cbn [shr_m shr_1]; try lia; intros _.
  - done.
  - apply Z.div_unique with 1; lia.
  - apply Z.div_unique with 0; lia.
  - done.
Qed.

Lemma shr_1_r mrs : 0 ≤ shr_m mrs → shr_r (shr_1 mrs) = Z.odd (shr_m mrs).
Proof. destruct mrs as [[|[p|p|]|p] r s]; simpl; try lia; done. Qed.

Lemma shr_1_s mrs : shr_s (shr_1 mrs) = shr_r mrs || shr_s mrs.
Proof. by destruct mrs as [[|[p|p|]|[p|p|]] r s]. Qed.

Lemma shr_record_eq a b :
  shr_m a = shr_m b → shr_r a = shr_r b → shr_s a = shr_s b → a = b.
Proof. destruct a, b; simpl; congruence. Qed.

Lemma shr_1_state M n : 0 ≤ M → shr_1 (shr_state M n) = shr_state M (S n).
Proof.
  intros HM.
  assert (0 ≤ M / 2 ^ Z.of_nat n) as Hq by (apply Z.div_pos; lia).
  apply shr_record_eq.
  - rewrite shr_1_m by done. simpl shr_m. rewrite Nat2Z.inj_succ, Z.pow_succ_r by lia.
    rewrite Z.mul_comm, <- Z.div_div by lia. done.
  - rewrite shr_1_r by done. done.
  - rewrite shr_1_s. destruct n as [|n]; simpl shr_r; simpl shr_s.
    + simpl. by rewrite Z.mod_1_r.
    + rewrite (Nat2Z.inj_succ n), Z.pow_succ_r by lia.
      rewrite (Z.mul_comm 2), Z.rem_mul_r by lia.
      assert (0 ≤ M mod 2 ^ Z.of_nat n < 2 ^ Z.of_nat n) by (apply Z.mod_pos_bound; lia).
      rewrite Zmod_odd.
      destruct (Z.odd (M / 2 ^ Z.of_nat n));
        repeat match goal with |- context [?a =? ?b] => destruct (Z.eqb_spec a b) end;
        simpl; try done; nia.
Qed.

Lemma iter_shr_1 M n : 0 ≤ M →
  Nat.iter n shr_1 {| shr_m := M; shr_r := false; shr_s := false |} = shr_state M n.
Proof.
  intros HM. induction n as [|n IH].
  - simpl. unfold shr_state. simpl. by rewrite Z.div_1_r.
  - rewrite Nat.iter_succ, IH. by apply shr_1_state.
Qed.

(** Rounding the shifted record to nearest, ties to even, is [rne]. *)
Lemma round_shr_state M n : 0 ≤ M →
  round_nearest_even (shr_m (shr_state M n)) (loc_of_shr_record (shr_state M n))
  = rne M (Z.of_nat n).
Proof.
  intros HM. unfold rne. destruct n as [|n].
  - simpl. rewrite Z.mod_1_r. done.
  - unfold shr_state, loc_of_shr_record. cbv [shr_m shr_r shr_s].
    rewrite (Nat2Z.inj_succ n), Z.pow_succ_r by lia.
    set (P := 2 ^ Z.of_nat n). assert (0 < P) by (apply Z.pow_pos_nonneg; lia).
    rewrite (Z.mul_comm 2 P), Z.rem_mul_r by lia.
    assert (0 ≤ M mod P < P) by (apply Z.mod_pos_bound; lia).
    rewrite Zmod_odd.
    destruct (Z.odd (M / P));
      destruct (Z.eqb_spec (M mod P) 0) as [->|]; simpl negb; cbv iota.
    all: repeat match goal with |- context [?a <? ?b] => destruct (Z.ltb_spec a b) end;
         repeat match goal with |- context [?a =? ?b] => destruct (Z.eqb_spec a b) end;
         try lia; try nia; done.
Qed.


Lemma pow2_pos n : 0 ≤ n → 0 < 2 ^ n.
Proof. intros. apply Z.pow_pos_nonneg; lia. Qed.

Lemma pow2_split g b : 0 ≤ g ≤ b → 2 ^ b = 2 ^ (b - g) * 2 ^ g.
Proof. intros. rewrite <- Z.pow_add_r by lia. f_equal. lia. Qed.

(** [rne] is exact on integers, invariant under scaling, and monotone. *)
Lemma rne_bounds M n : 0 ≤ n → M / 2 ^ n ≤ rne M n ≤ M / 2 ^ n + 1.
Proof.
  intros Hn. unfold rne.
  repeat match goal with |- context [if ?b then _ else _] => destruct b end; lia.
Qed.

Lemma rne_exact C n : 0 ≤ n → rne (C * 2 ^ n) n = C.
Proof.
  intros Hn. pose proof (pow2_pos n Hn). unfold rne.
  rewrite Z.div_mul, Z.mod_mul by lia.
  destruct (Z.ltb_spec (2 * 0) (2 ^ n)); lia.
Qed.

Lemma rne_scale M n j : 0 ≤ n → 0 ≤ j → rne (M * 2 ^ j) (n + j) = rne M n.
Proof.
  intros Hn Hj. pose proof (pow2_pos n Hn). pose proof (pow2_pos j Hj).
  unfold rne. rewrite Z.pow_add_r by lia.
  rewrite Z.div_mul_cancel_r, Z.mul_mod_distr_r by lia.
  assert (0 ≤ M mod 2 ^ n < 2 ^ n) by (apply Z.mod_pos_bound; lia).
  repeat match goal with |- context [?a <? ?b] => destruct (Z.ltb_spec a b) end;
    repeat match goal with |- context [?a =? ?b] => destruct (Z.eqb_spec a b) end;
    try done; nia.
Qed.

Lemma rne_mono_same W1 W2 n : 0 ≤ n → W1 ≤ W2 → rne W1 n ≤ rne W2 n.
Proof.
  intros Hn HW. pose proof (pow2_pos n Hn) as HP. unfold rne.
  pose proof (Z.div_mod W1 (2 ^ n) ltac:(lia)) as E1.
  pose proof (Z.div_mod W2 (2 ^ n) ltac:(lia)) as E2.
  pose proof (Z.mod_pos_bound W1 (2 ^ n) HP) as B1.
  pose proof (Z.mod_pos_bound W2 (2 ^ n) HP) as B2.
  set (P := 2 ^ n) in *.
  set (T1 := W1 / P) in *. set (T2 := W2 / P) in *.
  set (f1 := W1 mod P) in *. set (f2 := W2 mod P) in *.
  assert (T1 < T2 ∨ (T1 = T2 ∧ f1 ≤ f2)) as [Hlt|[Heq Hf]] by nia.
  - repeat match goal with |- context [if ?b then _ else _] => destruct b end; lia.
  - rewrite Heq.
    repeat match goal with |- context [?a <? ?b] => destruct (Z.ltb_spec a b) end;
    repeat match goal with |- context [?a =? ?b] => destruct (Z.eqb_spec a b) end;
    try destruct (Z.even T2); lia.
Qed.

Lemma rne_le_multiple W C n : 0 ≤ n → W ≤ C * 2 ^ n → rne W n ≤ C.
Proof. intros Hn H. rewrite <- (rne_exact C n Hn). by apply rne_mono_same. Qed.

Lemma rne_ge_multiple W C n : 0 ≤ n → C * 2 ^ n ≤ W → C ≤ rne W n.
Proof. intros Hn H. rewrite <- (rne_exact C n Hn) at 1. by apply rne_mono_same. Qed.

Lemma rne_nonneg W n : 0 ≤ n → 0 ≤ W → 0 ≤ rne W n.
Proof. intros Hn H. apply rne_ge_multiple; [done|lia]. Qed.

(** [Zdigits2] is the bit length: it is monotone, and a shift adds to it. *)
Lemma Zdigits2_spec W : 0 < W → 2 ^ (Zdigits2 W - 1) ≤ W < 2 ^ Zdigits2 W.
Proof. destruct W as [|m|m]; try lia. intros _. apply digits2_pos_spec. Qed.

Lemma Zdigits2_pos W : 0 < W → 0 < Zdigits2 W.
Proof. destruct W as [|m|m]; simpl; lia. Qed.

Lemma Zdigits2_le W d : 0 < W → 0 ≤ d → W < 2 ^ d → Zdigits2 W ≤ d.
Proof.
  intros HW Hd H. pose proof (Zdigits2_spec W HW) as [H1 _].
  pose proof (Zdigits2_pos W HW).
  destruct (Z.le_gt_cases (Zdigits2 W) d) as [|Hgt]; [done|].
  assert (2 ^ d ≤ 2 ^ (Zdigits2 W - 1)) by (apply Z.pow_le_mono_r; lia). lia.
Qed.

Lemma Zdigits2_ge W d : 0 < W → 2 ^ (d - 1) ≤ W → d ≤ Zdigits2 W.
Proof.
  intros HW H. pose proof (Zdigits2_spec W HW) as [_ H1].
  pose proof (Zdigits2_pos W HW).
  destruct (Z.le_gt_cases d (Zdigits2 W)) as [|Hgt]; [done|].
  assert (2 ^ Zdigits2 W ≤ 2 ^ (d - 1)) by (apply Z.pow_le_mono_r; lia). lia.
Qed.

Lemma Zdigits2_mono W1 W2 : 0 < W1 → W1 ≤ W2 → Zdigits2 W1 ≤ Zdigits2 W2.
Proof.
  intros H1 H12. apply Zdigits2_ge; [lia|].
  pose proof (Zdigits2_spec W1 H1). lia.
Qed.

Lemma Zdigits2_mul_pow2 M a :
  0 < M → 0 ≤ a → Zdigits2 (M * 2 ^ a) = Zdigits2 M + a.
Proof.
  intros HM Ha. pose proof (pow2_pos a Ha). pose proof (Zdigits2_spec M HM) as [H1 H2].
  pose proof (Zdigits2_pos M HM).
  apply Z.le_antisymm.
  - apply Zdigits2_le; [nia|lia|]. rewrite Z.pow_add_r by lia. nia.
  - apply Zdigits2_ge; [nia|].
    replace (Zdigits2 M + a - 1) with (Zdigits2 M - 1 + a) by lia.
    rewrite Z.pow_add_r by lia. nia.
Qed.

Lemma grid_nonneg W : 0 ≤ grid W.
Proof. unfold grid. lia. Qed.

Lemma grid_mono W1 W2 : 0 < W1 → W1 ≤ W2 → grid W1 ≤ grid W2.
Proof. intros H1 H2. pose proof (Zdigits2_mono W1 W2 H1 H2). unfold grid. lia. Qed.

Lemma rnd_0 : rnd 0 = 0.
Proof. reflexivity. Qed.

Lemma rnd_nonneg W : 0 ≤ W → 0 ≤ rnd W.
Proof.
  intros H. unfold rnd. pose proof (grid_nonneg W).
  pose proof (rne_nonneg W (grid W) ltac:(done) H). pose proof (pow2_pos (grid W)). nia.
Qed.

(** Rounding to 53 bits is monotone: on a common grid as [rne] is, and
    across grids because a power of two lies between the two values. *)
Lemma rnd_mono W1 W2 : 0 ≤ W1 → W1 ≤ W2 → rnd W1 ≤ rnd W2.
Proof.
  intros H1 H12. destruct (Z.eq_dec W1 0) as [->|Hnz].
  { rewrite rnd_0. apply rnd_nonneg. lia. }
  assert (0 < W1) as Hp1 by lia. assert (0 < W2) as Hp2 by lia.
  pose proof (grid_mono W1 W2 Hp1 H12) as Hg.
  pose proof (grid_nonneg W1) as Hg1.
  destruct (Z.eq_dec (grid W1) (grid W2)) as [Heq|Hne].
  - unfold rnd. rewrite Heq. pose proof (pow2_pos (grid W2) ltac:(lia)).
    pose proof (rne_mono_same W1 W2 (grid W2) ltac:(lia) H12). nia.
  - assert (grid W1 < grid W2) as Hlt by lia.
    assert (grid W2 = Zdigits2 W2 - 53) as Hg2 by (unfold grid in *; lia).
    assert (Zdigits2 W1 < Zdigits2 W2) as Hd by (unfold grid in *; lia).
    pose proof (Zdigits2_spec W1 Hp1) as [_ Hu].
    pose proof (Zdigits2_spec W2 Hp2) as [Hl _].
    pose proof (Zdigits2_pos W1 Hp1).
    (* a common bound [2^b], a multiple of both grids *)
    set (b := Zdigits2 W2 - 1).
    assert (grid W1 ≤ b ∧ grid W2 ≤ b) as [Hb1 Hb2] by (unfold grid in *; lia).
    assert (W1 ≤ 2 ^ b) as HW1.
    { assert (2 ^ Zdigits2 W1 ≤ 2 ^ b) by (apply Z.pow_le_mono_r; lia). lia. }
    fold b in Hl.
    transitivity (2 ^ b).
    + unfold rnd. rewrite (pow2_split (grid W1) b) in * by lia.
      pose proof (pow2_pos (grid W1) Hg1).
      pose proof (rne_le_multiple W1 (2 ^ (b - grid W1)) (grid W1) Hg1 HW1). nia.
    + unfold rnd. rewrite (pow2_split (grid W2) b) in * by lia.
      pose proof (pow2_pos (grid W2) ltac:(lia)).
      pose proof (rne_ge_multiple W2 (2 ^ (b - grid W2)) (grid W2) ltac:(lia) Hl). nia.
Qed.


Lemma fexp_eq x : fexp prec emax x = Z.max (x - 53) (-1074).
Proof. reflexivity. Qed.

Lemma shr_exact M e k : 0 ≤ M →
  shr {| shr_m := M; shr_r := false; shr_s := false |} e k
  = (shr_state M (Z.to_nat (Z.max k 0)), e + Z.max k 0).
Proof.
  intros HM. unfold shr. destruct k as [|p|p].
  - simpl. unfold shr_state. simpl. by rewrite Z.div_1_r, Z.add_0_r.
  - rewrite iter_pos_nat, iter_shr_1 by done.
    replace (Z.max (Z.pos p) 0) with (Z.pos p) by lia. by rewrite Z2Nat.inj_pos.
  - simpl. unfold shr_state. simpl. by rewrite Z.div_1_r, Z.add_0_r.
Qed.

(** [binary_round_aux] on an exact mantissa, step by step. *)
Lemma binary_round_aux_eq s M E : 0 ≤ M →
  binary_round_aux prec emax s M E loc_Exact =
  let k := Z.max (fexp prec emax (Zdigits2 M + E) - E) 0 in
  let N := rne M k in
  let e1 := E + k in
  let k2 := Z.max (fexp prec emax (Zdigits2 N + e1) - e1) 0 in
  match N / 2 ^ k2 with
  | 0 => S754_zero s
  | Z.pos m => if e1 + k2 <=? 971 then S754_finite s m (e1 + k2) else S754_infinity s
  | Z.neg _ => S754_nan
  end.
Proof.
  intros HM. unfold binary_round_aux, shr_fexp.
  change (shr_record_of_loc M loc_Exact)
    with {| shr_m := M; shr_r := false; shr_s := false |}.
  rewrite shr_exact by done.
  rewrite round_shr_state by done. rewrite Z2Nat.id by lia.
  cbv zeta.
  set (k := Z.max (fexp prec emax (Zdigits2 M + E) - E) 0).
  assert (0 ≤ rne M k) as HN by (apply rne_nonneg; lia).
  change (shr_record_of_loc (rne M k) loc_Exact)
    with {| shr_m := rne M k; shr_r := false; shr_s := false |}.
  rewrite shr_exact by done.
  cbn [shr_m shr_state]. rewrite Z2Nat.id by lia. done.
Qed.

Lemma rne_0 M : rne M 0 = M.
Proof. rewrite <- (rne_exact M 0) at 2 by done. f_equal. lia. Qed.

Lemma pow2_le a b : a ≤ b → 2 ^ a ≤ 2 ^ b.
Proof. intros. apply Z.pow_le_mono_r; lia. Qed.

(** The result of [binary_round_aux] on the exact value [M * 2^E], by
    value: a zero, a finite float of value [rnd], or an infinity when [rnd]
    is [2^1024] or more.  The mantissa has 53 bits or more unless the
    exponent is in range, as it is for products and aligned sums. *)
Lemma binary_round_aux_spec s M E :
  0 < M → -2148 ≤ E → 53 ≤ Zdigits2 M ∨ E ≤ 971 →
  match binary_round_aux prec emax s M E loc_Exact with
  | S754_zero s' => s' = s ∧ rnd (M * 2 ^ (E + 2148)) = 0
  | S754_finite s' m e =>
      s' = s ∧ -1074 ≤ e ∧ Z.pos m * 2 ^ (e + 2148) = rnd (M * 2 ^ (E + 2148))
  | S754_infinity s' => s' = s ∧ 2 ^ 3172 ≤ rnd (M * 2 ^ (E + 2148))
  | S754_nan => False
  end.
Proof.
  intros HM HE HH. rewrite binary_round_aux_eq by lia. cbv zeta.
  rewrite !fexp_eq.
  pose proof (Zdigits2_spec M HM) as [Hd1 Hd2]. pose proof (Zdigits2_pos M HM) as Hd0.
  set (d := Zdigits2 M) in *.
  set (fe := Z.max (d + E - 53) (-1074)).
  set (k := Z.max (fe - E) 0).
  set (N := rne M k). set (e1 := E + k).
  set (W := M * 2 ^ (E + 2148)).
  assert (0 ≤ k) as Hk by lia.
  assert (-1074 ≤ e1) as He1 by lia.
  pose proof (pow2_pos k Hk) as HPk.
  assert (rnd W = N * 2 ^ (e1 + 2148)) as F2.
  { unfold rnd. assert (grid W = fe + 2148) as ->.
    { unfold grid, W. rewrite Zdigits2_mul_pow2 by lia. fold d. lia. }
    destruct (Z.le_gt_cases E fe) as [Hc|Hc].
    - replace (fe + 2148) with (k + (E + 2148)) by lia.
      unfold W. rewrite rne_scale by lia. fold N. f_equal. f_equal. lia.
    - assert (k = 0) as Hk0 by lia. unfold N, e1. rewrite Hk0, rne_0, Z.add_0_r.
      unfold W. rewrite (pow2_split (fe + 2148) (E + 2148)) by lia.
      rewrite Z.mul_assoc, rne_exact by lia. done. }
  assert (0 ≤ N ≤ 2 ^ 53) as F3.
  { split; [apply rne_nonneg; lia|].
    pose proof (rne_bounds M k Hk) as [_ Hb]. fold N in Hb.
    assert (M / 2 ^ k < 2 ^ 53); [|lia].
    apply Z.div_lt_upper_bound; [done|]. rewrite <- Z.pow_add_r by lia.
    pose proof (pow2_le d (k + 53) ltac:(lia)). lia. }
  assert (972 ≤ e1 → 2 ^ 52 ≤ N) as F4.
  { intros He. assert (53 ≤ d) as Hd by lia.
    assert (k = d - 53) as Hkd by lia.
    pose proof (rne_bounds M k Hk) as [Hb _]. fold N in Hb.
    assert (2 ^ 52 ≤ M / 2 ^ k); [|lia].
    apply Z.div_le_lower_bound; [done|]. rewrite <- Z.pow_add_r by lia.
    replace (k + 52) with (d - 1) by lia. done. }
  set (k2 := Z.max (Z.max (Zdigits2 N + e1 - 53) (-1074) - e1) 0).
  assert ((k2 = 0) ∨ (k2 = 1 ∧ N = 2 ^ 53)) as F5.
  { destruct (Z.eq_dec N 0) as [->|Hnz]; [left; simpl Zdigits2 in *; lia|].
    destruct (Z.eq_dec N (2 ^ 53)) as [HN|HN].
    - right. split; [|done]. unfold k2. rewrite HN.
      change (Zdigits2 (2 ^ 53)) with 54. lia.
    - left. assert (Zdigits2 N ≤ 53) by (apply Zdigits2_le; lia). lia. }
  destruct F5 as [Hk2|[Hk2 HN]]; rewrite Hk2.
  - rewrite Z.pow_0_r, Z.div_1_r, Z.add_0_r. rewrite F2.
    destruct N as [|m|m] eqn:EN; [split; [done|lia]| |lia].
    destruct (Z.leb_spec e1 971) as [Hle|Hgt].
    + done.
    + split; [done|]. specialize (F4 ltac:(lia)).
      pose proof (pow2_le 3120 (e1 + 2148) ltac:(lia)).
      change (2 ^ 3172) with (2 ^ 52 * 2 ^ 3120).
      apply Z.mul_le_mono_nonneg; lia.
  - rewrite F2, HN. change (2 ^ 53 / 2 ^ 1) with (Z.pos (Z.to_pos (2 ^ 52))).
    destruct (Z.leb_spec (e1 + 1) 971) as [Hle|Hgt].
    + split; [done|]. split; [lia|].
      replace (e1 + 1 + 2148) with (1 + (e1 + 2148)) by lia.
      rewrite (Z.pow_add_r 2 1) by lia.
      change (Z.pos (Z.to_pos (2 ^ 52))) with (2 ^ 52).
      change (2 ^ 53) with (2 ^ 52 * 2 ^ 1). lia.
    + split; [done|].
      pose proof (pow2_le 3119 (e1 + 2148) ltac:(lia)).
      change (2 ^ 3172) with (2 ^ 53 * 2 ^ 3119).
      apply Z.mul_le_mono_nonneg; lia.
Qed.


(** A float64 has an exponent from -1074 to 971 and a mantissa below
    [2^53], of 53 bits unless the exponent is -1074. *)
Lemma valid_finite_bounds s m e :
  valid_binary (S754_finite s m e) = true →
  -1074 ≤ e ≤ 971 ∧ Z.pos m < 2 ^ 53 ∧ (-1074 < e → 2 ^ 52 ≤ Z.pos m).
Proof.
  unfold SpecFloat.valid_binary, bounded, canonical_mantissa.
  rewrite fexp_eq. intros [H1 H2]%andb_prop.
  apply Z.eqb_eq in H1. apply Z.leb_le in H2. change (emax - prec) with 971 in H2.
  pose proof (digits2_pos_spec m) as [Hl Hu].
  split; [lia|]. split.
  - pose proof (pow2_le (Z.pos (digits2_pos m)) 53 ltac:(lia)). lia.
  - intros He. replace (Z.pos (digits2_pos m)) with 53 in Hl by lia. done.
Qed.

Lemma ord_finite_pos s m e :
  valid_binary (S754_finite s m e) = true → 0 < Z.pos m * 2 ^ (e + 1074) < 2 ^ 2098.
Proof.
  intros (He & Hm & _)%valid_finite_bounds.
  pose proof (pow2_pos (e + 1074) ltac:(lia)).
  pose proof (pow2_le (e + 1074) 2045 ltac:(lia)).
  split; [lia|]. change (2 ^ 2098) with (2 ^ 53 * 2 ^ 2045).
  apply Z.lt_le_trans with (2 ^ 53 * 2 ^ (e + 1074)).
  - apply Z.mul_lt_mono_pos_r; lia.
  - apply Z.mul_le_mono_nonneg_l; lia.
Qed.

Lemma ord_finite_lt s1 m1 e1 s2 m2 e2 :
  valid_binary (S754_finite s1 m1 e1) = true →
  valid_binary (S754_finite s2 m2 e2) = true → e1 < e2 →
  Z.pos m1 * 2 ^ (e1 + 1074) < Z.pos m2 * 2 ^ (e2 + 1074).
Proof.
  intros (He1 & Hm1 & _)%valid_finite_bounds (He2 & _ & Hm2)%valid_finite_bounds Hlt.
  specialize (Hm2 ltac:(lia)).
  pose proof (pow2_pos (e1 + 1074) ltac:(lia)).
  pose proof (pow2_le (1 + (e1 + 1074)) (e2 + 1074) ltac:(lia)) as Hp.
  rewrite Z.pow_add_r in Hp by lia. change (2 ^ 1) with 2 in Hp.
  change (2 ^ 53) with (2 ^ 52 * 2) in Hm1.
  nia.
Qed.

Lemma compare_mul_r n m p : 0 < p → (n * p ?= m * p) = (n ?= m).
Proof.
  intros Hp. destruct (Z.compare_spec n m);
    [apply Z.compare_eq_iff|apply Z.compare_lt_iff|apply Z.compare_gt_iff]; nia.
Qed.

(** Comparison of float64s is comparison of their values. *)
Lemma SFcompare_ord f1 f2 :
  valid_binary f1 = true → valid_binary f2 = true →
  f1 ≠ S754_nan → f2 ≠ S754_nan →
  SFcompare f1 f2 = Some (SFord f1 ?= SFord f2).
Proof.
  intros V1 V2 N1 N2.
  destruct f1 as [s1|s1| |s1 m1 e1], f2 as [s2|s2| |s2 m2 e2]; try done;
    try pose proof (ord_finite_pos _ _ _ V1) as P1;
    try pose proof (ord_finite_pos _ _ _ V2) as P2;
    unfold SFcompare, SFord, cond_Zopp.
  all: try solve [ try destruct s1; try destruct s2; f_equal; symmetry;
    first [apply Z.compare_eq_iff; lia|apply Z.compare_lt_iff; lia
          |apply Z.compare_gt_iff; lia] ].
  f_equal. destruct s1, s2.
  - destruct (Z.compare_spec e1 e2) as [->|Hlt|Hgt].
    + rewrite Z.compare_opp, compare_mul_r by lia.
        change (PosDef.Pos.compare_cont Eq m1 m2) with (Z.pos m1 ?= Z.pos m2).
        by rewrite <- Z.compare_antisym.
    + pose proof (ord_finite_lt _ _ _ _ _ _ V1 V2 Hlt). symmetry.
      apply Z.compare_gt_iff. lia.
    + pose proof (ord_finite_lt _ _ _ _ _ _ V2 V1 Hgt). symmetry.
      apply Z.compare_lt_iff. lia.
  - symmetry. apply Z.compare_lt_iff. lia.
  - symmetry. apply Z.compare_gt_iff. lia.
  - destruct (Z.compare_spec e1 e2) as [->|Hlt|Hgt].
    + rewrite compare_mul_r by lia. done.
    + pose proof (ord_finite_lt _ _ _ _ _ _ V1 V2 Hlt). symmetry. by apply Z.compare_lt_iff.
    + pose proof (ord_finite_lt _ _ _ _ _ _ V2 V1 Hgt). symmetry.
      apply Z.compare_gt_iff. lia.
Qed.


Lemma rnd_signed_mono W1 W2 : W1 ≤ W2 → rnd_signed W1 ≤ rnd_signed W2.
Proof.
  intros H. unfold rnd_signed.
  destruct (Z.ltb_spec W1 0), (Z.ltb_spec W2 0); try lia.
  - pose proof (rnd_mono (- W2) (- W1) ltac:(lia) ltac:(lia)). lia.
  - pose proof (rnd_nonneg (- W1) ltac:(lia)). pose proof (rnd_nonneg W2 ltac:(lia)). lia.
  - pose proof (rnd_mono W1 W2 ltac:(lia) ltac:(lia)). lia.
Qed.

Lemma rnd_signed_cond s W :
  0 ≤ W → rnd_signed (cond_Zopp s W) = cond_Zopp s (Z.min (rnd W) (2 ^ 3172)).
Proof.
  intros HW. unfold rnd_signed. destruct s; simpl.
  - destruct (Z.ltb_spec (- W) 0); [by rewrite Z.opp_involutive|].
    replace W with 0 by lia. done.
  - destruct (Z.ltb_spec W 0); [lia|]. done.
Qed.

(** The value of a rounded result, when it is a float64. *)
Lemma binary_round_aux_ord s M E :
  0 < M → -2148 ≤ E → 53 ≤ Zdigits2 M ∨ E ≤ 971 →
  valid_binary (binary_round_aux prec emax s M E loc_Exact) = true →
  SFord (binary_round_aux prec emax s M E loc_Exact) * 2 ^ 1074
  = rnd_signed (cond_Zopp s (M * 2 ^ (E + 2148))).
Proof.
  intros HM HE HH Vr.
  pose proof (binary_round_aux_spec s M E HM HE HH) as Hs.
  set (W := M * 2 ^ (E + 2148)) in *.
  assert (0 < W) as HW by (pose proof (pow2_pos (E + 2148) ltac:(lia)); unfold W; nia).
  rewrite rnd_signed_cond by lia.
  destruct (binary_round_aux prec emax s M E loc_Exact) as [s'|s'| |s' m e]; [| | done |].
  - destruct Hs as [-> Hs]. rewrite Hs. cbn [SFord]. by destruct s.
  - destruct Hs as [-> Hs]. cbn [SFord].
    replace (Z.min (rnd W) (2 ^ 3172)) with (2 ^ 3172) by lia.
    change (2 ^ 3172) with (2 ^ 2098 * 2 ^ 1074). destruct s; simpl cond_Zopp; lia.
  - destruct Hs as (-> & He & Hs). cbn [SFord].
    pose proof (ord_finite_pos _ _ _ Vr) as [_ Pr].
    assert (Z.pos m * 2 ^ (e + 1074) * 2 ^ 1074 = rnd W) as Hv.
    { rewrite <- Hs. replace (e + 2148) with ((e + 1074) + 1074) by lia.
      rewrite (Z.pow_add_r 2 (e + 1074) 1074) by lia. ring. }
    assert (rnd W < 2 ^ 3172) as Hlt.
    { rewrite <- Hv. change (2 ^ 3172) with (2 ^ 2098 * 2 ^ 1074).
      apply Z.mul_lt_mono_pos_r; [done|lia]. }
    replace (Z.min (rnd W) (2 ^ 3172)) with (rnd W) by lia.
    destruct s; simpl cond_Zopp; lia.
Qed.

Lemma cond_Zopp_mul s1 s2 a b :
  cond_Zopp s1 a * cond_Zopp s2 b = cond_Zopp (xorb s1 s2) (a * b).
Proof. destruct s1, s2; simpl; lia. Qed.

(** The value of a rounded product. *)
Lemma SFmul_ord x y :
  valid_binary x = true → valid_binary y = true →
  valid_binary (SFmul prec emax x y) = true →
  SFfinite x → SFfinite y →
  SFord (SFmul prec emax x y) * 2 ^ 1074 = rnd_signed (SFord x * SFord y).
Proof.
  intros Vx Vy Vr Fx Fy.
  destruct x as [sx| | |sx mx ex], y as [sy| | |sy my ey]; try done;
    try (simpl; rewrite ?Z.mul_0_r; done).
  pose proof (valid_finite_bounds _ _ _ Vx) as (Hex & Hmx & Hnx).
  pose proof (valid_finite_bounds _ _ _ Vy) as (Hey & Hmy & Hny).
  cbn [SFmul] in *. rewrite binary_round_aux_ord; [|lia|lia| |done].
  - cbn [SFord]. rewrite cond_Zopp_mul. f_equal. f_equal.
    replace (ex + ey + 2148) with ((ex + 1074) + (ey + 1074)) by lia.
    rewrite Z.pow_add_r, Pos2Z.inj_mul by lia. ring.
  - destruct (Z.eq_dec ex (-1074)); [right; lia|].
    destruct (Z.eq_dec ey (-1074)); [right; lia|].
    left. specialize (Hnx ltac:(lia)). specialize (Hny ltac:(lia)).
    transitivity 105; [lia|]. apply Zdigits2_ge; [lia|].
    rewrite Pos2Z.inj_mul. change (2 ^ (105 - 1)) with (2 ^ 52 * 2 ^ 52).
    apply Z.mul_le_mono_nonneg; lia.
Qed.


Lemma SFnonneg_ord f : SFnonneg f → 0 ≤ SFord f.
Proof.
  destruct f as [s|s| |s m e]; simpl; try done; intros ->; simpl; lia.
Qed.

(** Rounding keeps the sign it is given. *)
Lemma binary_round_aux_sign s m e l :
  0 ≤ m →
  match binary_round_aux prec emax s m e l with
  | S754_zero s' | S754_infinity s' | S754_finite s' _ _ => s' = s
  | S754_nan => False
  end.
Proof.
  intros H. unfold binary_round_aux.
  pose proof (shr_fexp_nonneg m e l H) as H1.
  destruct (shr_fexp prec emax m e l) as [mrs' e'].
  pose proof (shr_fexp_nonneg _ e' loc_Exact
                (round_nearest_even_nonneg _ (loc_of_shr_record mrs') H1)) as H2.
  destruct (shr_fexp prec emax _ e' loc_Exact) as [mrs'' e'']. simpl in H2.
  destruct (shr_m mrs''); [done| |lia]. by destruct (_ <=? _)%Z.
Qed.

Lemma binary_normalize_nonneg z e :
  0 ≤ z → SFnonneg (binary_normalize prec emax z e false).
Proof.
  intros Hz. destruct z as [|m|m]; [done| |lia]. simpl. unfold binary_round.
  destruct (shl_align _ _ _) as [mz ez].
  pose proof (binary_round_aux_sign false (Z.pos mz) ez loc_Exact ltac:(lia)) as Hs.
  by destruct (binary_round_aux _ _ _ _ _ _).
Qed.

(** The mantissas of a sum, aligned on the smaller exponent. *)
Lemma shl_align_val m e ez :
  ez ≤ e → Z.pos (shl_align m e ez).1 = Z.pos m * 2 ^ (e - ez).
Proof.
  intros H. unfold shl_align. destruct (ez - e) as [|d|d] eqn:E; try lia.
  - replace (e - ez) with 0 by lia. simpl. lia.
  - simpl. replace (e - ez) with (Z.pos d) by lia.
    change (Pos.iter xO m d) with (shift_pos d m).
    rewrite shift_pos_correct, Zpower_pos_nat, Zpower_nat_Z, positive_nat_Z. lia.
Qed.

Lemma aligned_sum sx mx ex sy my ey :
  -1074 ≤ ex → -1074 ≤ ey →
  let ez := Z.min ex ey in
  (cond_Zopp sx (Z.pos (shl_align mx ex ez).1)
   + cond_Zopp sy (Z.pos (shl_align my ey ez).1))
  * 2 ^ (ez + 1074)
  = SFord (S754_finite sx mx ex) + SFord (S754_finite sy my ey).
Proof.
  intros Hx Hy ez. rewrite !shl_align_val by lia. cbn [SFord].
  rewrite (pow2_split (ez + 1074) (ex + 1074)), (pow2_split (ez + 1074) (ey + 1074)) by lia.
  replace (ex + 1074 - (ez + 1074)) with (ex - ez) by lia.
  replace (ey + 1074 - (ez + 1074)) with (ey - ez) by lia.
  destruct sx, sy; simpl; ring.
Qed.

(** A sum or difference of float64s has the sign of the exact one. *)
Lemma SFadd_nonneg sx mx ex sy my ey :
  valid_binary (S754_finite sx mx ex) = true →
  valid_binary (S754_finite sy my ey) = true →
  0 ≤ SFord (S754_finite sx mx ex) + SFord (S754_finite sy my ey) →
  SFnonneg (SFadd prec emax (S754_finite sx mx ex) (S754_finite sy my ey)).
Proof.
  intros (Hx & _)%valid_finite_bounds (Hy & _)%valid_finite_bounds H.
  cbn [SFadd]. apply binary_normalize_nonneg.
  rewrite <- aligned_sum in H by lia.
  pose proof (pow2_pos (Z.min ex ey + 1074) ltac:(lia)). nia.
Qed.

Lemma SFsub_nonneg sx mx ex sy my ey :
  valid_binary (S754_finite sx mx ex) = true →
  valid_binary (S754_finite sy my ey) = true →
  SFord (S754_finite sy my ey) ≤ SFord (S754_finite sx mx ex) →
  SFnonneg (SFsub prec emax (S754_finite sx mx ex) (S754_finite sy my ey)).
Proof.
  intros (Hx & _)%valid_finite_bounds (Hy & _)%valid_finite_bounds H.
  cbn [SFsub]. apply binary_normalize_nonneg.
  assert (0 ≤ SFord (S754_finite sx mx ex) + SFord (S754_finite (negb sy) my ey)) as H'.
  { cbn [SFord] in *. destruct sy; simpl in *; lia. }
  rewrite <- aligned_sum in H' by lia.
  pose proof (pow2_pos (Z.min ex ey + 1074) ltac:(lia)).
  destruct sy; simpl in *; nia.
Qed.


Lemma binary_round_ord s m e :
  -1074 ≤ e ≤ 971 →
  valid_binary (binary_round prec emax s m e) = true →
  SFord (binary_round prec emax s m e) * 2 ^ 1074
  = rnd_signed (cond_Zopp s (Z.pos m * 2 ^ (e + 2148))).
Proof.
  intros He. unfold binary_round.
  pose proof (shl_align_val m e (Z.min e (fexp prec emax (Z.pos (digits2_pos m) + e)))
    ltac:(lia)) as Hv.
  assert ((shl_align m e (fexp prec emax (Z.pos (digits2_pos m) + e))).2
          = Z.min e (fexp prec emax (Z.pos (digits2_pos m) + e))
          ∧ (shl_align m e (fexp prec emax (Z.pos (digits2_pos m) + e))).1
            = (shl_align m e (Z.min e (fexp prec emax (Z.pos (digits2_pos m) + e)))).1)
    as [H2 H1].
  { unfold shl_align. rewrite fexp_eq.
    set (t := Z.max (Z.pos (digits2_pos m) + e - 53) (-1074)).
    destruct (t - e) as [|d|d] eqn:E1; destruct (Z.min e t - e) as [|d'|d'] eqn:E2;
      simpl; try lia; split; try lia; try done.
    assert (d = d') as -> by lia. done. }
  rewrite <- H1 in Hv.
  destruct (shl_align m e _) as [mz ez]. simpl in H1, H2, Hv. rewrite fexp_eq in H2.
  intros Vr. rewrite binary_round_aux_ord; [|lia|lia|lia|done].
  f_equal. f_equal. rewrite Hv, H2, fexp_eq.
  set (ez' := Z.min e _). rewrite (pow2_split (ez' + 2148) (e + 2148)) by lia.
  replace (e + 2148 - (ez' + 2148)) with (e - ez') by lia. ring.
Qed.

(** A float64 rounds to itself. *)
Lemma rnd_signed_id s m e :
  valid_binary (S754_finite s m e) = true →
  rnd_signed (SFord (S754_finite s m e) * 2 ^ 1074) = SFord (S754_finite s m e) * 2 ^ 1074.
Proof.
  intros V. pose proof (ord_finite_pos _ _ _ V) as [P1 P2].
  pose proof V as (He & Hm & Hn)%valid_finite_bounds.
  cbn [SFord]. set (W := Z.pos m * 2 ^ (e + 1074)) in *.
  replace (cond_Zopp s W * 2 ^ 1074) with (cond_Zopp s (W * 2 ^ 1074))
    by (by destruct s; simpl; lia).
  rewrite rnd_signed_cond by lia. f_equal.
  assert (W * 2 ^ 1074 = Z.pos m * 2 ^ (e + 2148)) as EW.
  { unfold W. replace (e + 2148) with ((e + 1074) + 1074) by lia.
    rewrite (Z.pow_add_r 2 (e + 1074) 1074) by lia. ring. }
  assert (rnd (W * 2 ^ 1074) = W * 2 ^ 1074) as ->.
  { rewrite EW. unfold rnd.
    assert (grid (Z.pos m * 2 ^ (e + 2148)) = e + 2148) as ->.
    { unfold grid. rewrite Zdigits2_mul_pow2 by lia.
      unfold SpecFloat.valid_binary, bounded, canonical_mantissa in V.
      apply andb_prop in V as [V%Z.eqb_eq _]. rewrite fexp_eq in V. simpl Zdigits2. lia. }
    by rewrite rne_exact by lia. }
  change (2 ^ 3172) with (2 ^ 2098 * 2 ^ 1074). nia.
Qed.

Lemma rnd_signed_0 : rnd_signed 0 = 0.
Proof. reflexivity. Qed.

(** The value of a rounded sum. *)
Lemma SFadd_ord x y :
  valid_binary x = true → valid_binary y = true →
  valid_binary (SFadd prec emax x y) = true →
  SFfinite x → SFfinite y →
  SFord (SFadd prec emax x y) * 2 ^ 1074 = rnd_signed ((SFord x + SFord y) * 2 ^ 1074).
Proof.
  intros Vx Vy Vr Fx Fy.
  destruct x as [sx| | |sx mx ex], y as [sy| | |sy my ey]; try done.
  - by destruct sx, sy.
  - cbn [SFadd]. rewrite Z.add_0_l. by rewrite rnd_signed_id.
  - cbn [SFadd]. rewrite Z.add_0_r. by rewrite rnd_signed_id.
  - pose proof (valid_finite_bounds _ _ _ Vx) as (Hex & _).
    pose proof (valid_finite_bounds _ _ _ Vy) as (Hey & _).
    rewrite <- aligned_sum by lia. cbn [SFadd] in *. cbv zeta.
    set (z := cond_Zopp sx _ + cond_Zopp sy _) in *.
    set (ez := Z.min ex ey) in *.
    assert (∀ s m, cond_Zopp s (Z.pos m * 2 ^ (ez + 2148))
                   = cond_Zopp s (Z.pos m) * 2 ^ (ez + 1074) * 2 ^ 1074) as Hc.
    { intros s m. replace (ez + 2148) with ((ez + 1074) + 1074) by lia.
      rewrite (Z.pow_add_r 2 (ez + 1074) 1074) by lia. destruct s; simpl; ring. }
    destruct z as [|m|m]; cbn [binary_normalize] in *.
    + done.
    + rewrite binary_round_ord by (done || lia). by rewrite Hc.
    + rewrite binary_round_ord by (done || lia). by rewrite Hc.
Qed.

(** The same facts on primitive floats, whose images in [SpecFloat] are
    float64s by [Prim2SF_valid]. *)
Lemma not_nan_SF (x : float) : is_nan x = false → Prim2SF x ≠ S754_nan.
Proof.
  unfold is_nan. rewrite FloatAxioms.eqb_spec. intros H E. by rewrite E in H.
Qed.

Lemma compare_ord (x y : float) :
  is_nan x = false → is_nan y = false →
  SFcompare (Prim2SF x) (Prim2SF y) = Some (ford x ?= ford y).
Proof.
  intros Hx Hy. apply SFcompare_ord; auto using Prim2SF_valid, not_nan_SF.
Qed.

Lemma ltb_ord (x y : float) :
  is_nan x = false → is_nan y = false → (x <? y)%float = (ford x <? ford y).
Proof.
  intros Hx Hy. rewrite ltb_spec. unfold SFltb. by rewrite compare_ord.
Qed.

Lemma eqb_ord (x y : float) :
  is_nan x = false → is_nan y = false → (x =? y)%float = (ford x =? ford y).
Proof.
  intros Hx Hy. rewrite FloatAxioms.eqb_spec, Z.eqb_compare. unfold SFeqb.
  by rewrite compare_ord.
Qed.

Lemma finite_SF (x : float) : is_finite x = true → SFfinite (Prim2SF x).
Proof. by intros [[s ->]|(s & m & e & ->)]%is_finite_SF. Qed.

Lemma is_finite_alt (x : float) :
  is_nan x = false → is_infinity x = false → is_finite x = true.
Proof. unfold is_finite. by intros -> ->. Qed.

Lemma SFfinite_is_finite (x : float) : SFfinite (Prim2SF x) → is_finite x = true.
Proof.
  intros H. unfold is_finite, is_nan, is_infinity.
  rewrite !FloatAxioms.eqb_spec, abs_spec.
  change (Prim2SF infinity) with (S754_infinity false).
  destruct (Prim2SF x) as [s|[]| |s m e]; try done.
  by rewrite SFeqb_refl.
Qed.

Lemma SFmul_finite x y :
  SFfinite x → SFfinite y → SFmul prec emax x y ≠ S754_nan.
Proof.
  destruct x as [sx| | |sx mx ex], y as [sy| | |sy my ey]; try done. intros _ _.
  cbn [SFmul]. pose proof (binary_round_aux_sign (xorb sx sy) (Z.pos (mx * my)) (ex + ey)
    loc_Exact ltac:(lia)) as H. intros E. by rewrite E in H.
Qed.

Lemma mul_not_nan (x s : float) :
  is_finite x = true → is_finite s = true → is_nan (x * s) = false.
Proof.
  intros Hx Hs. apply is_nan_SF. rewrite mul_spec. by apply SFmul_finite; apply finite_SF.
Qed.

(** Rounded multiplication by a non-negative factor is monotone. *)
Lemma mul_mono (m x s : float) :
  is_finite m = true → is_finite x = true → is_finite s = true →
  0 ≤ ford s → ford m ≤ ford x → ford (m * s) ≤ ford (x * s).
Proof.
  intros Hm Hx Hs H0 Hle.
  assert (∀ a : float, is_finite a = true →
            ford (a * s) * 2 ^ 1074 = rnd_signed (ford a * ford s)) as Hmul.
  { intros a Ha. unfold ford. pose proof (Prim2SF_valid (a * s)) as Hv.
    rewrite mul_spec in *. apply SFmul_ord; auto using Prim2SF_valid, finite_SF. }
  pose proof (rnd_signed_mono (ford m * ford s) (ford x * ford s) ltac:(nia)) as Hr.
  rewrite <- !Hmul in Hr by done. lia.
Qed.

(** [a + (0 - b)] has its sign bit clear when [b <= a]. *)
Lemma add_neg_nonneg (a b : float) :
  is_nan a = false → is_finite b = true → ford b ≤ ford a →
  SFnonneg (Prim2SF (a + (0 - b))).
Proof.
  intros Ha Hb Hle. rewrite add_spec, sub_spec. unfold ford in Hle.
  change (Prim2SF 0) with (S754_zero false).
  pose proof (Prim2SF_valid a) as Va. pose proof (Prim2SF_valid b) as Vb.
  apply not_nan_SF in Ha. apply finite_SF in Hb.
  destruct (Prim2SF b) as [sb| | |sb mb eb]; try done;
    destruct (Prim2SF a) as [sa|sa| |sa ma ea]; try done;
    try pose proof (ord_finite_pos _ _ _ Va) as Pa;
    try pose proof (ord_finite_pos _ _ _ Vb) as Pb.
  - by destruct sb, sa.
  - destruct sb; simpl in *; destruct sa; simpl in *; try done; lia.
  - destruct sb; simpl in *; destruct sa; simpl in *; try done; lia.
  - destruct sb; simpl in *; try done; lia.
  - destruct sb; simpl in *; destruct sa; simpl in *; try done; lia.
  - cbn [SF64sub SFsub]. apply SFadd_nonneg; [done|done|].
    cbn [SFord] in *. destruct sb; simpl in *; lia.
Qed.

(** [a - b] is a number [>= 0] when [b <= a], both finite. *)
Lemma sub_nonneg (a b : float) :
  is_finite a = true → is_finite b = true → ford b ≤ ford a →
  is_nan (a - b) = false ∧ 0 ≤ ford (a - b).
Proof.
  intros Ha Hb Hle.
  assert (Prim2SF (a - b) ≠ S754_nan ∧ 0 ≤ ford (a - b)) as [H1 H2];
    [|split; [by apply is_nan_SF|done]].
  unfold ford in *. rewrite sub_spec.
  pose proof (Prim2SF_valid a) as Va. pose proof (Prim2SF_valid b) as Vb.
  apply finite_SF in Ha, Hb.
  destruct (Prim2SF b) as [sb| | |sb mb eb]; try done;
    destruct (Prim2SF a) as [sa| | |sa ma ea]; try done.
  - by destruct sb, sa.
  - split; [done|]. cbn [SF64sub SFsub SFord] in *. destruct sb; simpl in *; lia.
  - pose proof (SFsub_nonneg _ _ _ _ _ _ Va Vb Hle) as Hn.
    split; [|by apply SFnonneg_ord]. intros E. unfold SF64sub in E. by rewrite E in Hn.
Qed.

(** [1 / r] has its sign bit clear for a number [r > 0]. *)
Lemma div_one_nonneg (r : float) :
  is_nan r = false → 0 < ford r → SFnonneg (Prim2SF (1 / r)).
Proof.
  intros Hr Hp. rewrite div_spec. unfold ford in Hp. apply not_nan_SF in Hr.
  change (Prim2SF 1) with (S754_finite false 4503599627370496 (-52)).
  destruct (Prim2SF r) as [s|s| |s m e]; try done.
  - destruct s; [simpl in Hp; lia|done].
  - destruct s; [simpl in Hp; lia|].
    cbn [SF64div SFdiv]. unfold SFdiv_core_binary.
    set (m' := match _ - _ - _ with 0 => _ | Z.pos _ => _ | Z.neg _ => _ end).
    assert (0 ≤ m') as Hm'.
    { unfold m'. destruct (_ - _ - _) as [|p|p]; try lia.
      rewrite Z.shiftl_mul_pow2 by lia. pose proof (pow2_pos (Z.pos p)). lia. }
    pose proof (Z_div_mod m' (Z.pos m) ltac:(lia)) as Hdm.
    change IntDef.Z.div_eucl with Z.div_eucl.
    destruct (Z.div_eucl m' (Z.pos m)) as [q rr]. destruct Hdm as [Hq Hrr].
    assert (0 ≤ q) as Hq0 by nia.
    pose proof (binary_round_aux_sign (xorb false false) q
      (Z.min (fexp prec emax (Zdigits2 4503599627370496 + -52 - (Zdigits2 (Z.pos m) + e)))
         (-52 - e)) (new_location (Z.pos m) rr) Hq0) as Hs.
    cbv zeta. by destruct (binary_round_aux _ _ _ _ _ _).
Qed.

Lemma ord_bounds f : valid_binary f = true → - 2 ^ 2098 ≤ SFord f ≤ 2 ^ 2098.
Proof.
  intros V. destruct f as [s|s| |s m e]; cbn [SFord].
  1,3: pose proof (pow2_pos 2098 ltac:(lia)); lia.
  - destruct s; simpl; lia.
  - pose proof (ord_finite_pos _ _ _ V). destruct s; simpl; lia.
Qed.

Lemma SFadd_not_nan x y :
  x ≠ S754_nan → SFfinite y → SFadd prec emax x y ≠ S754_nan.
Proof.
  intros Hx Hy.
  destruct x as [sx|sx| |sx mx ex], y as [sy| | |sy my ey]; try done.
  - by destruct sx, sy.
  - cbn [SFadd]. destruct (_ + _) as [|m|m]; cbn [binary_normalize]; [done| |];
      unfold binary_round; destruct (shl_align _ _ _) as [mz ez]; intros E;
      match type of E with binary_round_aux _ _ ?s _ _ _ = _ =>
        pose proof (binary_round_aux_sign s (Z.pos mz) ez loc_Exact ltac:(lia)) as H end;
      by rewrite E in H.
Qed.

Lemma add_not_nan (a c : float) :
  is_nan a = false → is_finite c = true → is_nan (a + c) = false.
Proof.
  intros Ha Hc. apply is_nan_SF. rewrite add_spec.
  apply SFadd_not_nan; [by apply not_nan_SF|by apply finite_SF].
Qed.

(** Rounded addition of a finite number is monotone. *)
Lemma add_mono (a a' c : float) :
  is_nan a = false → is_nan a' = false → is_finite c = true →
  ford a ≤ ford a' → ford (a + c) ≤ ford (a' + c).
Proof.
  intros Ha Ha' Hc Hle.
  pose proof (ord_bounds _ (Prim2SF_valid (a + c))) as B.
  pose proof (ord_bounds _ (Prim2SF_valid (a' + c))) as B'.
  pose proof (Prim2SF_valid (a + c)) as Vr. pose proof (Prim2SF_valid (a' + c)) as Vr'.
  unfold ford in *. rewrite !add_spec in *. unfold SF64add in *.
  pose proof (Prim2SF_valid a) as Va. pose proof (Prim2SF_valid a') as Va'.
  pose proof (Prim2SF_valid c) as Vc.
  apply not_nan_SF in Ha, Ha'. apply finite_SF in Hc.
  assert (∀ x, valid_binary x = true → SFfinite x →
               - 2 ^ 2098 < SFord x < 2 ^ 2098) as Hfin.
  { intros [s|s| |s m e] V F; try done; cbn [SFord].
    pose proof (ord_finite_pos _ _ _ V). destruct s; simpl; lia. }
  assert (∀ s, SFadd prec emax (S754_infinity s) (Prim2SF c) = S754_infinity s) as Hinf.
  { intros s. by destruct (Prim2SF c). }
  pose proof (pow2_pos 2098 ltac:(lia)) as HT.
  destruct (Prim2SF a) as [sa|sa| |sa ma ea] eqn:Ea; try done;
    destruct (Prim2SF a') as [sa'|sa'| |sa' ma' ea'] eqn:Ea'; try done;
    rewrite ?Hinf in *;
    try (pose proof (Hfin _ Va I) as Ba); try (pose proof (Hfin _ Va' I) as Ba');
    try (destruct sa; cbn [SFord cond_Zopp] in *; lia);
    try (destruct sa'; cbn [SFord cond_Zopp] in *; lia).
  all: pose proof (SFadd_ord _ _ Va Vc Vr I Hc) as E1;
       pose proof (SFadd_ord _ _ Va' Vc Vr' I Hc) as E2;
       match type of E1 with _ = rnd_signed ?w1 =>
         match type of E2 with _ = rnd_signed ?w2 =>
           pose proof (rnd_signed_mono w1 w2 ltac:(lia)) end end; lia.
Qed.

Lemma sub_zero_finite (y : float) : is_finite y = true → is_finite (0 - y) = true.
Proof.
  intros H%finite_SF. apply SFfinite_is_finite. rewrite sub_spec.
  change (Prim2SF 0) with (S754_zero false).
  by destruct (Prim2SF y) as [[]| | |s m e].
Qed.

(** Two sign-clear floats of the same value are the same float. *)
Lemma SFnonneg_inj (a b : float) :
  SFnonneg (Prim2SF a) → SFnonneg (Prim2SF b) → ford a = ford b → a = b.
Proof.
  intros Ha Hb E. apply Prim2SF_inj. unfold ford in E.
  pose proof (Prim2SF_valid a) as Va. pose proof (Prim2SF_valid b) as Vb.
  destruct (Prim2SF a) as [sa|sa| |sa ma ea], (Prim2SF b) as [sb|sb| |sb mb eb];
    simpl in Ha, Hb; try done; subst; cbn [SFord cond_Zopp] in E;
    try pose proof (ord_finite_pos _ _ _ Va) as Pa;
    try pose proof (ord_finite_pos _ _ _ Vb) as Pb;
    try pose proof (pow2_pos 2098 ltac:(lia)); try lia; try done.
  destruct (Z.lt_trichotomy ea eb) as [Hlt|[->|Hgt]].
  - pose proof (ord_finite_lt _ _ _ _ _ _ Va Vb Hlt). lia.
  - f_equal. nia.
  - pose proof (ord_finite_lt _ _ _ _ _ _ Vb Va Hgt). lia.
Qed.

End rounding.

(** *** The exception monads *)

Lemma bind_Ok {A B : Type} (m : result A) (f : A → result B) (b : B) :
  m ≫= f = Ok b ↔ ∃ a, m = Ok a ∧ f a = Ok b.
Proof.
  destruct m as [a|e]; simpl; split.
  - eauto.
  - by intros (a' & [= <-] & ?).
  - done.
  - by intros (a' & [=] & ?).
Qed.

Lemma M_bind_Ok {A B : Type} (m : M A) (f : A → M B) (b : B) (w w' : world rng_state) :
  (m ≫= f) w = (Ok b, w') ↔ ∃ a w1, m w = (Ok a, w1) ∧ f a w1 = (Ok b, w').
Proof.
  unfold mbind, M_bind. destruct (m w) as [[a|e] w1]; split.
  - eauto.
  - by intros (a' & w1' & [= <- <-] & ?).
  - done.
  - by intros (a' & w1' & [=] & ?).
Qed.

Lemma lift_Ok {A : Type} (r : result A) (a : A) (w w' : world rng_state) :
  lift r w = (Ok a, w') ↔ r = Ok a ∧ w' = w.
Proof. unfold lift. split; [by intros [= -> ->] | by intros [-> ->]]. Qed.

Lemma mapM_result_Ok {A B : Type} (f : A → result B) (l : list A) (k : list B) :
  mapM f l = Ok k ↔ Forall2 (λ x y, f x = Ok y) l k.
Proof.
  revert k. induction l as [|x l IH]; intros k; simpl.
  - split; [intros [= <-]; constructor | by inversion 1].
  - rewrite bind_Ok. split.
    + intros (y & Hy & Hk). apply bind_Ok in Hk as (k' & Hk' & [= <-]).
      constructor; [done | by apply IH].
    + inversion 1 as [|? y ? k' Hy Hk']; subst. exists y. split; [done|].
      apply bind_Ok. exists k'. split; [by apply IH | done].
Qed.

(** *** Rows picked by position *)

Lemma take_Ok {A : Type} (positions : list nat) (l r : list A) :
  take_rows positions l = Ok r ↔ Forall2 (λ i x, l !! i = Some x) positions r.
Proof.
  unfold take_rows. rewrite mapM_result_Ok.
  split; intros H; (eapply Forall2_impl; [exact H|]); intros i x; simpl;
    destruct (l !! i); congruence.
Qed.

Lemma take_omap {A : Type} (positions : list nat) (l r : list A) :
  take_rows positions l = Ok r → r = omap (l !!.) positions.
Proof.
  rewrite take_Ok. induction 1 as [|i x ps r Hi _ IH]; simpl; [done|].
  by rewrite Hi, IH.
Qed.

Lemma take_length {A : Type} (positions : list nat) (l r : list A) :
  take_rows positions l = Ok r → length r = length positions.
Proof. rewrite take_Ok. intros H. symmetry. by eapply Forall2_length. Qed.

Lemma omap_lookup_seq_from {A : Type} (l0 l : list A) :
  omap ((l0 ++ l) !!.) (seq (length l0) (length l)) = l.
Proof.
  revert l0. induction l as [|x l IH]; intros l0; simpl; [done|].
  rewrite list_lookup_middle by done. f_equal.
  specialize (IH (l0 ++ [x])). rewrite <- app_assoc, length_app in IH.
  simpl in IH. by rewrite Nat.add_1_r in IH.
Qed.

Lemma omap_lookup_seq {A : Type} (l : list A) :
  omap (l !!.) (seq 0 (length l)) = l.
Proof. apply (omap_lookup_seq_from []). Qed.

Lemma take_lookup {A : Type} (positions : list nat) (l r : list A) (j i : nat) :
  take_rows positions l = Ok r → positions !! j = Some i → r !! j = l !! i ∧ is_Some (l !! i).
Proof.
  rewrite take_Ok. intros H Hj.
  destruct (Forall2_lookup_l _ _ _ _ _ H Hj) as (x & Hx & Hi).
  rewrite Hx, Hi. eauto.
Qed.

Lemma omap_seq_reindex {B : Type} (f g : nat → option B) (positions : list nat) :
  (∀ j i, positions !! j = Some i → f j = g i) →
  omap f (seq 0 (length positions)) = omap g positions.
Proof.
  intros H. apply list_omap_ext, Forall2_same_length_lookup.
  split; [by rewrite length_seq|].
  intros j a i Ha Hi. apply lookup_seq in Ha as [-> _]. by apply H.
Qed.

Lemma iloc_Ok (df d : DataFrame) (positions : list nat) :
  iloc df positions = Ok d ↔
  take_rows positions (index df) = Ok (index d) ∧
  Forall2 (λ p q, q.1 = p.1 ∧ take_rows positions p.2 = Ok q.2) (cols df) (cols d).
Proof.
  unfold iloc. destruct d as [idx cs]; simpl. split.
  - intros H. apply bind_Ok in H as (idx' & Hidx & H).
    apply bind_Ok in H as (cs' & Hcs & [= <- <-]). split; [done|].
    apply mapM_result_Ok in Hcs.
    eapply Forall2_impl; [exact Hcs|]. intros p q Hq; simpl in Hq.
    by apply bind_Ok in Hq as (s & Hs & [= <-]).
  - intros [Hidx Hcs]. apply bind_Ok. exists idx. split; [done|].
    apply bind_Ok. exists cs. split; [|done]. apply mapM_result_Ok.
    eapply Forall2_impl; [exact Hcs|]. intros p [c s]; simpl.
    intros [-> Hs]. apply bind_Ok. eauto.
Qed.

Lemma iloc_nrows (df d : DataFrame) (positions : list nat) :
  iloc df positions = Ok d → nrows d = length positions.
Proof. rewrite iloc_Ok. intros [H _]. by apply take_length in H. Qed.

Lemma iloc_columns (df d : DataFrame) (positions : list nat) :
  iloc df positions = Ok d → columns d = columns df.
Proof.
  rewrite iloc_Ok. intros [_ H]. unfold columns.
  induction H as [|p q ps qs [Hpq _] _ IH]; csimpl; [done|]. by f_equal.
Qed.

Lemma iloc_index (df d : DataFrame) (positions : list nat) :
  iloc df positions = Ok d → index d = omap (index df !!.) positions.
Proof. rewrite iloc_Ok. intros [H _]. by apply take_omap. Qed.

Lemma iloc_row_at (df d : DataFrame) (positions : list nat) (j i : nat) :
  iloc df positions = Ok d → positions !! j = Some i → row_at d j = row_at df i.
Proof.
  rewrite iloc_Ok. intros [Hidx Hcs] Hj. unfold row_at.
  destruct (take_lookup _ _ _ _ _ Hidx Hj) as [-> _].
  destruct (index df !! i) as [l|]; simpl; [|done].
  f_equal. apply Forall2_mapM_ext, Forall2_flip.
  eapply Forall2_impl; [exact Hcs|]. intros p q [-> Hs].
  by destruct (take_lookup _ _ _ _ _ Hs Hj) as [-> _].
Qed.

Lemma iloc_rows (df d : DataFrame) (positions : list nat) :
  iloc df positions = Ok d → rows d = omap (row_at df) positions.
Proof.
  intros H. unfold rows. rewrite (iloc_nrows _ _ _ H).
  apply omap_seq_reindex. intros j i. by apply iloc_row_at.
Qed.

(** *** One split *)

(** A seeded split does not read or write the world. *)
Lemma train_test_split_seeded df test_size seed stratify (w : world rng_state) :
  train_test_split df test_size (Some seed) stratify w =
    (p ← (cv_split (RandomState seed) test_size (nrows df) stratify).1;
     a ← iloc df p.1; b ← iloc df p.2; Ok (a, b), w).
Proof.
  unfold train_test_split.
  by destruct (cv_split (RandomState seed) test_size (nrows df) stratify).
Qed.

Lemma train_test_split_Ok df test_size seed stratify (w w' : world rng_state) a b :
  train_test_split df test_size (Some seed) stratify w = (Ok (a, b), w') →
  w' = w ∧ ∃ train test,
    drawn (nrows df) train test ∧
    iloc df train = Ok a ∧ iloc df test = Ok b.
Proof.
  rewrite train_test_split_seeded. intros [= H <-]. split; [done|].
  destruct (cv_split _ _ _ _) as [[[train test]|e] g'] eqn:Hcv; simpl in H; [|done].
  apply bind_Ok in H as (a' & Ha & H). apply bind_Ok in H as (b' & Hb & [= <- <-]).
  exists train, test. split; [|done]. by eexists _, _, _, _.
Qed.

Lemma drawn_partition n train test :
  drawn n train test → train ++ test ≡ₚ seq 0 n.
Proof using Type cv_split_partition.
  intros (g & ts & y & g' & H). by eapply cv_split_partition.
Qed.

Lemma split_rows df train test a b :
  train ++ test ≡ₚ seq 0 (nrows df) →
  iloc df train = Ok a → iloc df test = Ok b →
  rows a ++ rows b ≡ₚ rows df ∧
  index a ++ index b ≡ₚ index df ∧
  nrows a + nrows b = nrows df ∧
  columns a = columns df ∧ columns b = columns df.
Proof.
  intros Hp Ha Hb. split_and!.
  - rewrite (iloc_rows _ _ _ Ha), (iloc_rows _ _ _ Hb), <- omap_app.
    unfold rows. by rewrite Hp.
  - rewrite (iloc_index _ _ _ Ha), (iloc_index _ _ _ Hb), <- omap_app, Hp.
    unfold nrows. by rewrite omap_lookup_seq.
  - rewrite (iloc_nrows _ _ _ Ha), (iloc_nrows _ _ _ Hb), <- length_app, Hp.
    by rewrite length_seq.
  - by eapply iloc_columns.
  - by eapply iloc_columns.
Qed.

(** *** telco_split *)

Lemma take_compose {A : Type} (p1 p2 : list nat) (l r1 r2 : list A) :
  take_rows p1 l = Ok r1 → take_rows p2 r1 = Ok r2 →
  take_rows (omap (p1 !!.) p2) l = Ok r2 ∧ length (omap (p1 !!.) p2) = length p2.
Proof.
  rewrite !take_Ok. intros H1 H2.
  induction H2 as [|j x p2 r2 Hj _ [IH1 IH2]]; csimpl; [by split; [constructor|]|].
  destruct (Forall2_lookup_r _ _ _ _ _ H1 Hj) as (i & Hi & Hx).
  rewrite Hi. csimpl. split; [by constructor | by f_equal].
Qed.

Lemma iloc_compose (df d1 d2 : DataFrame) (p1 p2 : list nat) :
  iloc df p1 = Ok d1 → iloc d1 p2 = Ok d2 → iloc df (omap (p1 !!.) p2) = Ok d2.
Proof.
  rewrite !iloc_Ok. intros [Hi1 Hc1] [Hi2 Hc2]. split.
  - by eapply take_compose.
  - revert Hc2. generalize (cols d2). induction Hc1 as [|p q ps qs [Hpq Hq] _ IH];
      intros cs2; inversion 1 as [|? r ? rs [Hr1 Hr2] Hrs]; subst; constructor.
    + split; [congruence | by eapply take_compose].
    + by apply IH.
Qed.

Lemma telco_split_Ok df (w w' : world rng_state) train validate test :
  telco_split df w = (Ok (train, validate, test), w') →
  w' = w ∧ ∃ train_validate p1 q1 p2 q2,
    drawn (nrows df) p1 q1 ∧
    iloc df p1 = Ok train_validate ∧ iloc df q1 = Ok test ∧
    drawn (nrows train_validate) p2 q2 ∧
    iloc train_validate p2 = Ok train ∧ iloc train_validate q2 = Ok validate.
Proof.
  unfold telco_split. intros H.
  apply M_bind_Ok in H as (y & w1 & Hy & H). apply lift_Ok in Hy as [_ ->].
  apply M_bind_Ok in H as ([tv te] & w1 & H1 & H).
  apply train_test_split_Ok in H1 as [-> (p1 & q1 & Hp1 & Htv & Hte)].
  apply M_bind_Ok in H as (y' & w1 & Hy & H). apply lift_Ok in Hy as [_ ->].
  apply M_bind_Ok in H as ([tr va] & w1 & H2 & H).
  apply train_test_split_Ok in H2 as [-> (p2 & q2 & Hp2 & Htr & Hva)].
  injection H as <- <- <- <-. split; [done|].
  exists tv, p1, q1, p2, q2. done.
Qed.

(** C1.  The three frames [telco_split] returns are the rows of the
    prepared table at three lists of positions that together list every
    position exactly once.  So the row counts add up to the table's, the rows
    (and the row labels) of the three partitions together are those of the
    table, and when the table's identifiers are distinct, as those of a
    prepared table are, no identifier is in two partitions. *)
Theorem telco_split_partition df (w w' : world rng_state) train validate test :
  telco_split df w = (Ok (train, validate, test), w') →
  (∃ ptrain pvalidate ptest,
      ptrain ++ pvalidate ++ ptest ≡ₚ seq 0 (nrows df) ∧
      iloc df ptrain = Ok train ∧ iloc df pvalidate = Ok validate ∧
      iloc df ptest = Ok test) ∧
  nrows train + nrows validate + nrows test = nrows df ∧
  rows train ++ rows validate ++ rows test ≡ₚ rows df ∧
  index train ++ index validate ++ index test ≡ₚ index df ∧
  (NoDup (index df) →
     (∀ l, l ∈ index train → l ∉ index validate) ∧
     (∀ l, l ∈ index train → l ∉ index test) ∧
     (∀ l, l ∈ index validate → l ∉ index test)).
Proof using Type cv_split_partition.
  intros H. apply telco_split_Ok in H
    as (_ & tv & p1 & q1 & p2 & q2 & Hp1 & Htv & Hte & Hp2 & Htr & Hva).
  apply drawn_partition in Hp1, Hp2.
  destruct (split_rows _ _ _ _ _ Hp1 Htv Hte) as (Hr1 & Hi1 & Hn1 & _).
  destruct (split_rows _ _ _ _ _ Hp2 Htr Hva) as (Hr2 & Hi2 & Hn2 & _).
  assert (Hidx : index train ++ index validate ++ index test ≡ₚ index df)
    by (by rewrite app_assoc, Hi2, Hi1).
  split_and!.
  - exists (omap (p1 !!.) p2), (omap (p1 !!.) q2), q1. split_and!.
    + rewrite app_assoc, <- omap_app, Hp2, (iloc_nrows _ _ _ Htv).
      by rewrite omap_lookup_seq.
    + by eapply iloc_compose.
    + by eapply iloc_compose.
    + done.
  - lia.
  - by rewrite app_assoc, Hr2, Hr1.
  - done.
  - intros Hnd. rewrite <- Hidx in Hnd.
    apply NoDup_app in Hnd as (_ & H1 & Hnd).
    apply NoDup_app in Hnd as (_ & H2 & _).
    split_and!; intros l Hl; [| |by apply H2];
      intros Hl'; apply (H1 l Hl), elem_of_app; [by left | by right].
Qed.

(** C2.  With the seed fixed at 666 in both splits, what [telco_split]
    returns is a function of the table alone: two calls on the same table
    return the same result in whatever state they find the caller's objects
    and numpy's global generator, and the call leaves that state as it found
    it. *)
Theorem telco_split_deterministic df (w1 w2 : world rng_state) :
  (telco_split df w1).1 = (telco_split df w2).1 ∧ (telco_split df w1).2 = w1.
Proof.
  unfold telco_split, mbind, M_bind, lift.
  destruct (getattr df "churn") as [y|e]; [|done].
  rewrite !train_test_split_seeded.
  destruct (_ ≫= _) as [[tv te]|e]; [|done].
  destruct (getattr tv "churn") as [y'|e]; [|done].
  rewrite !train_test_split_seeded.
  by destruct (_ ≫= _) as [[tr va]|e].
Qed.

(** *** telco_split_xy *)

Lemma column_None c (cs : list (string * Series)) :
  column c cs = None ↔ c ∉ cs.*1.
Proof.
  induction cs as [|[c' s] cs IH]; csimpl.
  - split; [intros _; apply not_elem_of_nil | done].
  - rewrite not_elem_of_cons. case_decide as Hc.
    + split; [done | by intros [? _]].
    + rewrite IH. split; [done | by intros [_ ?]].
Qed.

Lemma column_is_Some c (cs : list (string * Series)) :
  is_Some (column c cs) ↔ c ∈ cs.*1.
Proof.
  rewrite <- not_eq_None_Some, column_None.
  split; [apply dec_stable | by intros ? ?].
Qed.

Lemma filter_single_ne (c : string) (cs : list (string * Series)) :
  filter (λ p, p.1 ∉ [c]) cs = filter (λ p, p.1 ≠ c) cs.
Proof.
  apply list_filter_iff. intros p. rewrite not_elem_of_cons.
  split; [by intros [? _] | intros ?; split; [done | apply not_elem_of_nil]].
Qed.

Lemma drop_columns_single part target :
  drop_columns part [target] =
    if decide (target ∈ columns part) then Ok (without target part)
    else Raise (KeyError target).
Proof.
  unfold drop_columns, first_missing, without.
  rewrite filter_cons, filter_nil.
  case_decide as Hin; case_decide as Hin'; simpl; try done.
  by rewrite filter_single_ne.
Qed.

Lemma feature_target_Ok part target :
  target ∈ columns part →
  ∃ y, column target (cols part) = Some y ∧
       feature_target part target = Ok (without target part, y).
Proof.
  intros Hin. destruct (proj2 (column_is_Some _ _) Hin) as [y Hy].
  exists y. split; [done|]. unfold feature_target, getitem.
  rewrite drop_columns_single, decide_True, Hy by done. done.
Qed.

Lemma feature_target_missing part target :
  target ∉ columns part → feature_target part target = Raise (KeyError target).
Proof.
  intros Hin. unfold feature_target. by rewrite drop_columns_single, decide_False.
Qed.

(** [telco_split_xy] is [telco_split] followed by the projection of each of
    the three partitions. *)
Lemma telco_split_xy_unfold df target (w : world rng_state) :
  telco_split_xy df target w =
    match telco_split df w with
    | (Ok (train, validate, test), w1) =>
        (a ← feature_target train target;
         b ← feature_target validate target;
         c ← feature_target test target;
         Ok (mkXY a.1 a.2 b.1 b.2 c.1 c.2), w1)
    | (Raise e, w1) => (Raise e, w1)
    end.
Proof.
  unfold telco_split_xy, telco_split, feature_target, mbind at 1 2 3 4 5 6 7 8 9 10 11 12 13 14, M_bind, lift.
  destruct (getattr df "churn") as [y|e]; [|done].
  destruct (train_test_split df f0_2 _ _ w) as [[[tv te]|e] w1]; [|done].
  destruct (getattr tv "churn") as [y'|e]; [|done].
  destruct (train_test_split tv f0_3 _ _ w1) as [[[tr va]|e] w2]; [|done].
  simpl.
  destruct (drop_columns tr [target]); simpl; [|done].
  destruct (getitem tr target); simpl; [|done].
  destruct (drop_columns va [target]); simpl; [|done].
  destruct (getitem va target); simpl; [|done].
  destruct (drop_columns te [target]); simpl; [|done].
  by destruct (getitem te target).
Qed.

Lemma filter_ne_id (c : string) (cs : list (string * Series)) :
  c ∉ cs.*1 → filter (λ p, p.1 ≠ c) cs = cs.
Proof.
  induction cs as [|[c' s] cs IH]; csimpl; [done|].
  rewrite not_elem_of_cons. intros [Hne Hc].
  rewrite filter_cons. simpl. case_decide; [|congruence]. f_equal. by apply IH.
Qed.

Lemma insert_without (cs : list (string * Series)) target y :
  NoDup cs.*1 → column target cs = Some y →
  take (position target cs.*1) (filter (λ p, p.1 ≠ target) cs)
    ++ (target, y) :: drop (position target cs.*1) (filter (λ p, p.1 ≠ target) cs)
  = cs.
Proof.
  induction cs as [|[c s] cs IH]; csimpl; [done|].
  rewrite NoDup_cons. intros [Hc Hnd]. rewrite filter_cons. simpl.
  destruct (decide (target = c)) as [->|Hne].
  - intros [= ->]. rewrite decide_False by (by intros ?). simpl.
    f_equal. by apply filter_ne_id.
  - intros Hy. rewrite decide_True by done. simpl. f_equal. by apply IH.
Qed.

Lemma insert_column_without part target y :
  NoDup (columns part) → column target (cols part) = Some y →
  insert_column (without target part) (position target (columns part)) target y = part.
Proof.
  intros Hnd Hy. destruct part as [idx cs]. unfold insert_column, without; simpl.
  f_equal. by apply insert_without.
Qed.

(** C7.  For a target that is a column of the table, [telco_split_xy]
    returns, for each partition [telco_split] makes, the partition without
    the target column (same index, the other columns as they are and in
    their order) and the target column itself.  For a target that is not a
    column, the call raises and returns nothing. *)
Theorem telco_split_xy_projection df target (w : world rng_state) :
  (target ∈ columns df →
   ∀ train validate test w',
     telco_split df w = (Ok (train, validate, test), w') →
     ∃ xy, telco_split_xy df target w = (Ok xy, w') ∧
           X_train xy = without target train ∧
           column target (cols train) = Some (y_train xy) ∧
           X_validate xy = without target validate ∧
           column target (cols validate) = Some (y_validate xy) ∧
           X_test xy = without target test ∧
           column target (cols test) = Some (y_test xy)) ∧
  (target ∉ columns df → ∃ e, (telco_split_xy df target w).1 = Raise e).
Proof.
  split.
  - intros Hin train validate test w' H. rewrite telco_split_xy_unfold, H.
    apply telco_split_Ok in H
      as (_ & tv & p1 & q1 & p2 & q2 & _ & Htv & Hte & _ & Htr & Hva).
    apply iloc_columns in Htv, Hte, Htr, Hva.
    destruct (feature_target_Ok train target) as (y1 & Hy1 & ->); [congruence|].
    destruct (feature_target_Ok validate target) as (y2 & Hy2 & ->); [congruence|].
    destruct (feature_target_Ok test target) as (y3 & Hy3 & ->); [congruence|].
    simpl. eexists. split; [done|]. simpl. done.
  - intros Hin. rewrite telco_split_xy_unfold.
    destruct (telco_split df w) as [[[[train validate] test]|e] w'] eqn:H;
      [|by eexists].
    apply telco_split_Ok in H
      as (_ & tv & p1 & q1 & p2 & q2 & _ & Htv & Hte & _ & Htr & Hva).
    apply iloc_columns in Htv, Hte, Htr, Hva.
    rewrite (feature_target_missing train target) by congruence.
    by eexists.
Qed.

(** C10.  [telco_split_xy] makes the partitions [telco_split] makes: when
    [telco_split] returns train, validate and test, [telco_split_xy] returns
    six values from which putting each target column back where it was in
    the table gives exactly these three frames; and when [telco_split]
    raises, [telco_split_xy] raises the same exception. *)
Theorem telco_split_xy_agrees df target (w : world rng_state) :
  NoDup (columns df) → target ∈ columns df →
  match telco_split df w with
  | (Ok (train, validate, test), w') =>
      ∃ xy, telco_split_xy df target w = (Ok xy, w') ∧
        let loc := position target (columns df) in
        insert_column (X_train xy) loc target (y_train xy) = train ∧
        insert_column (X_validate xy) loc target (y_validate xy) = validate ∧
        insert_column (X_test xy) loc target (y_test xy) = test
  | (Raise e, w') => telco_split_xy df target w = (Raise e, w')
  end.
Proof.
  intros Hnd Hin. rewrite telco_split_xy_unfold.
  destruct (telco_split df w) as [[[[train validate] test]|e] w'] eqn:H; [|done].
  apply telco_split_Ok in H
    as (_ & tv & p1 & q1 & p2 & q2 & _ & Htv & Hte & _ & Htr & Hva).
  apply iloc_columns in Htv, Hte, Htr, Hva.
  destruct (feature_target_Ok train target) as (y1 & Hy1 & ->); [congruence|].
  destruct (feature_target_Ok validate target) as (y2 & Hy2 & ->); [congruence|].
  destruct (feature_target_Ok test target) as (y3 & Hy3 & ->); [congruence|].
  simpl. eexists. split; [done|]. simpl.
  assert (columns train = columns df) as Ec1 by congruence.
  assert (columns validate = columns df) as Ec2 by congruence.
  rewrite <- Ec1 at 1. rewrite <- Ec2 at 1. rewrite <- Hte.
  split_and!; apply insert_column_without; congruence.
Qed.

(** *** The end-to-end example *)

(** C8.  Given that pandas reads the text 100.5 as the float 100.5, the raw
    row of the example is prepared into exactly the expected row: the codes
    re-based, the Yes/No fields as 1/0, one add-on, and
    [tenure_yrs = round(5 / 12, 2)], the float64 0.42 (which is 42 / 100). *)
Theorem prep_telco_example (cid : value) :
  str_to_num "100.5" = Some (inr 100.5%float) →
  prep_telco (example_raw cid) = Ok (example_prepared cid) ∧
  round2 (Z2F 5 / Z2F 12) = f0_42 ∧ f0_42 = (42 / 100)%float.
Proof.
  intros Hparse. split; [|by vm_compute].
  assert (to_numeric [VStr "100.5"] = [VFloat 100.5]) as Hnum
    by (unfold to_numeric, to_numeric_cell; simpl; by rewrite Hparse).
  lazy -[to_numeric]. rewrite Hnum. by vm_compute.
Qed.

(** *** prep_mall_data *)

(** C9 (the code departs from it).  [prep_mall_data] assigns the column
    [is_female] on the frame it is given: after the call, also one that
    raises later, the caller's frame holds that column.  So the caller's
    frame is changed whenever it had no such column before. *)
Theorem prep_mall_data_mutates_argument (w : world rng_state) (df : nat) d g :
  objects w !! df = Some d →
  column "gender" (cols d) = Some g →
  let d' := setitem d "is_female" (eq_str_as_int "Female" <$> g) in
  objects (prep_mall_data df w).2 !! df = Some d' ∧
  ("is_female" ∉ columns d → d' ≠ d).
Proof.
  intros Hd Hg d'. split.
  - unfold prep_mall_data, mbind at 1 2 3 4 5, M_bind, deref, lift, getattr, assign.
    rewrite Hd, Hg. simpl. rewrite lookup_insert_eq. fold d'.
    destruct (drop_columns d' ["gender"]) as [x|e]; [|by simpl; rewrite lookup_insert_eq].
    unfold mbind, M_bind. rewrite train_test_split_seeded.
    destruct (_ ≫= _) as [[tv te]|e]; [|by simpl; rewrite lookup_insert_eq].
    rewrite train_test_split_seeded.
    destruct (_ ≫= _) as [[tr va]|e]; by simpl; rewrite lookup_insert_eq.
  - intros Hnew Heq. apply Hnew. rewrite <- Heq. unfold d', setitem, columns. simpl.
    clear. induction (cols d) as [|[c s] cs IH]; csimpl.
    + apply list_elem_of_here.
    + case_decide; csimpl; [subst; apply list_elem_of_here | by apply list_elem_of_further].
Qed.

(** *** telco_X_scale *)

Section scaling.
Local Open Scope Z_scope.

(** [nanmin] and [nanmax] are cells of the column, NaN only when every cell
    is, and bound the cells that are numbers. *)
Lemma nanmin_elem (col : list float) :
  is_nan (nanmin col) = false → nanmin col ∈ col.
Proof.
  induction col as [|x col IH]; simpl; [done|]. unfold nan_min2.
  destruct (is_nan x) eqn:Hx; [by intros ?; apply list_elem_of_further, IH|].
  destruct (is_nan (nanmin col)) eqn:Hm; [intros _; apply list_elem_of_here|].
  destruct (_ <? _)%float; intros _;
    [by apply list_elem_of_further, IH | apply list_elem_of_here].
Qed.

Lemma nanmin_nan (col : list float) :
  is_nan (nanmin col) = true → ∀ x, x ∈ col → is_nan x = true.
Proof.
  induction col as [|y col IH]; simpl; [by intros _ x ?%elem_of_nil|].
  unfold nan_min2. intros H x [->|Hx]%elem_of_cons.
  - destruct (is_nan y) eqn:Hy; [done|].
    destruct (is_nan (nanmin col)) eqn:Hm; [congruence|].
    destruct (_ <? _)%float; congruence.
  - destruct (is_nan y) eqn:Hy; [by apply IH|].
    destruct (is_nan (nanmin col)) eqn:Hm; [by apply IH|].
    destruct (_ <? _)%float; congruence.
Qed.

Lemma nanmin_le (col : list float) (x : float) :
  x ∈ col → is_nan x = false → ford (nanmin col) ≤ ford x.
Proof.
  induction col as [|y col IH]; simpl; [by intros ?%elem_of_nil|].
  unfold nan_min2. intros Hin Hx.
  destruct (is_nan y) eqn:Hy.
  { apply elem_of_cons in Hin as [->|Hin]; [congruence|by apply IH]. }
  destruct (is_nan (nanmin col)) eqn:Hm.
  { apply elem_of_cons in Hin as [->|Hin]; [done|].
    pose proof (nanmin_nan col Hm x Hin). congruence. }
  rewrite ltb_ord by done.
  apply elem_of_cons in Hin as [->|Hin]; destruct (Z.ltb_spec (ford (nanmin col)) (ford y));
    try specialize (IH Hin Hx); lia.
Qed.

Lemma nanmax_nan (col : list float) :
  is_nan (nanmax col) = true → ∀ x, x ∈ col → is_nan x = true.
Proof.
  induction col as [|y col IH]; simpl; [by intros _ x ?%elem_of_nil|].
  unfold nan_max2. intros H x [->|Hx]%elem_of_cons.
  - destruct (is_nan y) eqn:Hy; [done|].
    destruct (is_nan (nanmax col)) eqn:Hm; [congruence|].
    destruct (_ <? _)%float; congruence.
  - destruct (is_nan y) eqn:Hy; [by apply IH|].
    destruct (is_nan (nanmax col)) eqn:Hm; [by apply IH|].
    destruct (_ <? _)%float; congruence.
Qed.

Lemma nanmax_ge (col : list float) (x : float) :
  x ∈ col → is_nan x = false → ford x ≤ ford (nanmax col).
Proof.
  induction col as [|y col IH]; simpl; [by intros ?%elem_of_nil|].
  unfold nan_max2. intros Hin Hx.
  destruct (is_nan y) eqn:Hy.
  { apply elem_of_cons in Hin as [->|Hin]; [congruence|by apply IH]. }
  destruct (is_nan (nanmax col)) eqn:Hm.
  { apply elem_of_cons in Hin as [->|Hin]; [done|].
    pose proof (nanmax_nan col Hm x Hin). congruence. }
  rewrite ltb_ord by done.
  apply elem_of_cons in Hin as [->|Hin]; destruct (Z.ltb_spec (ford y) (ford (nanmax col)));
    try specialize (IH Hin Hx); lia.
Qed.

Lemma nanmax_elem (col : list float) :
  is_nan (nanmax col) = false → nanmax col ∈ col.
Proof.
  induction col as [|x col IH]; simpl; [done|]. unfold nan_max2.
  destruct (is_nan x) eqn:Hx; [by intros ?; apply list_elem_of_further, IH|].
  destruct (is_nan (nanmax col)) eqn:Hm; [intros _; apply list_elem_of_here|].
  destruct (_ <? _)%float; intros _;
    [by apply list_elem_of_further, IH | apply list_elem_of_here].
Qed.

Lemma SFnonneg_zero (y : float) : SFnonneg (Prim2SF y) → ford y ≤ 0 → y = 0%float.
Proof.
  intros Hn Hle. apply Prim2SF_inj. change (Prim2SF 0) with (S754_zero false).
  unfold ford in Hle. pose proof (Prim2SF_valid y) as V.
  destruct (Prim2SF y) as [s|s| |s m e]; simpl in Hn; try done; subst s; try done.
  pose proof (ord_finite_pos _ _ _ V). cbn [SFord cond_Zopp] in Hle. lia.
Qed.

Lemma SFnonneg_not_nan (y : float) : SFnonneg (Prim2SF y) → is_nan y = false.
Proof. intros H. apply is_nan_SF. intros E. by rewrite E in H. Qed.

(** A column of NaN and sign-clear cells that holds a [+0] has minimum [+0]. *)
Lemma nanmin_zero (l : list float) :
  (∀ y, y ∈ l → is_nan y = true ∨ SFnonneg (Prim2SF y)) →
  0%float ∈ l → nanmin l = 0%float.
Proof.
  intros Hall H0.
  pose proof (nanmin_le l 0%float H0 eq_refl) as Hle.
  destruct (is_nan (nanmin l)) eqn:Hn.
  { by pose proof (nanmin_nan l Hn _ H0). }
  destruct (Hall _ (nanmin_elem l Hn)) as [?|Hs]; [congruence|].
  by apply SFnonneg_zero.
Qed.

Lemma mul_finite_inv (m s : float) :
  is_finite (m * s) = true → is_finite m = true → is_finite s = true.
Proof.
  intros H%finite_SF Hm%finite_SF. apply SFfinite_is_finite.
  rewrite mul_spec in H.
  by destruct (Prim2SF m) as [sm| | |sm mm em], (Prim2SF s) as [ss| | |ss ms es].
Qed.

Lemma mul_finite_not_nan (m s : float) :
  is_finite (m * s) = true → is_nan m = false.
Proof.
  intros H%finite_SF. apply is_nan_SF. rewrite mul_spec in H. intros E.
  by rewrite E in H.
Qed.

Lemma add_nan_l (y : float) : is_nan (nan + y) = true.
Proof.
  unfold is_nan. rewrite FloatAxioms.eqb_spec, add_spec.
  by change (Prim2SF nan) with S754_nan.
Qed.

(** The fitted scale is a number [>= 0] when the column has a finite cell
    and no infinite one. *)
Lemma fit_scale_nonneg (col : list float) :
  Forall (λ x, is_infinity x = false) col →
  is_nan (nanmin col) = false →
  SFnonneg (Prim2SF (fit_scale col)).
Proof.
  intros Hinf Hm. rewrite Forall_forall in Hinf.
  pose proof (nanmin_elem col Hm) as Hmin.
  assert (is_nan (nanmax col) = false) as HM.
  { destruct (is_nan (nanmax col)) eqn:E; [|done].
    pose proof (nanmax_nan col E _ Hmin). congruence. }
  pose proof (nanmax_elem col HM) as Hmax.
  pose proof (nanmax_ge col _ Hmin Hm) as Hle.
  destruct (sub_nonneg (nanmax col) (nanmin col)) as [Hr Hr0];
    [by apply is_finite_alt, Hinf..|done|].
  unfold fit_scale. change (1 - 0)%float with 1%float.
  unfold handle_zeros_in_scale. rewrite eqb_ord by done.
  change (ford 0) with 0.
  destruct (Z.eqb_spec (ford (nanmax col - nanmin col)) 0) as [E|E].
  - by vm_compute.
  - apply div_one_nonneg; [done|lia].
Qed.

(** What the fit of a column without infinite cells is, when [min * scale_]
    is finite. *)
Lemma fit_finite (col : list float) :
  Forall (λ x, is_infinity x = false) col →
  is_finite (nanmin col * fit_scale col) = true →
  is_finite (nanmin col) = true ∧ nanmin col ∈ col ∧
  is_finite (fit_scale col) = true ∧ 0 ≤ ford (fit_scale col) ∧
  is_finite (fit_min col) = true.
Proof.
  intros Hinf Hfin. pose proof Hinf as Hinf'. rewrite Forall_forall in Hinf'.
  pose proof (mul_finite_not_nan _ _ Hfin) as Hm.
  pose proof (nanmin_elem col Hm) as Hmin.
  assert (is_finite (nanmin col) = true) as Hmf by (by apply is_finite_alt, Hinf').
  split_and!; try done.
  - by apply (mul_finite_inv (nanmin col)).
  - by apply SFnonneg_ord, fit_scale_nonneg.
  - by apply sub_zero_finite.
Qed.

(** The transform of a fitted column is monotone. *)
Lemma scale_with_mono (col : list float) (x x' : float) :
  Forall (λ x, is_infinity x = false) col →
  is_finite (nanmin col * fit_scale col) = true →
  is_finite x = true → is_finite x' = true → ford x ≤ ford x' →
  ford (scale_with col x) ≤ ford (scale_with col x').
Proof.
  intros Hinf Hfin Hx Hx' Hle.
  destruct (fit_finite col Hinf Hfin) as (_ & _ & Hs & Hs0 & Hc).
  unfold scale_with. apply add_mono; [by apply mul_not_nan..|done|].
  by apply mul_mono.
Qed.

(** Scaled training cells are NaN (for NaN) or have their sign bit clear. *)
Lemma scaled_cell (col : list float) (x : float) :
  Forall (λ x, is_infinity x = false) col →
  is_finite (nanmin col * fit_scale col) = true →
  x ∈ col →
  if is_nan x then is_nan (scale_with col x) = true
  else SFnonneg (Prim2SF (scale_with col x)).
Proof.
  intros Hinf Hfin Hx. pose proof Hinf as Hinf'. rewrite Forall_forall in Hinf'.
  destruct (fit_finite col Hinf Hfin) as (Hmf & _ & Hs & Hs0 & _).
  destruct (is_nan x) eqn:Hn.
  - apply is_nan_eq in Hn. subst x. unfold scale_with.
    pose proof (mul_nan_l (fit_scale col)) as ->%is_nan_eq. apply add_nan_l.
  - assert (is_finite x = true) as Hxf by (by apply is_finite_alt, Hinf').
    unfold scale_with, fit_min. apply add_neg_nonneg; [by apply mul_not_nan|done|].
    apply mul_mono; try done. by apply nanmin_le.
Qed.

(** The scaled training column has minimum exactly [+0]. *)
Lemma scaled_min (col : list float) :
  Forall (λ x, is_infinity x = false) col →
  is_finite (nanmin col * fit_scale col) = true →
  nanmin (scale_with col <$> col) = 0%float.
Proof.
  intros Hinf Hfin. destruct (fit_finite col Hinf Hfin) as (_ & Hmin & _).
  apply nanmin_zero.
  - intros y (x & -> & Hx)%list_elem_of_fmap.
    pose proof (scaled_cell col x Hinf Hfin Hx) as H.
    destruct (is_nan x); auto.
  - apply list_elem_of_fmap. exists (nanmin col). split; [|done].
    unfold scale_with, fit_min. by rewrite float_cancel.
Qed.

(** The scaled training column has its maximum at the training maximum. *)
Lemma scaled_max (col : list float) :
  Forall (λ x, is_infinity x = false) col →
  is_finite (nanmin col * fit_scale col) = true →
  nanmax (scale_with col <$> col) = scale_with col (nanmax col).
Proof.
  intros Hinf Hfin. pose proof Hinf as Hinf'. rewrite Forall_forall in Hinf'.
  destruct (fit_finite col Hinf Hfin) as (Hmf & Hmin & _).
  assert (is_nan (nanmax col) = false) as HM.
  { destruct (is_nan (nanmax col)) eqn:E; [|done].
    pose proof (nanmax_nan col E _ Hmin) as H.
    apply is_finite_not_nan in Hmf. congruence. }
  pose proof (nanmax_elem col HM) as Hmax.
  pose proof (scaled_cell col _ Hinf Hfin Hmax) as Hu. rewrite HM in Hu.
  assert (scale_with col (nanmax col) ∈ scale_with col <$> col) as Hin.
  { apply list_elem_of_fmap. by exists (nanmax col). }
  assert (is_nan (nanmax (scale_with col <$> col)) = false) as He.
  { destruct (is_nan (nanmax (scale_with col <$> col))) eqn:E; [|done].
    pose proof (nanmax_nan _ E _ Hin) as H.
    apply SFnonneg_not_nan in Hu. congruence. }
  pose proof (nanmax_elem _ He) as (x & Ex & Hx)%list_elem_of_fmap.
  pose proof (scaled_cell col x Hinf Hfin Hx) as Hc.
  destruct (is_nan x) eqn:Hn; [congruence|]. rewrite <- Ex in Hc.
  apply SFnonneg_inj; [done..|]. apply Z.le_antisymm.
  - rewrite Ex. apply scale_with_mono; try done.
    + by apply is_finite_alt, Hinf'.
    + by apply is_finite_alt, Hinf'.
    + by apply nanmax_ge.
  - apply nanmax_ge; [done|by apply SFnonneg_not_nan].
Qed.

End scaling.

Lemma transform_columns_eq (tr a : list (list float)) :
  (λ col : list float, VFloat <$> col) <$>
    zip_with (λ sm col, transform_column sm.1 sm.2 col)
      (zip (fit_scale <$> tr) (fit_min <$> tr)) a
  = zip_with scaled_series tr a.
Proof.
  revert a. induction tr as [|t tr IH]; intros [|col a]; csimpl; try done.
  by rewrite IH.
Qed.

Lemma transform_Ok (tr : list (list float)) X arr :
  transform (mkScaler (fit_scale <$> tr) (fit_min <$> tr)) X = Ok arr →
  ∃ a, check_array X = Ok a ∧ length a = length tr ∧
       (λ col : list float, VFloat <$> col) <$> arr = zip_with scaled_series tr a.
Proof.
  unfold transform. intros H. apply bind_Ok in H as (a & Ha & H).
  simpl in H. rewrite length_fmap in H. case_decide as Hlen; [|done].
  injection H as <-. exists a. by rewrite transform_columns_eq.
Qed.

Lemma as_float_finite v f : as_float v = Ok f → is_infinity f = false.
Proof.
  unfold as_float. intros (g & _ & H)%bind_Ok.
  destruct (is_infinity g) eqn:E; [done|]. by injection H as <-.
Qed.

(** [check_array] lets no infinite cell through. *)
Lemma check_array_finite X a :
  check_array X = Ok a → Forall (Forall (λ x, is_infinity x = false)) a.
Proof.
  unfold check_array. repeat case_decide; try done.
  generalize (cols X). intros l Hm%mapM_result_Ok.
  induction Hm as [|p col ps a Hp _ IH]; constructor; [|done].
  apply mapM_result_Ok in Hp. clear -Hp.
  induction Hp as [|v f vs col Hv _ IH]; constructor; [|done].
  by apply as_float_finite in Hv.
Qed.

Lemma scaled_frame_Ok X arr d :
  scaled_frame X arr = Ok d →
  length arr = 12 ∧
  d = mkDF (index X) (zip scaled_columns ((λ col : list float, VFloat <$> col) <$> arr)).
Proof. unfold scaled_frame. case_decide; [|done]. by intros [= <-]. Qed.

(** C6 (as the code has it).  The scaler is fitted on the training table
    alone, and the one fitted transform, [x * scale_ + min_] column by
    column, is applied to the three tables.  Every scaled training column
    has minimum exactly 0, and has its maximum at the cell of the training
    maximum, [max * scale_ + min_] computed in float64, which need not be
    1; this as long as [min * scale_] is a finite float.  Validation cells
    outside the training range are scaled to values outside [0, 1]: the
    validation example has a cell above 1 and a cell below 0. *)
Theorem telco_X_scale_fit_on_train :
  (∀ X_train X_validate X_test a b c,
     telco_X_scale X_train X_validate X_test = Ok (a, b, c) →
     ∃ tr va te,
       check_array X_train = Ok tr ∧ check_array X_validate = Ok va ∧
       check_array X_test = Ok te ∧
       a = mkDF (index X_train) (zip scaled_columns (zip_with scaled_series tr tr)) ∧
       b = mkDF (index X_validate) (zip scaled_columns (zip_with scaled_series tr va)) ∧
       c = mkDF (index X_test) (zip scaled_columns (zip_with scaled_series tr te)) ∧
       Forall (λ col, is_finite (nanmin col * fit_scale col) = true →
                      nanmin (scale_with col <$> col) = 0%float ∧
                      nanmax (scale_with col <$> col)
                        = scale_with col (nanmax col)) tr) ∧
  (∃ a b c f g,
     telco_X_scale scale_example_train scale_example_validate scale_example_validate
       = Ok (a, b, c) ∧
     cell b "monthly_charges" 0 = Some (VFloat f) ∧ (1 <? f)%float = true ∧
     cell b "total_charges" 0 = Some (VFloat g) ∧ (g <? 0)%float = true).
Proof.
  split.
  - intros X_train X_validate X_test a b c H. unfold telco_X_scale in H.
    apply bind_Ok in H as (scaler & Hfit & H). unfold fit in Hfit.
    apply bind_Ok in Hfit as (tr & Htr & [= <-]).
    apply bind_Ok in H as (arr1 & H1 & H). apply bind_Ok in H as (arr2 & H2 & H).
    apply bind_Ok in H as (arr3 & H3 & H).
    apply bind_Ok in H as (d1 & Hd1 & H). apply bind_Ok in H as (d2 & Hd2 & H).
    apply bind_Ok in H as (d3 & Hd3 & [= <- <- <-]).
    apply transform_Ok in H1 as (tr' & Htr' & _ & E1).
    apply transform_Ok in H2 as (va & Hva & _ & E2).
    apply transform_Ok in H3 as (te & Hte & _ & E3).
    rewrite Htr in Htr'. injection Htr' as <-.
    apply scaled_frame_Ok in Hd1 as [_ ->], Hd2 as [_ ->], Hd3 as [_ ->].
    rewrite E1, E2, E3. exists tr, va, te. split_and!; try done.
    apply check_array_finite in Htr. apply (Forall_impl _ _ _ Htr).
    intros col Hinf Hfin. split; [by apply scaled_min|by apply scaled_max].
  - vm_compute. eexists _, _, _, _, _. split_and!; reflexivity.
Qed.

(** *** prep_telco: the frame operations on [column] *)

Lemma set_column_lookup c c' s (cs : list (string * Series)) :
  column c' (set_column c s cs) = if decide (c' = c) then Some s else column c' cs.
Proof.
  induction cs as [|[c0 s0] cs IH]; simpl.
  - by case_decide.
  - destruct (decide (c = c0)) as [->|Hne]; simpl.
    + by destruct (decide (c' = c0)).
    + destruct (decide (c' = c0)) as [->|]; [|done]. by rewrite decide_False.
Qed.

Lemma column_setitem df c c' s :
  column c' (cols (setitem df c s)) =
    if decide (c' = c) then Some s else column c' (cols df).
Proof. apply set_column_lookup. Qed.

Lemma column_filter_ne c0 c (cs : list (string * Series)) :
  column c (filter (λ p, p.1 ≠ c0) cs) = if decide (c = c0) then None else column c cs.
Proof.
  induction cs as [|[c1 s1] cs IH]; simpl; [by case_decide|].
  rewrite filter_cons; simpl.
  destruct (decide (c1 ≠ c0)) as [H0|H0]; simpl; rewrite IH;
    destruct (decide (c = c0)), (decide (c = c1)); simplify_eq; done.
Qed.

Lemma column_filter_notin (labels : list string) c (cs : list (string * Series)) :
  column c (filter (λ p, p.1 ∉ labels) cs) =
    if decide (c ∈ labels) then None else column c cs.
Proof.
  induction cs as [|[c1 s1] cs IH]; simpl; [by case_decide|].
  rewrite filter_cons; simpl.
  destruct (decide (c1 ∉ labels)) as [H0|H0]; simpl; rewrite IH;
    destruct (decide (c ∈ labels)), (decide (c = c1)); simplify_eq; done.
Qed.

Lemma column_fmap (f : Series → Series) c (cs : list (string * Series)) :
  column c (prod_map id f <$> cs) = f <$> column c cs.
Proof.
  induction cs as [|[c0 s0] cs IH]; csimpl; [done|]. by case_decide.
Qed.

Lemma getattr_Ok df c s : getattr df c = Ok s ↔ column c (cols df) = Some s.
Proof. unfold getattr. destruct (column c (cols df)); split; congruence. Qed.

Lemma getitem_Ok df c s : getitem df c = Ok s ↔ column c (cols df) = Some s.
Proof. unfold getitem. destruct (column c (cols df)); split; congruence. Qed.

Lemma set_index_Ok df c df' :
  set_index df c = Ok df' →
  column c (cols df) = Some (index df') ∧
  ∀ c', column c' (cols df') = if decide (c' = c) then None else column c' (cols df).
Proof.
  unfold set_index. intros H. apply bind_Ok in H as (s & Hs & [= <-]).
  apply getitem_Ok in Hs. split; [done|]. intros c'. simpl.
  apply column_filter_ne.
Qed.

Lemma map_column_Ok df c d df' :
  map_column df c d = Ok df' →
  ∃ s, column c (cols df) = Some s ∧ index df' = index df ∧
    ∀ c', column c' (cols df') =
            if decide (c' = c) then Some (Series_map d s) else column c' (cols df).
Proof.
  unfold map_column. intros H. apply bind_Ok in H as (s & Hs & [= <-]).
  apply getattr_Ok in Hs. exists s. split_and!; [done..|]. intros c'.
  apply column_setitem.
Qed.

Lemma drop_columns_Ok df labels df' :
  drop_columns df labels = Ok df' →
  index df' = index df ∧
  ∀ c', column c' (cols df') = if decide (c' ∈ labels) then None else column c' (cols df).
Proof.
  unfold drop_columns. destruct (first_missing _ _); [done|]. intros [= <-].
  split; [done|]. intros c'. simpl.
  apply column_filter_notin.
Qed.

Lemma rename_column df m c old :
  rename_label m old = c →
  (∀ c1, rename_label m c1 = c → c1 = old ∨ c1 = c) →
  (c ≠ old → column c (cols df) = None) →
  column c (cols (rename df m)) = column old (cols df).
Proof.
  intros Hold Hm. unfold rename. simpl.
  induction (cols df) as [|[c1 s] cs IH]; csimpl; [done|]. intros Hnone.
  destruct (decide (c = rename_label m c1)) as [Hc|Hc].
  - destruct (Hm c1 (eq_sym Hc)) as [->| ->]; [by rewrite decide_True|].
    destruct (decide (c = old)) as [->|Hne]; [by rewrite decide_True|].
    specialize (Hnone Hne). by rewrite decide_True in Hnone.
  - assert (old ≠ c1) by congruence. rewrite decide_False by done.
    apply IH. intros Hne. specialize (Hnone Hne).
    by destruct (decide (c = c1)).
Qed.

Lemma short_names_target c old :
  (old, c) ∈ short_names →
  rename_label short_names old = c ∧
  ∀ c1, rename_label short_names c1 = c → c1 = old ∨ c1 = c.
Proof.
  intros H. unfold short_names in *.
  repeat (apply elem_of_cons in H as [[= -> ->]|H]);
    try (split; [done|]; intros c1; unfold rename_label;
         repeat case_decide; subst; by eauto).
  by apply elem_of_nil in H.
Qed.

Lemma short_names_other c :
  c ∉ short_names.*1 → c ∉ short_names.*2 →
  rename_label short_names c = c ∧
  ∀ c1, rename_label short_names c1 = c → c1 = c ∨ c1 = c.
Proof.
  intros H1 H2. unfold short_names in *. csimpl in *.
  rewrite !not_elem_of_cons in H1, H2. destruct_and!.
  split; unfold rename_label; [|intros c1]; repeat case_decide; subst;
    first [congruence | by left].
Qed.

(** *** prep_telco: cell by cell *)

Lemma Series_map_length d s : length (Series_map d s) = length s.
Proof.
  unfold Series_map. destruct (mapM _ s) as [zs|] eqn:E.
  - apply length_mapM in E. by rewrite length_fmap.
  - by rewrite length_fmap.
Qed.

Lemma Series_map_lookup d s i v z :
  s !! i = Some v → dict_get d v = Some z →
  ∃ n, Series_map d s !! i = Some n ∧ is_number z n.
Proof.
  intros Hv Hz. unfold Series_map. destruct (mapM _ s) as [zs|] eqn:E.
  - apply mapM_Some in E.
    destruct (Forall2_lookup_l _ _ _ _ _ E Hv) as (z' & Hz' & Hd).
    assert (z' = z) as -> by congruence.
    exists (VInt z). rewrite list_lookup_fmap, Hz'. split; [done | by left].
  - exists (VFloat (Z2F z)). rewrite list_lookup_fmap, Hv. simpl. rewrite Hz.
    split; [done | by right].
Qed.

Lemma Series_add_lookup a b s i x y :
  Series_add a b = Ok s → a !! i = Some x → b !! i = Some y →
  ∃ z, s !! i = Some z ∧ add_value x y = Ok z.
Proof.
  unfold Series_add. rewrite mapM_result_Ok. intros H Hx Hy.
  assert (zip a b !! i = Some (x, y)) as Hxy by (by apply lookup_zip_Some).
  destruct (Forall2_lookup_l _ _ _ _ _ H Hxy) as (z & Hz & Hadd). eauto.
Qed.

Lemma Series_add_length a b s :
  Series_add a b = Ok s → length a = length b → length s = length a.
Proof.
  unfold Series_add. rewrite mapM_result_Ok. intros H Hab.
  apply Forall2_length in H. rewrite length_zip_with in H. lia.
Qed.

Lemma add_is_number a b x y z :
  is_number a x → is_number b y → (0 ≤ a ≤ 5)%Z → (0 ≤ b ≤ 1)%Z →
  add_value x y = Ok z → is_number (a + b) z.
Proof.
  intros Hx Hy Ha Hb.
  assert (a = 0 ∨ a = 1 ∨ a = 2 ∨ a = 3 ∨ a = 4 ∨ a = 5)%Z as Ha' by lia.
  assert (b = 0 ∨ b = 1)%Z as Hb' by lia. clear Ha Hb.
  destruct_or!; subst a b;
    destruct Hx as [-> | ->], Hy as [-> | ->]; unfold add_value; intros [= <-];
    first [by left; f_equal; vm_compute | by right; f_equal; vm_compute].
Qed.

Lemma count_yes_cons v vs :
  count_yes (v :: vs) = ((if is_yes v then 1 else 0) + count_yes vs)%Z.
Proof.
  unfold count_yes. rewrite filter_cons.
  destruct (is_yes v); simpl length; [|done]. lia.
Qed.

Lemma addon_dict_get v :
  addon_domain v → dict_get addon_dict v = Some (if is_yes v then 1 else 0)%Z.
Proof. by intros [-> | [-> | ->]]. Qed.

Lemma to_float_isnull v : isnull (to_float v) = isnull v.
Proof. destruct v; simpl; [done| |done]. apply Z2F_not_nan. Qed.

(** The mask [~df.total_charges.isnull()] says, row by row, whether the raw
    cell converts to a number. *)
Lemma to_numeric_mask s : negb ∘ isnull <$> to_numeric s = parses <$> s.
Proof.
  unfold to_numeric. destruct (forallb _ _).
  - rewrite <- list_fmap_compose. done.
  - rewrite <- !list_fmap_compose. apply list_fmap_ext. intros i v _. simpl.
    unfold parses. by rewrite to_float_isnull.
Qed.

Lemma to_numeric_length s : length (to_numeric s) = length s.
Proof. unfold to_numeric. destruct (forallb _ _); by rewrite ?length_fmap. Qed.

Lemma to_numeric_lookup s i v :
  s !! i = Some v →
  to_numeric s !! i = Some (to_numeric_cell v) ∨
  to_numeric s !! i = Some (to_float (to_numeric_cell v)).
Proof.
  intros Hv. unfold to_numeric. destruct (forallb _ _); [left|right];
    rewrite !list_lookup_fmap, Hv; done.
Qed.


(** *** Rows picked by a mask *)

Lemma select_omap_from {A : Type} (mask : list bool) (l0 l : list A) :
  length mask ≤ length l →
  select mask l =
    omap ((l0 ++ l) !!.) (select mask (seq (length l0) (length mask))).
Proof.
  revert l0 l. induction mask as [|b mask IH]; intros l0 [|x l] Hlen;
    simpl in *; try done; [lia|].
  specialize (IH (l0 ++ [x]) l). rewrite <- app_assoc, length_app in IH.
  simpl in IH. rewrite Nat.add_1_r in IH.
  destruct b; simpl; [|apply IH; lia].
  rewrite list_lookup_middle by done. f_equal. apply IH. lia.
Qed.

Lemma select_fmap_filter {A : Type} (g : A → bool) (l0 l : list A) :
  select (g <$> l) (seq (length l0) (length l)) =
    filter (λ i, from_option g false ((l0 ++ l) !! i)) (seq (length l0) (length l)).
Proof.
  revert l0. induction l as [|x l IH]; intros l0; csimpl; [done|].
  specialize (IH (l0 ++ [x])). rewrite <- app_assoc, length_app in IH.
  simpl in IH. rewrite Nat.add_1_r in IH.
  rewrite filter_cons, list_lookup_middle by done. csimpl.
  destruct (g x); csimpl; by rewrite IH.
Qed.

Lemma lookup_omap_total {A : Type} (l : list A) (K : list nat) j i :
  Forall (λ i, is_Some (l !! i)) K → K !! j = Some i →
  omap (l !!.) K !! j = l !! i.
Proof.
  intros HK. revert j. induction HK as [|k K [x Hx] _ IH]; intros j; [done|].
  simpl. rewrite Hx. destruct j as [|j]; simpl; [by intros [= <-] | apply IH].
Qed.

(** The positions a mask [parses <$> tc] keeps. *)
Lemma kept_in_range (tc : Series) i :
  i ∈ filter (λ i, from_option parses false (tc !! i)) (seq 0 (length tc)) →
  i < length tc.
Proof. rewrite list_elem_of_filter, elem_of_seq. lia. Qed.

Lemma select_parses {A : Type} (tc : Series) (l : list A) j i :
  length tc ≤ length l →
  filter (λ i, from_option parses false (tc !! i)) (seq 0 (length tc)) !! j = Some i →
  select (parses <$> tc) l !! j = l !! i.
Proof.
  intros Hlen Hj.
  rewrite (select_omap_from _ []) by (by rewrite length_fmap).
  rewrite length_fmap. simpl. rewrite (select_fmap_filter parses []). simpl.
  apply lookup_omap_total; [|done].
  apply Forall_forall. intros k Hk%kept_in_range.
  apply lookup_lt_is_Some. lia.
Qed.

Lemma select_parses_all {A : Type} (tc : Series) (l : list A) :
  length tc ≤ length l →
  select (parses <$> tc) l =
    omap (l !!.) (filter (λ i, from_option parses false (tc !! i)) (seq 0 (length tc))).
Proof.
  intros Hlen.
  rewrite (select_omap_from _ []) by (by rewrite length_fmap).
  rewrite length_fmap. simpl. by rewrite (select_fmap_filter parses []).
Qed.

Lemma surviving_eq raw (tc : Series) :
  column "total_charges" (cols raw) = Some tc → nrows raw = length tc →
  surviving raw =
    filter (λ i, from_option parses false (tc !! i)) (seq 0 (length tc)).
Proof.
  intros Htc Hn. unfold surviving. rewrite Hn. apply list_filter_iff.
  intros i. unfold survives, cell. rewrite Htc. simpl. by destruct (tc !! i).
Qed.

Lemma rectangular_length df c s :
  rectangular df → column c (cols df) = Some s → length s = nrows df.
Proof.
  unfold rectangular. induction 1 as [|[c0 s0] cs H0 _ IH]; simpl; [done|].
  case_decide; [by intros [= <-] | done].
Qed.

(** *** prep_telco: what the returned frame is made of *)

Ltac by_compute := apply (bool_decide_unpack _); vm_compute; exact I.

Ltac column_step :=
  match goal with
  | |- context [column _ (cols (setitem _ _ _))] => rewrite column_setitem
  | E : ∀ c, column c (cols ?df) = _ |- context [column _ (cols ?df)] => rewrite E
  | |- context [decide (?a = ?b)] =>
      first [ rewrite (decide_True (P := a = b)) by reflexivity
            | rewrite (decide_False (P := a = b)) by discriminate ]
  | |- context [decide (?a ∈ ?l)] =>
      first [ rewrite (decide_True (P := a ∈ l)) by by_compute
            | rewrite (decide_False (P := a ∈ l)) by by_compute ]
  end.

Ltac column_norm := repeat column_step.
Ltac column_norm_in H := revert H; column_norm; intros H.

Lemma prep_telco_inv raw out :
  prep_telco raw = Ok out →
  ∃ pre tc r1 r2 r3 r4 r5 r6 s1 s2 s3 s4 s5 ct it,
    column "customer_id" (cols raw) = Some (index pre) ∧
    column "total_charges" (cols raw) = Some tc ∧
    column "online_security" (cols raw) = Some r1 ∧
    column "online_backup" (cols raw) = Some r2 ∧
    column "device_protection" (cols raw) = Some r3 ∧
    column "tech_support" (cols raw) = Some r4 ∧
    column "streaming_tv" (cols raw) = Some r5 ∧
    column "streaming_movies" (cols raw) = Some r6 ∧
    Series_add (Series_map addon_dict r1) (Series_map addon_dict r2) = Ok s1 ∧
    Series_add s1 (Series_map addon_dict r3) = Ok s2 ∧
    Series_add s2 (Series_map addon_dict r4) = Ok s3 ∧
    Series_add s3 (Series_map addon_dict r5) = Ok s4 ∧
    Series_add s4 (Series_map addon_dict r6) = Ok s5 ∧
    column "contract_type_id" (cols raw) = Some ct ∧
    column "internet_service_type_id" (cols raw) = Some it ∧
    out = getitem_mask pre (parses <$> tc) ∧
    column "num_add_ons" (cols pre) = Some s5 ∧
    column "total_charges" (cols pre) = Some (to_numeric tc) ∧
    (∀ c, c ∈ addon_columns → column c (cols pre) = None) ∧
    ("contract_type" ∉ columns raw →
       column "contract_type" (cols pre) = Some (Series_map contract_dict ct)) ∧
    ("internet_type" ∉ columns raw →
       column "internet_type" (cols pre) = Some (Series_map internet_dict it)).
Proof.
  intros H. unfold prep_telco in H. cbv zeta in H.
  apply bind_Ok in H as (df1 & H1 & H). apply set_index_Ok in H1 as [Hids E1].
  apply bind_Ok in H as (df2 & H2 & H). apply map_column_Ok in H2 as (r1 & Hr1 & I2 & E2).
  apply bind_Ok in H as (df3 & H3 & H). apply map_column_Ok in H3 as (r2 & Hr2 & I3 & E3).
  apply bind_Ok in H as (df4 & H4 & H). apply map_column_Ok in H4 as (r3 & Hr3 & I4 & E4).
  apply bind_Ok in H as (df5 & H5 & H). apply map_column_Ok in H5 as (r4 & Hr4 & I5 & E5).
  apply bind_Ok in H as (df6 & H6 & H). apply map_column_Ok in H6 as (r5 & Hr5 & I6 & E6).
  apply bind_Ok in H as (df7 & H7 & H). apply map_column_Ok in H7 as (r6 & Hr6 & I7 & E7).
  apply bind_Ok in H as (a1 & Ha1 & H). apply getattr_Ok in Ha1.
  apply bind_Ok in H as (a2 & Ha2 & H). apply getattr_Ok in Ha2.
  apply bind_Ok in H as (s1 & Hs1 & H).
  apply bind_Ok in H as (a3 & Ha3 & H). apply getattr_Ok in Ha3.
  apply bind_Ok in H as (s2 & Hs2 & H).
  apply bind_Ok in H as (a4 & Ha4 & H). apply getattr_Ok in Ha4.
  apply bind_Ok in H as (s3 & Hs3 & H).
  apply bind_Ok in H as (a5 & Ha5 & H). apply getattr_Ok in Ha5.
  apply bind_Ok in H as (s4 & Hs4 & H).
  apply bind_Ok in H as (a6 & Ha6 & H). apply getattr_Ok in Ha6.
  apply bind_Ok in H as (s5 & Hs5 & H).
  apply bind_Ok in H as (df8 & H8 & H). apply drop_columns_Ok in H8 as [I8 E8].
  apply bind_Ok in H as (df9 & H9 & H). apply map_column_Ok in H9 as (ph & Hph & I9 & E9).
  apply bind_Ok in H as (g & Hg & H). apply getattr_Ok in Hg.
  apply bind_Ok in H as (df10 & H10 & H). apply drop_columns_Ok in H10 as [I10 E10].
  apply bind_Ok in H as (df11 & H11 & H). apply map_column_Ok in H11 as (pa & Hpa & I11 & E11).
  apply bind_Ok in H as (df12 & H12 & H). apply map_column_Ok in H12 as (de & Hde & I12 & E12).
  apply bind_Ok in H as (df13 & H13 & H). apply map_column_Ok in H13 as (ch & Hch & I13 & E13).
  apply bind_Ok in H as (df14 & H14 & H). apply map_column_Ok in H14 as (ct & Hct & I14 & E14).
  apply bind_Ok in H as (df15 & H15 & H). apply map_column_Ok in H15 as (it & Hit & I15 & E15).
  apply bind_Ok in H as (t & Ht & H).
  apply bind_Ok in H as (q & Hq & H).
  apply bind_Ok in H as (y & Hy & H).
  apply bind_Ok in H as (tc & Htc & H). apply getitem_Ok in Htc.
  apply bind_Ok in H as (tc' & Htc' & H). apply getattr_Ok in Htc'.
  injection H as <-.
  column_norm_in Htc'. injection Htc' as <-.
  assert (∀ c, c ∉ short_names.*1 → c ∉ short_names.*2 →
               column c (cols (rename (setitem df15 "tenure_yrs" y) short_names))
               = column c (cols (setitem df15 "tenure_yrs" y))) as Eother.
  { intros c Hc1 Hc2. destruct (short_names_other c Hc1 Hc2) as [Hr Hm].
    by apply rename_column. }
  assert (∀ old c, (old, c) ∈ short_names → c ≠ "tenure_yrs" → c ∉ columns raw →
                   column c (cols df15) = column c (cols raw) →
                   column c (cols (rename (setitem df15 "tenure_yrs" y) short_names))
                   = column old (cols (setitem df15 "tenure_yrs" y))) as Etarget.
  { intros old c Hc Hne Hraw Hsame. destruct (short_names_target c old Hc) as [Hr Hm].
    apply rename_column; [done..|]. intros _. rewrite column_setitem.
    rewrite decide_False by done. rewrite Hsame. by apply column_None. }
  rewrite Eother in Htc by by_compute.
  column_norm_in Htc. column_norm_in Hr1. column_norm_in Hr2. column_norm_in Hr3.
  column_norm_in Hr4. column_norm_in Hr5. column_norm_in Hr6.
  column_norm_in Ha1. column_norm_in Ha2. column_norm_in Ha3.
  column_norm_in Ha4. column_norm_in Ha5. column_norm_in Ha6.
  column_norm_in Hct. column_norm_in Hit.
  injection Ha1 as <-. injection Ha2 as <-. injection Ha3 as <-.
  injection Ha4 as <-. injection Ha5 as <-. injection Ha6 as <-.
  eexists (setitem (rename (setitem df15 "tenure_yrs" y) short_names)
             "total_charges" (to_numeric tc)).
  exists tc, r1, r2, r3, r4, r5, r6, s1, s2, s3, s4, s5, ct, it.
  split_and!; try done.
  - simpl in *. congruence.
  - by rewrite to_numeric_mask.
  - column_norm. rewrite Eother by by_compute. by column_norm.
  - by column_norm.
  - intros c Hc. unfold addon_columns in Hc.
    repeat (apply elem_of_cons in Hc as [->|Hc]);
      try (column_norm; rewrite Eother by by_compute; by column_norm).
    by apply elem_of_nil in Hc.
  - intros Hraw. column_norm.
    rewrite (Etarget "contract_type_id") by
      first [by_compute | done | by column_norm].
    by column_norm.
  - intros Hraw. column_norm.
    rewrite (Etarget "internet_service_type_id") by
      first [by_compute | done | by column_norm].
    by column_norm.
Qed.

(** *** prep_telco: row by row *)

Lemma length_omap_total {A : Type} (l : list A) (K : list nat) :
  Forall (λ i, is_Some (l !! i)) K → length (omap (l !!.) K) = length K.
Proof. induction 1 as [|k K [x Hx] _ IH]; simpl; [done|]. rewrite Hx. simpl. by f_equal. Qed.

Lemma cell_column df c s i : column c (cols df) = Some s → cell df c i = s !! i.
Proof. intros H. unfold cell. by rewrite H. Qed.

Lemma cell_getitem_mask pre (tc s : Series) c j i :
  column c (cols pre) = Some s → length tc ≤ length s →
  filter (λ i, from_option parses false (tc !! i)) (seq 0 (length tc)) !! j = Some i →
  cell (getitem_mask pre (parses <$> tc)) c j = s !! i.
Proof.
  intros Hs Hlen Hj. unfold cell, getitem_mask. simpl.
  rewrite column_fmap, Hs. simpl. by apply select_parses.
Qed.

Lemma columns_getitem_mask pre mask c :
  column c (cols pre) = None → c ∉ columns (getitem_mask pre mask).
Proof.
  intros H. apply column_None. unfold getitem_mask. simpl. by rewrite column_fmap, H.
Qed.

(** The sum of the six mapped add-on columns, in the row at position [i]. *)
Lemma addon_sum_row r1 r2 r3 r4 r5 r6 s1 s2 s3 s4 s5 i v1 v2 v3 v4 v5 v6 :
  Series_add (Series_map addon_dict r1) (Series_map addon_dict r2) = Ok s1 →
  Series_add s1 (Series_map addon_dict r3) = Ok s2 →
  Series_add s2 (Series_map addon_dict r4) = Ok s3 →
  Series_add s3 (Series_map addon_dict r5) = Ok s4 →
  Series_add s4 (Series_map addon_dict r6) = Ok s5 →
  r1 !! i = Some v1 → r2 !! i = Some v2 → r3 !! i = Some v3 →
  r4 !! i = Some v4 → r5 !! i = Some v5 → r6 !! i = Some v6 →
  Forall addon_domain [v1; v2; v3; v4; v5; v6] →
  (0 ≤ count_yes [v1; v2; v3; v4; v5; v6] ≤ 6)%Z ∧
  ∃ n, s5 !! i = Some n ∧ is_number (count_yes [v1; v2; v3; v4; v5; v6]) n.
Proof.
  intros Hs1 Hs2 Hs3 Hs4 Hs5 H1 H2 H3 H4 H5 H6 Hdom.
  apply Forall_cons in Hdom as [D1 Hdom]. apply Forall_cons in Hdom as [D2 Hdom].
  apply Forall_cons in Hdom as [D3 Hdom]. apply Forall_cons in Hdom as [D4 Hdom].
  apply Forall_cons in Hdom as [D5 Hdom]. apply Forall_cons in Hdom as [D6 _].
  destruct (Series_map_lookup addon_dict r1 i v1 _ H1 (addon_dict_get v1 D1))
    as (n1 & Hn1 & N1).
  destruct (Series_map_lookup addon_dict r2 i v2 _ H2 (addon_dict_get v2 D2))
    as (n2 & Hn2 & N2).
  destruct (Series_map_lookup addon_dict r3 i v3 _ H3 (addon_dict_get v3 D3))
    as (n3 & Hn3 & N3).
  destruct (Series_map_lookup addon_dict r4 i v4 _ H4 (addon_dict_get v4 D4))
    as (n4 & Hn4 & N4).
  destruct (Series_map_lookup addon_dict r5 i v5 _ H5 (addon_dict_get v5 D5))
    as (n5 & Hn5 & N5).
  destruct (Series_map_lookup addon_dict r6 i v6 _ H6 (addon_dict_get v6 D6))
    as (n6 & Hn6 & N6).
  destruct (Series_add_lookup _ _ _ i _ _ Hs1 Hn1 Hn2) as (z1 & Hz1 & A1).
  destruct (Series_add_lookup _ _ _ i _ _ Hs2 Hz1 Hn3) as (z2 & Hz2 & A2).
  destruct (Series_add_lookup _ _ _ i _ _ Hs3 Hz2 Hn4) as (z3 & Hz3 & A3).
  destruct (Series_add_lookup _ _ _ i _ _ Hs4 Hz3 Hn5) as (z4 & Hz4 & A4).
  destruct (Series_add_lookup _ _ _ i _ _ Hs5 Hz4 Hn6) as (z5 & Hz5 & A5).
  rewrite !count_yes_cons.
  change (count_yes []) with 0%Z.
  set (b1 := (if is_yes v1 then 1 else 0)%Z) in *.
  set (b2 := (if is_yes v2 then 1 else 0)%Z) in *.
  set (b3 := (if is_yes v3 then 1 else 0)%Z) in *.
  set (b4 := (if is_yes v4 then 1 else 0)%Z) in *.
  set (b5 := (if is_yes v5 then 1 else 0)%Z) in *.
  set (b6 := (if is_yes v6 then 1 else 0)%Z) in *.
  assert (0 ≤ b1 ≤ 1)%Z by (unfold b1; destruct (is_yes v1); lia).
  assert (0 ≤ b2 ≤ 1)%Z by (unfold b2; destruct (is_yes v2); lia).
  assert (0 ≤ b3 ≤ 1)%Z by (unfold b3; destruct (is_yes v3); lia).
  assert (0 ≤ b4 ≤ 1)%Z by (unfold b4; destruct (is_yes v4); lia).
  assert (0 ≤ b5 ≤ 1)%Z by (unfold b5; destruct (is_yes v5); lia).
  assert (0 ≤ b6 ≤ 1)%Z by (unfold b6; destruct (is_yes v6); lia).
  split; [lia|]. exists z5. split; [done|].
  pose proof (add_is_number _ _ _ _ _ N1 N2 ltac:(lia) ltac:(lia) A1) as M1.
  pose proof (add_is_number _ _ _ _ _ M1 N3 ltac:(lia) ltac:(lia) A2) as M2.
  pose proof (add_is_number _ _ _ _ _ M2 N4 ltac:(lia) ltac:(lia) A3) as M3.
  pose proof (add_is_number _ _ _ _ _ M3 N5 ltac:(lia) ltac:(lia) A4) as M4.
  pose proof (add_is_number _ _ _ _ _ M4 N6 ltac:(lia) ltac:(lia) A5) as M5.
  replace (b1 + (b2 + (b3 + (b4 + (b5 + (b6 + 0))))))%Z
    with (b1 + b2 + b3 + b4 + b5 + b6)%Z by lia.
  done.
Qed.

(** The returned frame, seen from the raw table: it is a frame [pre] with
    one row per raw row, cut down to the surviving positions. *)
Lemma prep_telco_frame raw out :
  rectangular raw → prep_telco raw = Ok out →
  ∃ pre tc,
    column "total_charges" (cols raw) = Some tc ∧
    column "total_charges" (cols pre) = Some (to_numeric tc) ∧
    (∃ r1 r2 r3 r4 r5 r6 s1 s2 s3 s4 s5,
       column "online_security" (cols raw) = Some r1 ∧
       column "online_backup" (cols raw) = Some r2 ∧
       column "device_protection" (cols raw) = Some r3 ∧
       column "tech_support" (cols raw) = Some r4 ∧
       column "streaming_tv" (cols raw) = Some r5 ∧
       column "streaming_movies" (cols raw) = Some r6 ∧
       Series_add (Series_map addon_dict r1) (Series_map addon_dict r2) = Ok s1 ∧
       Series_add s1 (Series_map addon_dict r3) = Ok s2 ∧
       Series_add s2 (Series_map addon_dict r4) = Ok s3 ∧
       Series_add s3 (Series_map addon_dict r5) = Ok s4 ∧
       Series_add s4 (Series_map addon_dict r6) = Ok s5 ∧
       column "num_add_ons" (cols pre) = Some s5) ∧
    (∃ ct, column "contract_type_id" (cols raw) = Some ct ∧
       ("contract_type" ∉ columns raw →
        column "contract_type" (cols pre) = Some (Series_map contract_dict ct))) ∧
    (∃ it, column "internet_service_type_id" (cols raw) = Some it ∧
       ("internet_type" ∉ columns raw →
        column "internet_type" (cols pre) = Some (Series_map internet_dict it))) ∧
    (∀ c s j i, column c (cols pre) = Some s → nrows raw ≤ length s →
                surviving raw !! j = Some i → cell out c j = s !! i) ∧
    (∀ j i, surviving raw !! j = Some i →
            index out !! j = cell raw "customer_id" i ∧ i < nrows raw) ∧
    nrows out = length (surviving raw) ∧
    (∀ c, c ∈ addon_columns → c ∉ columns out).
Proof.
  intros Hrect H. apply prep_telco_inv in H
    as (pre & tc & r1 & r2 & r3 & r4 & r5 & r6 & s1 & s2 & s3 & s4 & s5 & ct & it
        & Hids & Htc & Hr1 & Hr2 & Hr3 & Hr4 & Hr5 & Hr6
        & Hs1 & Hs2 & Hs3 & Hs4 & Hs5 & Hct & Hit & -> & Hsum & Htc' & Hgone & Hc & Hi).
  pose proof (rectangular_length _ _ _ Hrect Htc) as Ltc.
  pose proof (rectangular_length _ _ _ Hrect Hids) as Lids.
  pose proof (surviving_eq raw tc Htc (eq_sym Ltc)) as HK.
  exists pre, tc. split_and!; try done.
  - exists r1, r2, r3, r4, r5, r6, s1, s2, s3, s4, s5. done.
  - by exists ct.
  - by exists it.
  - intros c s j i Hs Hlen Hj. rewrite HK in Hj.
    apply cell_getitem_mask; [done|lia|done].
  - intros j i Hj. rewrite HK in Hj.
    assert (i < length tc) as Hlt
      by (eapply kept_in_range, list_elem_of_lookup_2, Hj).
    split; [|lia]. rewrite (cell_column _ _ _ _ Hids). simpl.
    apply select_parses; [lia | done].
  - unfold nrows at 1. simpl. rewrite select_parses_all by lia. rewrite HK.
    apply length_omap_total, Forall_forall. intros k Hk%kept_in_range.
    apply lookup_lt_is_Some. lia.
  - intros c Hin. by apply columns_getitem_mask, Hgone.
Qed.

(** C3.  In the prepared table none of the six add-on columns is left,
    and in every prepared row, which is the raw row at a surviving position,
    [num_add_ons] is the number of the row's six add-on fields equal to Yes
    whenever each of them is Yes, No or No internet service: a number
    between 0 and 6, held as an int or, when the column was cast to float
    because of a row outside that domain, as the same number in float64. *)
Theorem prep_telco_num_add_ons raw out :
  rectangular raw → prep_telco raw = Ok out →
  (∀ c, c ∈ addon_columns → c ∉ columns out) ∧
  nrows out = length (surviving raw) ∧
  ∀ j i, surviving raw !! j = Some i →
    index out !! j = cell raw "customer_id" i ∧
    ∀ vs, addons raw i = Some vs → Forall addon_domain vs →
      (0 ≤ count_yes vs ≤ 6)%Z ∧
      ∃ n, cell out "num_add_ons" j = Some n ∧ is_number (count_yes vs) n.
Proof.
  intros Hrect H.
  destruct (prep_telco_frame raw out Hrect H)
    as (pre & tc & Htc & _ & Hadd & _ & _ & Hcell & Hidx & Hn & Hgone).
  destruct Hadd as (r1 & r2 & r3 & r4 & r5 & r6 & s1 & s2 & s3 & s4 & s5
                    & Hr1 & Hr2 & Hr3 & Hr4 & Hr5 & Hr6
                    & Hs1 & Hs2 & Hs3 & Hs4 & Hs5 & Hsum).
  split_and!; [done..|]. intros j i Hj. destruct (Hidx j i Hj) as [Hid Hlt].
  split; [done|]. intros vs Hvs Hdom.
  unfold addons, addon_columns in Hvs. simpl in Hvs.
  rewrite (cell_column _ _ _ _ Hr1), (cell_column _ _ _ _ Hr2),
    (cell_column _ _ _ _ Hr3), (cell_column _ _ _ _ Hr4),
    (cell_column _ _ _ _ Hr5), (cell_column _ _ _ _ Hr6) in Hvs.
  destruct (r1 !! i) as [v1|] eqn:H1; [|done].
  destruct (r2 !! i) as [v2|] eqn:H2; [|done].
  destruct (r3 !! i) as [v3|] eqn:H3; [|done].
  destruct (r4 !! i) as [v4|] eqn:H4; [|done].
  destruct (r5 !! i) as [v5|] eqn:H5; [|done].
  destruct (r6 !! i) as [v6|] eqn:H6; [|done].
  simpl in Hvs. injection Hvs as <-.
  destruct (addon_sum_row _ _ _ _ _ _ _ _ _ _ _ i _ _ _ _ _ _
              Hs1 Hs2 Hs3 Hs4 Hs5 H1 H2 H3 H4 H5 H6 Hdom) as [Hb (n & Hn5 & Hnum)].
  split; [done|]. exists n. split; [|done].
  rewrite <- Hn5. apply Hcell; [done| |done].
  pose proof (rectangular_length _ _ _ Hrect Hr1) as L1.
  pose proof (rectangular_length _ _ _ Hrect Hr2) as L2.
  pose proof (rectangular_length _ _ _ Hrect Hr3) as L3.
  pose proof (rectangular_length _ _ _ Hrect Hr4) as L4.
  pose proof (rectangular_length _ _ _ Hrect Hr5) as L5.
  pose proof (rectangular_length _ _ _ Hrect Hr6) as L6.
  pose proof (Series_add_length _ _ _ Hs1) as M1. rewrite !Series_map_length in M1.
  pose proof (Series_add_length _ _ _ Hs2) as M2. rewrite !Series_map_length in M2.
  pose proof (Series_add_length _ _ _ Hs3) as M3. rewrite !Series_map_length in M3.
  pose proof (Series_add_length _ _ _ Hs4) as M4. rewrite !Series_map_length in M4.
  pose proof (Series_add_length _ _ _ Hs5) as M5. rewrite !Series_map_length in M5.
  lia.
Qed.

(** C4.  In every prepared row, which is the raw row at a surviving
    position, a contract code 1, 2 or 3 has become 0, 1 or 2, and an
    internet service code 3 (none) has become 0 while 1 (DSL) and 2 (fiber)
    stay 1 and 2 (as an int, or as the same number in float64 when another
    row of the column has an unknown code).  The raw table is taken not to
    have columns already named contract_type or internet_type. *)
Theorem prep_telco_rebase raw out :
  rectangular raw →
  "contract_type" ∉ columns raw → "internet_type" ∉ columns raw →
  prep_telco raw = Ok out →
  ∀ j i, surviving raw !! j = Some i →
    index out !! j = cell raw "customer_id" i ∧
    (∀ k, cell raw "contract_type_id" i = Some (VInt k) → (1 ≤ k ≤ 3)%Z →
          ∃ n, cell out "contract_type" j = Some n ∧ is_number (k - 1) n) ∧
    (∀ k, cell raw "internet_service_type_id" i = Some (VInt k) → (1 ≤ k ≤ 3)%Z →
          ∃ n, cell out "internet_type" j = Some n ∧
               is_number (if decide (k = 3%Z) then 0%Z else k) n).
Proof.
  intros Hrect Hc1 Hc2 H.
  destruct (prep_telco_frame raw out Hrect H)
    as (pre & tc & Htc & _ & _ & (ct & Hct & Hct') & (it & Hit & Hit')
        & Hcell & Hidx & Hn & Hgone).
  intros j i Hj. destruct (Hidx j i Hj) as [Hid Hlt].
  split_and!; [done| |]; intros k Hk Hrange.
  - rewrite (cell_column _ _ _ _ Hct) in Hk.
    destruct (Series_map_lookup contract_dict ct i _ (k - 1) Hk) as (n & Hn' & Hnum).
    { assert (k = 1 ∨ k = 2 ∨ k = 3)%Z as [->|[->| ->]] by lia; done. }
    exists n. split; [|done]. rewrite <- Hn'.
    apply Hcell; [by apply Hct'| |done].
    rewrite Series_map_length. by rewrite (rectangular_length _ _ _ Hrect Hct).
  - rewrite (cell_column _ _ _ _ Hit) in Hk.
    destruct (Series_map_lookup internet_dict it i _
                (if decide (k = 3%Z) then 0%Z else k) Hk) as (n & Hn' & Hnum).
    { assert (k = 1 ∨ k = 2 ∨ k = 3)%Z as [->|[->| ->]] by lia; done. }
    exists n. split; [|done]. rewrite <- Hn'.
    apply Hcell; [by apply Hit'| |done].
    rewrite Series_map_length. by rewrite (rectangular_length _ _ _ Hrect Hit).
Qed.

(** C5.  The prepared rows are the raw rows whose total_charges converts to
    a number, in their order: one prepared row per surviving position, with
    the customer's identifier as its label and the converted value as its
    total_charges (the float itself when the text parsed to a float).  A raw
    row is kept exactly when its cell converts to a number, and a row whose
    total_charges is empty or whitespace is not kept. *)
Theorem prep_telco_drops_unparsed raw out :
  rectangular raw → prep_telco raw = Ok out →
  nrows out = length (surviving raw) ∧
  (∀ j i, surviving raw !! j = Some i →
     index out !! j = cell raw "customer_id" i ∧
     ∃ v, cell raw "total_charges" i = Some v ∧ parses v = true ∧
          (cell out "total_charges" j = Some (to_numeric_cell v) ∨
           cell out "total_charges" j = Some (to_float (to_numeric_cell v))) ∧
          (∀ s f, v = VStr s → str_to_num s = Some (inr f) →
                  cell out "total_charges" j = Some (VFloat f))) ∧
  (∀ i v, i < nrows raw → cell raw "total_charges" i = Some v →
          (i ∈ surviving raw ↔ parses v = true)) ∧
  (∀ i s, cell raw "total_charges" i = Some (VStr s) → blank s = true →
          i ∉ surviving raw).
Proof using Type str_to_num_blank.
  intros Hrect H.
  destruct (prep_telco_frame raw out Hrect H)
    as (pre & tc & Htc & Htc' & _ & _ & _ & Hcell & Hidx & Hn & Hgone).
  pose proof (rectangular_length _ _ _ Hrect Htc) as Ltc.
  assert (∀ i v, cell raw "total_charges" i = Some v →
                 (i ∈ surviving raw ↔ i < nrows raw ∧ parses v = true)) as Hin.
  { intros i v Hv. unfold surviving. rewrite list_elem_of_filter, elem_of_seq.
    unfold survives. rewrite Hv. rewrite Is_true_true. split; [intros [? ?]|intros [? ?]]; split; auto; lia. }
  split_and!.
  - done.
  - intros j i Hj. destruct (Hidx j i Hj) as [Hid Hlt]. split; [done|].
    assert (is_Some (tc !! i)) as [v Hv] by (apply lookup_lt_is_Some; lia).
    assert (cell raw "total_charges" i = Some v) as Hc
      by (by rewrite (cell_column _ _ _ _ Htc)).
    exists v. split; [done|].
    assert (parses v = true) as Hp.
    { apply (Hin i v Hc). by eapply list_elem_of_lookup_2. }
    split; [done|].
    assert (cell out "total_charges" j = to_numeric tc !! i) as ->
      by (apply Hcell; [done | rewrite to_numeric_length; lia | done]).
    split; [by apply to_numeric_lookup|].
    intros s f -> Hs. destruct (to_numeric_lookup tc i _ Hv) as [-> | ->];
      simpl; by rewrite Hs.
  - intros i v Hlt Hv. rewrite (Hin i v Hv). tauto.
  - intros i s Hv Hb. rewrite (Hin i _ Hv). intros [_ Hp].
    unfold parses in Hp. simpl in Hp. by rewrite (str_to_num_blank s Hb) in Hp.
Qed.

(** ** Further properties *)

(** *** telco_X_scale: shapes, labels and the fitted transform *)

Lemma telco_X_scale_Ok X_train X_validate X_test a b c :
  telco_X_scale X_train X_validate X_test = Ok (a, b, c) →
  ∃ tr va te,
    check_array X_train = Ok tr ∧ check_array X_validate = Ok va ∧
    check_array X_test = Ok te ∧
    length tr = 12 ∧ length va = 12 ∧ length te = 12 ∧
    a = mkDF (index X_train) (zip scaled_columns (zip_with scaled_series tr tr)) ∧
    b = mkDF (index X_validate) (zip scaled_columns (zip_with scaled_series tr va)) ∧
    c = mkDF (index X_test) (zip scaled_columns (zip_with scaled_series tr te)).
Proof.
  intros H. unfold telco_X_scale in H.
  apply bind_Ok in H as (scaler & Hfit & H). unfold fit in Hfit.
  apply bind_Ok in Hfit as (tr & Htr & [= <-]).
  apply bind_Ok in H as (arr1 & H1 & H). apply bind_Ok in H as (arr2 & H2 & H).
  apply bind_Ok in H as (arr3 & H3 & H).
  apply bind_Ok in H as (d1 & Hd1 & H). apply bind_Ok in H as (d2 & Hd2 & H).
  apply bind_Ok in H as (d3 & Hd3 & [= <- <- <-]).
  apply transform_Ok in H1 as (tr' & Htr' & L1 & E1).
  apply transform_Ok in H2 as (va & Hva & L2 & E2).
  apply transform_Ok in H3 as (te & Hte & L3 & E3).
  rewrite Htr in Htr'. injection Htr' as <-.
  apply scaled_frame_Ok in Hd1 as [N1 ->], Hd2 as [N2 ->], Hd3 as [N3 ->].
  rewrite E1, E2, E3. exists tr, va, te.
  assert (length arr1 = length tr) as A1.
  { apply (f_equal length) in E1. by rewrite length_fmap, length_zip_with, Nat.min_id in E1. }
  split_and!; try done; lia.
Qed.

Lemma check_array_names X X' :
  index X = index X' → (cols X).*2 = (cols X').*2 → check_array X = check_array X'.
Proof.
  intros Hi Hc. unfold check_array, nrows. rewrite Hi.
  assert (cols X = [] ↔ cols X' = []) as Hnil.
  { split; intros E; apply (f_equal length) in Hc;
      rewrite !length_fmap, E in Hc; by apply nil_length_inv. }
  assert (mapM (λ p : string * Series, mapM as_float p.2) (cols X)
          = mapM (λ p : string * Series, mapM as_float p.2) (cols X')) as ->.
  { revert Hc. generalize (cols X), (cols X'). clear.
    induction l as [|[n s] l IH]; intros [|[n' s'] l']; csimpl; try done.
    intros [= -> Hl]. destruct (mapM as_float s'); [|done].
    cbn [mbind result_bind]. f_equal. by apply IH. }
  repeat case_decide; try done; tauto.
Qed.

(** X1.  The scaler reads its three inputs by position: the names of their
    columns play no part, and the outputs are labelled with the twelve fixed
    names whatever the inputs' columns are called.  So two calls whose inputs
    have the same row labels and the same columns in the same order, under
    whatever names, return the same frames; and the columns of each output
    are the twelve names, its row labels those of its input. *)
Theorem telco_X_scale_by_position X_train X_validate X_test X_train' X_validate' X_test' :
  (index X_train = index X_train' → (cols X_train).*2 = (cols X_train').*2 →
   index X_validate = index X_validate' → (cols X_validate).*2 = (cols X_validate').*2 →
   index X_test = index X_test' → (cols X_test).*2 = (cols X_test').*2 →
   telco_X_scale X_train X_validate X_test = telco_X_scale X_train' X_validate' X_test') ∧
  (∀ a b c, telco_X_scale X_train X_validate X_test = Ok (a, b, c) →
     columns a = scaled_columns ∧ columns b = scaled_columns ∧
     columns c = scaled_columns ∧
     index a = index X_train ∧ index b = index X_validate ∧ index c = index X_test).
Proof.
  split.
  - intros I1 C1 I2 C2 I3 C3.
    unfold telco_X_scale, fit, transform, scaled_frame.
    by rewrite (check_array_names _ _ I1 C1), (check_array_names _ _ I2 C2),
      (check_array_names _ _ I3 C3), I1, I2, I3.
  - intros a b c (tr & va & te & _ & _ & _ & L1 & L2 & L3 & -> & -> & ->)%telco_X_scale_Ok.
    unfold columns. cbn [cols index].
    rewrite !fst_zip; [done|rewrite length_zip_with; simpl; lia..].
Qed.

(** X2.  [telco_X_scale] returns exactly when each of its three inputs has
    twelve columns and passes [check_array] (a row at least, and cells that
    convert to finite or NaN floats); every failure is a ValueError. *)
Theorem telco_X_scale_shapes X_train X_validate X_test :
  ((∃ r, telco_X_scale X_train X_validate X_test = Ok r) ↔
   Forall (λ X, length (cols X) = 12 ∧ ∃ a, check_array X = Ok a)
     [X_train; X_validate; X_test]) ∧
  (∀ e, telco_X_scale X_train X_validate X_test = Raise e → e = ValueError).
Proof.
  assert (∀ X a, check_array X = Ok a → length a = length (cols X)) as Hlen.
  { intros X a. unfold check_array. repeat case_decide; try done.
    intros Hm%mapM_result_Ok. by apply Forall2_length in Hm. }
  assert (∀ X e, check_array X = Raise e → e = ValueError) as Hcerr.
  { intros X e. unfold check_array. repeat case_decide; try congruence.
    generalize (cols X). clear. induction l as [|p l IH]; csimpl; [done|].
    destruct (mapM as_float p.2) as [fs|e'] eqn:Ep; csimpl.
    - destruct (mapM _ l) as [a|e']; csimpl; [done|]. intros [= <-]. by apply IH.
    - intros [= <-]. revert Ep. generalize p.2. clear.
      induction l as [|v l IH]; csimpl; [done|].
      destruct (as_float v) as [f|e''] eqn:Ev; csimpl.
      + destruct (mapM as_float l) as [fs'|e'']; csimpl; [done|].
        intros [= <-]. by apply IH.
      + intros [= <-]. unfold as_float in Ev.
        destruct v as [s|z|f]; csimpl in Ev;
          repeat (case_match; csimpl in Ev); congruence. }
  split; [split|].
  - intros [[[a b] c] (tr & va & te & H1 & H2 & H3 & L1 & L2 & L3 & _)%telco_X_scale_Ok].
    apply Hlen in H1 as E1, H2 as E2, H3 as E3.
    repeat (apply Forall_cons_2; [split; [congruence|eauto]|]).
    apply Forall_nil_2.
  - intros H. apply Forall_cons in H as [[L1 [tr H1]] H].
    apply Forall_cons in H as [[L2 [va H2]] H].
    apply Forall_cons in H as [[L3 [te H3]] _].
    unfold telco_X_scale, fit, transform, scaled_frame.
    rewrite H1, H2, H3. cbn [mbind result_bind scale_ min_].
    rewrite !length_fmap.
    rewrite !(decide_True (P := length _ = length tr))
      by (rewrite ?(Hlen _ _ H1), ?(Hlen _ _ H2), ?(Hlen _ _ H3); lia).
    cbn [mbind result_bind].
    rewrite !decide_True; [by eexists|..].
    all: rewrite length_zip_with, length_zip, !length_fmap, ?Nat.min_id;
      rewrite ?(Hlen _ _ H1), ?(Hlen _ _ H2), ?(Hlen _ _ H3); simpl; lia.
  - intros e H. unfold telco_X_scale, fit, transform, scaled_frame in H.
    repeat match type of H with
           | context [check_array ?X] =>
               destruct (check_array X) eqn:?; cbn [mbind result_bind scale_ min_] in H
           | context [decide ?P] => destruct (decide P); cbn [mbind result_bind] in H
           end;
      try discriminate; injection H as <-; by eauto.
Qed.

Section scaling_more.
Local Open Scope Z_scope.

Lemma leb_ord (x y : float) :
  is_nan x = false → is_nan y = false → (x <=? y)%float = (ford x <=? ford y).
Proof.
  intros Hx Hy. rewrite leb_spec. unfold SFleb, Z.leb. rewrite compare_ord by done.
  by destruct (ford x ?= ford y).
Qed.

(** Multiplication by 1 is exact. *)
Lemma mul_1_r (c : float) : is_finite c = true → (c * 1)%float = c.
Proof.
  intros Hc. apply Prim2SF_inj. rewrite mul_spec.
  change (Prim2SF 1) with (S754_finite false 4503599627370496 (-52)).
  pose proof (Prim2SF_valid c) as V. apply finite_SF in Hc.
  destruct (Prim2SF c) as [s| | |s m e]; try done; [by destruct s|].
  cbn [SF64mul SFmul]. rewrite xorb_false_r.
  pose proof (valid_finite_bounds _ _ _ V) as (He & Hm & _).
  unfold SpecFloat.valid_binary, bounded, canonical_mantissa in V.
  apply andb_prop in V as [V%Z.eqb_eq _]. rewrite fexp_eq in V.
  rewrite binary_round_aux_eq by lia. cbv zeta. rewrite !fexp_eq.
  rewrite Pos2Z.inj_mul. change (Z.pos 4503599627370496) with (2 ^ 52).
  rewrite Zdigits2_mul_pow2 by lia. simpl Zdigits2.
  replace (Z.max (Z.max (Z.pos (digits2_pos m) + 52 + (e + -52) - 53) (-1074) - (e + -52)) 0)
    with 52 by lia.
  rewrite rne_exact by lia. replace (e + -52 + 52) with e by lia.
  simpl Zdigits2. replace (Z.max (Z.max (Z.pos (digits2_pos m) + e - 53) (-1074) - e) 0)
    with 0 by lia.
  rewrite Z.pow_0_r, Z.div_1_r, Z.add_0_r.
  destruct (Z.leb_spec e 971); [done|lia].
Qed.

Lemma sub_diag (c : float) : is_finite c = true → (c - c)%float = 0%float.
Proof.
  intros Hc. apply Prim2SF_inj. rewrite sub_spec. apply finite_SF in Hc.
  change (Prim2SF 0) with (S754_zero false).
  destruct (Prim2SF c) as [[]| | |s m e]; try done.
  cbn [SF64sub SFsub]. by rewrite Z.sub_diag.
Qed.

Lemma nanmin_const (c : float) (col : list float) :
  is_nan c = false → col ≠ [] → Forall (λ x, x = c) col → nanmin col = c.
Proof.
  intros Hc Hne Hall. induction Hall as [|x col -> _ IH]; [done|]. simpl.
  unfold nan_min2. rewrite Hc. destruct col as [|y col]; [done|].
  rewrite IH by done. rewrite Hc, ltb_ord, Z.ltb_irrefl by done. done.
Qed.

Lemma nanmax_const (c : float) (col : list float) :
  is_nan c = false → col ≠ [] → Forall (λ x, x = c) col → nanmax col = c.
Proof.
  intros Hc Hne Hall. induction Hall as [|x col -> _ IH]; [done|]. simpl.
  unfold nan_max2. rewrite Hc. destruct col as [|y col]; [done|].
  rewrite IH by done. rewrite Hc, ltb_ord, Z.ltb_irrefl by done. done.
Qed.

End scaling_more.

(** X3.  A training column whose cells are all the same finite number has
    range zero; the scaler then divides by 1 instead ([scale_] is 1), every
    cell of the column is scaled to exactly 0, and a cell [x] of another
    table is only shifted, to [x * 1 + (0 - c)]. *)
Theorem telco_X_scale_constant_column (c : float) (col : list float) :
  is_finite c = true → col ≠ [] → Forall (λ x, x = c) col →
  fit_scale col = 1%float ∧
  Forall (λ y, y = 0%float) (scale_with col <$> col) ∧
  ∀ x, scale_with col x = (x * 1 + (0 - c))%float.
Proof.
  intros Hc Hne Hall. pose proof (is_finite_not_nan _ Hc) as Hn.
  assert (fit_scale col = 1%float) as Hs.
  { unfold fit_scale. rewrite (nanmin_const c), (nanmax_const c), sub_diag by done.
    reflexivity. }
  assert (fit_min col = (0 - c)%float) as Hm.
  { unfold fit_min. by rewrite Hs, (nanmin_const c), mul_1_r. }
  split; [done|]. split.
  - apply Forall_fmap. apply (Forall_impl _ _ _ Hall). intros x ->. simpl.
    unfold scale_with. rewrite Hs, Hm, mul_1_r by done. by apply float_cancel.
  - intros x. unfold scale_with. by rewrite Hs, Hm.
Qed.

Lemma fitted_finite X_train col :
  fitted X_train col → Forall (λ x, is_infinity x = false) col.
Proof.
  intros (tr & Htr%check_array_finite & Hcol).
  rewrite Forall_forall in Htr. by apply Htr.
Qed.

Lemma scale_with_not_nan (col : list float) (x : float) :
  Forall (λ x, is_infinity x = false) col →
  is_finite (nanmin col * fit_scale col) = true →
  is_finite x = true → is_nan (scale_with col x) = false.
Proof.
  intros Hinf Hfin Hx. destruct (fit_finite col Hinf Hfin) as (_ & _ & Hs & _ & Hc).
  unfold scale_with. apply add_not_nan; [by apply mul_not_nan|done].
Qed.

(** X4.  The fitted transform of a column keeps the order of the cells it
    is applied to, those of the validation and test tables included: a
    smaller finite cell is never scaled to a larger value.  So a cell within
    the training range is scaled to a value between 0 and the scaled
    training maximum.  (This as long as [min * scale_] is a finite float.) *)
Theorem telco_X_scale_keeps_order X_train (col : list float) :
  fitted X_train col →
  is_finite (nanmin col * fit_scale col) = true →
  (∀ x x', is_finite x = true → is_finite x' = true → (x <=? x')%float = true →
           (scale_with col x <=? scale_with col x')%float = true) ∧
  (∀ x, is_finite x = true →
        (nanmin col <=? x)%float = true → (x <=? nanmax col)%float = true →
        (0 <=? scale_with col x)%float = true ∧
        (scale_with col x <=? scale_with col (nanmax col))%float = true).
Proof.
  intros Hinf%fitted_finite Hfin.
  assert (∀ x x', is_finite x = true → is_finite x' = true → (x <=? x')%float = true →
                  (scale_with col x <=? scale_with col x')%float = true) as Hmono.
  { intros x x' Hx Hx' Hle.
    rewrite leb_ord in Hle by by apply is_finite_not_nan.
    rewrite leb_ord by by apply scale_with_not_nan.
    apply Z.leb_le. apply scale_with_mono; try done. by apply Z.leb_le. }
  split; [done|]. intros x Hx Hlo Hhi.
  destruct (fit_finite col Hinf Hfin) as (Hmf & Hmin & _).
  assert (is_finite (nanmax col) = true) as HMf.
  { destruct (is_nan (nanmax col)) eqn:E.
    - pose proof (nanmax_nan col E _ Hmin) as H.
      apply is_finite_not_nan in Hmf. congruence.
    - apply is_finite_alt; [done|]. rewrite Forall_forall in Hinf.
      by apply Hinf, nanmax_elem. }
  split; [|by apply Hmono].
  replace 0%float with (scale_with col (nanmin col)); [by apply Hmono|].
  unfold scale_with, fit_min. by apply float_cancel.
Qed.

Lemma nanmin_filter (col : list float) :
  nanmin (filter (λ x, is_nan x = false) col) = nanmin col.
Proof.
  induction col as [|x col IH]; [done|]. rewrite filter_cons. simpl.
  case_decide as Hx; simpl; rewrite IH; [done|].
  unfold nan_min2. by destruct (is_nan x).
Qed.

Lemma nanmax_filter (col : list float) :
  nanmax (filter (λ x, is_nan x = false) col) = nanmax col.
Proof.
  induction col as [|x col IH]; [done|]. rewrite filter_cons. simpl.
  case_decide as Hx; simpl; rewrite IH; [done|].
  unfold nan_max2. by destruct (is_nan x).
Qed.

(** X5.  Missing values pass through the scaler: the NaN cells of a training
    column play no part in the fit ([scale_] and [min_] are those of the
    column without them), and a NaN cell of any table is scaled to NaN. *)
Theorem telco_X_scale_missing_values (col : list float) :
  fit_scale (filter (λ x, is_nan x = false) col) = fit_scale col ∧
  fit_min (filter (λ x, is_nan x = false) col) = fit_min col ∧
  ∀ x, is_nan x = true → is_nan (scale_with col x) = true.
Proof.
  assert (fit_scale (filter (λ x, is_nan x = false) col) = fit_scale col) as Hs
    by (unfold fit_scale; by rewrite nanmin_filter, nanmax_filter).
  split; [done|]. split.
  - unfold fit_min. by rewrite Hs, nanmin_filter.
  - intros x ->%is_nan_eq. unfold scale_with.
    pose proof (mul_nan_l (fit_scale col)) as ->%is_nan_eq. apply add_nan_l.
Qed.

(** *** prep_mall_data: the caller's frame and the three parts *)

Lemma prep_mall_data_unfold (df : nat) (w : world rng_state) :
  prep_mall_data df w =
    match objects w !! df with
    | None => (Raise (KeyError "unbound reference"), w)
    | Some d =>
        match column "gender" (cols d) with
        | None => (Raise (AttributeError "gender"), w)
        | Some g =>
            (mall_splits (mall_frame d g),
             mkWorld (<[df := mall_frame d g]> (objects w)) (np_random w))
        end
    end.
Proof.
  unfold prep_mall_data, mbind at 1 2 3 4 5, M_bind, deref, lift, getattr, assign.
  destruct (objects w !! df) as [d|] eqn:Hd; [|done].
  destruct (column "gender" (cols d)) as [g|] eqn:Hg; [|done].
  simpl. rewrite lookup_insert_eq. fold (mall_frame d g). unfold mall_splits.
  destruct (drop_columns _ ["gender"]) as [x|e]; [|done].
  unfold mbind at 1 2, M_bind. rewrite train_test_split_seeded.
  cbn [mbind result_bind].
  destruct (cv_split _ _ (nrows x) _).1 as [p|e]; [|done]. cbn [mbind result_bind].
  destruct (iloc x p.1) as [tv|e]; [|done]. cbn [mbind result_bind].
  destruct (iloc x p.2) as [te|e]; [|done]. cbn [mbind result_bind].
  rewrite train_test_split_seeded.
  destruct (cv_split _ _ (nrows tv) _).1 as [q|e]; [|done]. cbn [mbind result_bind].
  destruct (iloc tv q.1) as [tr|e]; [|done]. cbn [mbind result_bind].
  by destruct (iloc tv q.2) as [va|e].
Qed.

(** X6.  On a frame without a gender column [prep_mall_data] raises
    AttributeError before it assigns anything: the caller's frame, and the
    rest of the state, are left as they were. *)
Theorem prep_mall_data_no_gender (w : world rng_state) (df : nat) d :
  objects w !! df = Some d → "gender" ∉ columns d →
  prep_mall_data df w = (Raise (AttributeError "gender"), w).
Proof.
  intros Hd Hg. apply column_None in Hg. by rewrite prep_mall_data_unfold, Hd, Hg.
Qed.

Lemma set_column_idemp c s (cs : list (string * Series)) :
  set_column c s (set_column c s cs) = set_column c s cs.
Proof.
  induction cs as [|[c' s'] cs IH]; simpl.
  - by rewrite decide_True.
  - case_decide; simpl.
    + by rewrite decide_True.
    + rewrite decide_False by done. by rewrite IH.
Qed.

(** X7.  The assignment [prep_mall_data] makes on the caller's frame is the
    same at every call: calling it again on the frame it has changed changes
    nothing more and returns the same three parts (or raises the same
    exception). *)
Theorem prep_mall_data_twice (w : world rng_state) (df : nat) :
  prep_mall_data df (prep_mall_data df w).2 = prep_mall_data df w.
Proof.
  rewrite (prep_mall_data_unfold df w).
  destruct (objects w !! df) as [d|] eqn:Hd;
    [|by cbn [snd]; rewrite prep_mall_data_unfold, Hd].
  destruct (column "gender" (cols d)) as [g|] eqn:Hg;
    [|by cbn [snd]; rewrite prep_mall_data_unfold, Hd, Hg].
  cbn [snd]. rewrite prep_mall_data_unfold. cbn [objects np_random].
  rewrite lookup_insert_eq.
  assert (column "gender" (cols (mall_frame d g)) = Some g) as ->.
  { unfold mall_frame. rewrite column_setitem. by rewrite decide_False. }
  assert (mall_frame (mall_frame d g) g = mall_frame d g) as ->.
  { unfold mall_frame, setitem. cbn [index cols]. by rewrite set_column_idemp. }
  by rewrite insert_insert_eq.
Qed.

Lemma mall_splits_Ok d' train test validate :
  mall_splits d' = Ok (train, test, validate) →
  ∃ train_and_validate p1 q1 p2 q2,
    "gender" ∈ columns d' ∧
    drawn (nrows d') p1 q1 ∧
    iloc (without "gender" d') p1 = Ok train_and_validate ∧
    iloc (without "gender" d') q1 = Ok test ∧
    drawn (nrows train_and_validate) p2 q2 ∧
    iloc train_and_validate p2 = Ok train ∧
    iloc train_and_validate q2 = Ok validate.
Proof.
  unfold mall_splits. intros H.
  apply bind_Ok in H as (x & Hx & H). rewrite drop_columns_single in Hx.
  case_decide as Hg; [|done]. injection Hx as <-.
  apply bind_Ok in H as ([p1 q1] & Hp & H).
  apply bind_Ok in H as (tv & Htv & H). apply bind_Ok in H as (te & Hte & H).
  apply bind_Ok in H as ([p2 q2] & Hq & H).
  apply bind_Ok in H as (tr & Htr & H). apply bind_Ok in H as (va & Hva & H).
  injection H as <- <- <-. exists tv, p1, q1, p2, q2. split_and!; try done.
  - eexists _, _, _, _. rewrite <- Hp. apply surjective_pairing.
  - eexists _, _, _, _. rewrite <- Hq. apply surjective_pairing.
Qed.

(** X8.  The three frames [prep_mall_data] returns, in the order train,
    test, validate, are a partition of the rows of the prepared table (the
    caller's table with is_female and without gender): the second is the
    test part of the first split, the first and the third are the two parts
    of the second split of the rest.  So the row counts add up and the rows
    of the three together are those of the prepared table. *)
Theorem prep_mall_data_partition (w w' : world rng_state) (df : nat)
    train test validate :
  prep_mall_data df w = (Ok (train, test, validate), w') →
  ∃ d g,
    objects w !! df = Some d ∧ column "gender" (cols d) = Some g ∧
    let prepared := without "gender" (mall_frame d g) in
    (∃ rest p1 q1 p2 q2,
       drawn (nrows prepared) p1 q1 ∧
       iloc prepared p1 = Ok rest ∧ iloc prepared q1 = Ok test ∧
       drawn (nrows rest) p2 q2 ∧
       iloc rest p2 = Ok train ∧ iloc rest q2 = Ok validate) ∧
    nrows train + nrows validate + nrows test = nrows d ∧
    rows train ++ rows validate ++ rows test ≡ₚ rows prepared ∧
    index train ++ index validate ++ index test ≡ₚ index d.
Proof using Type cv_split_partition.
  rewrite prep_mall_data_unfold.
  destruct (objects w !! df) as [d|] eqn:Hd; [|done].
  destruct (column "gender" (cols d)) as [g|] eqn:Hg; [|done].
  intros [= H _]. exists d, g. split; [done|]. split; [done|]. cbv zeta.
  apply mall_splits_Ok in H
    as (tv & p1 & q1 & p2 & q2 & _ & Hp1 & Htv & Hte & Hp2 & Htr & Hva).
  change (nrows (mall_frame d g)) with (nrows (without "gender" (mall_frame d g))) in Hp1.
  split; [by exists tv, p1, q1, p2, q2|].
  apply drawn_partition in Hp1, Hp2.
  destruct (split_rows _ _ _ _ _ Hp1 Htv Hte) as (Hr1 & Hi1 & Hn1 & _).
  destruct (split_rows _ _ _ _ _ Hp2 Htr Hva) as (Hr2 & Hi2 & Hn2 & _).
  change (nrows (without "gender" (mall_frame d g))) with (nrows d) in Hn1.
  change (index (without "gender" (mall_frame d g))) with (index d) in Hi1.
  split_and!.
  - lia.
  - by rewrite app_assoc, Hr2, Hr1.
  - by rewrite app_assoc, Hi2, Hi1.
Qed.


Lemma iloc_column (df d : DataFrame) (positions : list nat) c s :
  iloc df positions = Ok d → column c (cols df) = Some s →
  ∃ s', column c (cols d) = Some s' ∧ take_rows positions s = Ok s'.
Proof.
  rewrite iloc_Ok. intros [_ H]. revert H. generalize (cols d).
  induction (cols df) as [|[c1 s1] cs IH]; intros cs' H Hc; [done|].
  inversion H as [|? [c2 s2] ? cs2 [Hn Ht] Hrest]; subst. simpl in *. subst c2.
  case_decide; [injection Hc as <-; eauto|by apply IH].
Qed.


(** *** telco_split and telco_split_xy: errors, shapes and alignment *)

(** X10.  The splits are stratified on churn, so a table without a churn
    column cannot be split: [telco_split] raises AttributeError and draws
    nothing, and so does [telco_split_xy] whatever the target, also one that
    is not a column (its KeyError would only come after the two splits). *)
Theorem telco_split_no_churn df (w : world rng_state) :
  "churn" ∉ columns df →
  telco_split df w = (Raise (AttributeError "churn"), w) ∧
  ∀ target, telco_split_xy df target w = (Raise (AttributeError "churn"), w).
Proof.
  intros Hc%column_None.
  assert (telco_split df w = (Raise (AttributeError "churn"), w)) as H.
  { unfold telco_split, mbind at 1, M_bind, lift, getattr. by rewrite Hc. }
  split; [done|]. intros target. by rewrite telco_split_xy_unfold, H.
Qed.

Lemma telco_split_positions df (w w' : world rng_state) train validate test :
  telco_split df w = (Ok (train, validate, test), w') →
  ∃ ptrain pvalidate ptest,
    iloc df ptrain = Ok train ∧ iloc df pvalidate = Ok validate ∧
    iloc df ptest = Ok test.
Proof.
  intros H. apply telco_split_Ok in H
    as (_ & tv & p1 & q1 & p2 & q2 & _ & Htv & Hte & _ & Htr & Hva).
  exists (omap (p1 !!.) p2), (omap (p1 !!.) q2), q1.
  split_and!; [by eapply iloc_compose..|done].
Qed.

Lemma iloc_rectangular (df d : DataFrame) (positions : list nat) :
  iloc df positions = Ok d → rectangular d.
Proof.
  intros H. pose proof (iloc_nrows _ _ _ H) as Hn. apply iloc_Ok in H as [_ H].
  unfold rectangular. rewrite Hn. clear Hn.
  induction H as [|p q ps qs [_ Ht] _ IH]; constructor; [|done].
  by apply take_length in Ht.
Qed.

(** X11.  Each of the three frames [telco_split] returns has the columns of
    the table, in the same order, and one cell per row in every column,
    whether or not the table itself has; so it is a well-formed frame when
    the table's column names are distinct. *)
Theorem telco_split_keeps_columns df (w w' : world rng_state) train validate test :
  telco_split df w = (Ok (train, validate, test), w') →
  Forall (λ part, columns part = columns df ∧ rectangular part ∧
                  (NoDup (columns df) → wf_frame part))
    [train; validate; test].
Proof.
  intros (p1 & p2 & p3 & H1 & H2 & H3)%telco_split_positions.
  assert (∀ p part, iloc df p = Ok part →
            columns part = columns df ∧ rectangular part ∧
            (NoDup (columns df) → wf_frame part)) as Hpart.
  { intros p part H. pose proof (iloc_columns _ _ _ H) as Hc.
    pose proof (iloc_rectangular _ _ _ H) as Hr.
    split_and!; [done..|]. intros Hnd. split; [congruence|done]. }
  repeat (apply Forall_cons_2; [by eapply Hpart|]). apply Forall_nil_2.
Qed.

Lemma iloc_without (df d : DataFrame) (positions : list nat) c :
  iloc df positions = Ok d → iloc (without c df) positions = Ok (without c d).
Proof.
  rewrite !iloc_Ok. intros [Hi H]. split; [done|]. unfold without. cbn [cols].
  induction H as [|[c1 s1] [c2 s2] ps qs [Hn Ht] _ IH]; [constructor|].
  simpl in Hn. subst c2. rewrite !filter_cons. simpl.
  case_decide; [by constructor|done].
Qed.

Lemma columns_without c df : columns (without c df) = filter (λ c', c' ≠ c) (columns df).
Proof.
  unfold columns, without. cbn [cols].
  induction (cols df) as [|[c1 s1] cs IH]; [done|].
  rewrite fmap_cons, !filter_cons. simpl. case_decide; csimpl; by rewrite IH.
Qed.

(** X12.  Splitting and separating the target commute: the X and y that
    [telco_split_xy] returns for a partition are the rows of the table
    without the target, and the cells of the target column, at the same
    positions.  So each y has one cell per row of its X, in the order of the
    rows, and no X has a column of the target's name, while it has every
    other column of the table. *)
Theorem telco_split_xy_aligned df target (w w' : world rng_state) xy :
  telco_split_xy df target w = (Ok xy, w') →
  ∃ y ptrain pvalidate ptest,
    column target (cols df) = Some y ∧
    iloc (without target df) ptrain = Ok (X_train xy) ∧
    take_rows ptrain y = Ok (y_train xy) ∧
    iloc (without target df) pvalidate = Ok (X_validate xy) ∧
    take_rows pvalidate y = Ok (y_validate xy) ∧
    iloc (without target df) ptest = Ok (X_test xy) ∧
    take_rows ptest y = Ok (y_test xy) ∧
    length (y_train xy) = nrows (X_train xy) ∧
    length (y_validate xy) = nrows (X_validate xy) ∧
    length (y_test xy) = nrows (X_test xy) ∧
    Forall (λ X, columns X = filter (λ c, c ≠ target) (columns df))
      [X_train xy; X_validate xy; X_test xy].
Proof.
  rewrite telco_split_xy_unfold.
  destruct (telco_split df w) as [[[[train validate] test]|e] w1] eqn:H; [|done].
  intros [= Hxy _].
  destruct (telco_split_positions _ _ _ _ _ _ H) as (p1 & p2 & p3 & H1 & H2 & H3).
  apply bind_Ok in Hxy as ([X1 y1] & Hf1 & Hxy).
  apply bind_Ok in Hxy as ([X2 y2] & Hf2 & Hxy).
  apply bind_Ok in Hxy as ([X3 y3] & Hf3 & [= <-]). cbn [X_train y_train
    X_validate y_validate X_test y_test fst snd].
  assert (∀ part X yy, feature_target part target = Ok (X, yy) →
            X = without target part ∧ column target (cols part) = Some yy) as Hft.
  { intros part X yy Hf. unfold feature_target in Hf.
    apply bind_Ok in Hf as (X' & HX & Hf). apply bind_Ok in Hf as (y' & Hy & [= <- <-]).
    rewrite drop_columns_single in HX. case_decide; [|done].
    injection HX as <-. by apply getitem_Ok in Hy. }
  apply Hft in Hf1 as [-> Hy1], Hf2 as [-> Hy2], Hf3 as [-> Hy3].
  assert (∃ y, column target (cols df) = Some y) as [y Hy].
  { apply column_is_Some. change (target ∈ columns df).
    rewrite <- (iloc_columns _ _ _ H1). apply column_is_Some. by eexists. }
  destruct (iloc_column _ _ _ _ _ H1 Hy) as (y1' & Hy1' & Ht1).
  destruct (iloc_column _ _ _ _ _ H2 Hy) as (y2' & Hy2' & Ht2).
  destruct (iloc_column _ _ _ _ _ H3 Hy) as (y3' & Hy3' & Ht3).
  rewrite Hy1 in Hy1'. rewrite Hy2 in Hy2'. rewrite Hy3 in Hy3'.
  injection Hy1' as <-. injection Hy2' as <-. injection Hy3' as <-.
  exists y, p1, p2, p3. split_and!; try done; try by apply iloc_without.
  - rewrite (take_length _ _ _ Ht1). symmetry. by apply (iloc_nrows df train).
  - rewrite (take_length _ _ _ Ht2). symmetry. by apply (iloc_nrows df validate).
  - rewrite (take_length _ _ _ Ht3). symmetry. by apply (iloc_nrows df test).
  - repeat (apply Forall_cons_2;
              [rewrite columns_without; f_equal; by eapply iloc_columns|]).
    apply Forall_nil_2.
Qed.

(** *** prep_telco: when it returns, and what the returned frame holds *)

Lemma mapM_result_fmap {A B : Type} (f : A → result B) (g : A → B) (l : list A) k :
  (∀ x y, f x = Ok y → y = g x) → mapM f l = Ok k → k = g <$> l.
Proof.
  intros Hfg H%mapM_result_Ok. induction H as [|x y l k Hxy _ IH]; [done|].
  csimpl. by rewrite (Hfg _ _ Hxy), IH.
Qed.

Lemma getattr_eq df c s : getattr df c = Ok s → s = column_or_empty df c.
Proof. intros H%getattr_Ok. unfold column_or_empty. by rewrite H. Qed.

Lemma getitem_eq df c s : getitem df c = Ok s → s = column_or_empty df c.
Proof. intros H%getitem_Ok. unfold column_or_empty. by rewrite H. Qed.

Lemma set_index_eq df c df' :
  set_index df c = Ok df' →
  df' = mkDF (column_or_empty df c) (filter (λ p, p.1 ≠ c) (cols df)).
Proof.
  unfold set_index. intros (s & ->%getitem_eq & [= <-])%bind_Ok. done.
Qed.

Lemma map_column_eq df c d df' : map_column df c d = Ok df' → df' = map_total df c d.
Proof.
  unfold map_column. intros (s & ->%getattr_eq & [= <-])%bind_Ok. done.
Qed.

Lemma drop_columns_eq df labels df' :
  drop_columns df labels = Ok df' → df' = drop_total df labels.
Proof. unfold drop_columns. destruct (first_missing _ _); [done|]. by intros [= <-]. Qed.

Lemma Series_add_eq a b s : Series_add a b = Ok s → s = add_total a b.
Proof.
  unfold Series_add, add_total. apply mapM_result_fmap. by intros p y ->.
Qed.

Lemma tenure_yrs_eq t q y :
  Series_truediv t 12 = Ok q → Series_round2 q = Ok y →
  y = tenure_in_years <$> t.
Proof.
  unfold Series_truediv, Series_round2. rewrite !mapM_result_Ok. intros Hq Hy.
  revert y Hy. induction Hq as [|v q1 t q Hv _ IH]; intros y Hy.
  - by inversion Hy.
  - inversion Hy as [|? y1 ? ys Hy1 Hys]; subst. csimpl. unfold tenure_in_years at 1.
    rewrite Hv. cbn [mbind result_bind]. rewrite Hy1. cbn [or_nan]. f_equal. by apply IH.
Qed.

(** Whenever [prep_telco] returns, it returns the frame of its statements. *)
Lemma prep_telco_steps_eq raw out : prep_telco raw = Ok out → out = prep_telco_steps raw.
Proof.
  intros H. unfold prep_telco in H. cbv zeta in H.
  repeat match type of H with
         | _ ≫= _ = Ok _ =>
             let x := fresh "x" in let Hx := fresh "Hx" in
             apply bind_Ok in H as (x & Hx & H);
             first [ apply set_index_eq in Hx | apply map_column_eq in Hx
                   | apply getattr_eq in Hx | apply getitem_eq in Hx
                   | apply drop_columns_eq in Hx | apply Series_add_eq in Hx
                   | idtac ]
         end.
  injection H as <-.
  match goal with
  | Hq : Series_truediv _ _ = Ok _, Hy : Series_round2 _ = Ok _ |- _ =>
      pose proof (tenure_yrs_eq _ _ _ Hq Hy) as Ey; clear Hq Hy
  end.
  subst. reflexivity.
Qed.

Lemma drop_columns_present df labels :
  Forall (λ c, is_Some (column c (cols df))) labels →
  drop_columns df labels = Ok (drop_total df labels).
Proof.
  intros H. unfold drop_columns, first_missing.
  replace (filter (λ c, c ∉ columns df) labels) with (@nil string); [done|].
  symmetry. induction H as [|c labels Hc _ IH]; [done|].
  rewrite filter_cons, decide_False; [done|].
  intros Hn. by apply Hn, column_is_Some.
Qed.

Lemma column_drop_total df (labels : list string) c :
  column c (cols (drop_total df labels)) =
    if decide (c ∈ labels) then None else column c (cols df).
Proof. apply column_filter_notin. Qed.

Lemma Series_map_numeric d s : Forall (λ v, is_text v = false) (Series_map d s).
Proof.
  unfold Series_map. destruct (mapM _ s); apply Forall_fmap, Forall_true; done.
Qed.

Lemma mapM_result_cons {A B : Type} (f : A → result B) (x : A) (l : list A) :
  mapM f (x :: l) = y ← f x; k ← mapM f l; Ok (y :: k).
Proof. reflexivity. Qed.

Lemma Series_add_numeric a b :
  Forall (λ v, is_text v = false) a → Forall (λ v, is_text v = false) b →
  Series_add a b = Ok (add_total a b) ∧ Forall (λ v, is_text v = false) (add_total a b).
Proof.
  intros Ha. revert b. unfold Series_add, add_total.
  induction Ha as [|x a Hx _ IH]; intros b Hb; [done|].
  destruct Hb as [|y b Hy Hb]; [done|].
  cbn [zip zip_with]. rewrite mapM_result_cons, fmap_cons.
  destruct (IH _ Hb) as [-> IH2]. cbn [fst snd].
  destruct x as [?|x|x], y as [?|y|y]; try done; cbn [add_value mbind result_bind or_nan];
    split; try done; by constructor.
Qed.

Lemma tenure_numeric (t : Series) :
  Forall (λ v, is_text v = false) t →
  ∃ q y, Series_truediv t 12 = Ok q ∧ Series_round2 q = Ok y.
Proof.
  unfold Series_truediv, Series_round2.
  induction 1 as [|v t Hv _ (q & y & Hq & Hy)]; [by exists [], []|].
  rewrite mapM_result_cons, Hq.
  destruct v as [?|z|f]; [done|..]; cbn [truediv_value mbind result_bind];
    eexists _, _; (split; [done|]); rewrite mapM_result_cons, Hy; done.
Qed.

Lemma tenure_text (t : Series) :
  Exists (λ v, is_text v = true) t → Series_truediv t 12 = Raise TypeError.
Proof.
  unfold Series_truediv. induction 1 as [v t Hv|v t _ IH]; rewrite mapM_result_cons.
  - by destruct v.
  - rewrite IH. by destruct v.
Qed.

Lemma getattr_present df c s : column c (cols df) = Some s → getattr df c = Ok s.
Proof. apply getattr_Ok. Qed.

Lemma getattr_absent df c :
  column c (cols df) = None → getattr df c = Raise (AttributeError c).
Proof. unfold getattr. by intros ->. Qed.

Lemma getitem_present df c s : column c (cols df) = Some s → getitem df c = Ok s.
Proof. apply getitem_Ok. Qed.

Lemma getitem_absent df c :
  column c (cols df) = None → getitem df c = Raise (KeyError c).
Proof. unfold getitem. by intros ->. Qed.

Lemma set_index_present df c s :
  column c (cols df) = Some s →
  set_index df c = Ok (mkDF s (filter (λ p, p.1 ≠ c) (cols df))).
Proof. intros H. unfold set_index. by rewrite (getitem_present _ _ _ H). Qed.

Lemma set_index_absent df c :
  column c (cols df) = None → set_index df c = Raise (KeyError c).
Proof. intros H. unfold set_index. by rewrite (getitem_absent _ _ H). Qed.

Lemma map_column_present df c d s :
  column c (cols df) = Some s →
  map_column df c d = Ok (setitem df c (Series_map d s)).
Proof. intros H. unfold map_column. by rewrite (getattr_present _ _ _ H). Qed.

Lemma map_column_absent df c d :
  column c (cols df) = None → map_column df c d = Raise (AttributeError c).
Proof. intros H. unfold map_column. by rewrite (getattr_absent _ _ H). Qed.

Ltac col_solve :=
  cbn [cols];
  repeat first [ rewrite column_setitem | rewrite column_drop_total
               | rewrite column_filter_ne | column_step | progress cbn [cols] ];
  first [ eassumption | reflexivity ].

Ltac read_attr c :=
  erewrite (getattr_present _ c) by col_solve; cbn [mbind result_bind].


Lemma first_missing_None labels have :
  first_missing labels have = None ↔ ∀ c, c ∈ labels → c ∈ have.
Proof.
  unfold first_missing. rewrite head_None. split.
  - intros H c Hc. destruct (decide (c ∈ have)) as [|Hn]; [done|].
    assert (c ∈ filter (λ c, c ∉ have) labels) as Hin by (by apply list_elem_of_filter).
    rewrite H in Hin. by apply elem_of_nil in Hin.
  - intros H. induction labels as [|c labels IH]; [done|].
    rewrite filter_cons_False by (intros Hn; apply Hn, H; left).
    apply IH. intros c' Hc'. apply H. by right.
Qed.

(** The column [c] is the first one of [required_columns] that the frame
    [raw] lacks, the ones before it having been found. *)
Ltac first_missing_solve raw :=
  unfold first_missing, required_columns;
  repeat (rewrite filter_cons_False
            by (let Hn := fresh in
                intros Hn; apply Hn, (column_is_Some _ (cols raw)); by eexists));
  rewrite filter_cons_True by (by apply column_None); reflexivity.

Ltac missing raw c :=
  cbn [mbind result_bind]; left; exists c;
  split; [first_missing_solve raw|]; split; [|reflexivity].

Ltac read_or_raise c raw x H :=
  destruct (column c (cols raw)) as [x|] eqn:H;
  [ first [ erewrite (map_column_present _ c) by col_solve
          | erewrite (getattr_present _ c) by col_solve
          | erewrite (set_index_present _ c) by col_solve ];
    cbn [mbind result_bind]
  | first [ erewrite (map_column_absent _ c) by col_solve
          | erewrite (getattr_absent _ c) by col_solve
          | erewrite (set_index_absent _ c) by col_solve ];
    missing raw c; discriminate ].

Lemma prep_telco_cases raw :
  match prep_telco raw with
  | Ok _ =>
      first_missing required_columns (columns raw) = None ∧
      Forall (λ v, is_text v = false) (column_or_empty raw "tenure")
  | Raise e =>
      (∃ c, first_missing required_columns (columns raw) = Some c ∧
            (c = "total_charges" →
             Forall (λ v, is_text v = false) (column_or_empty raw "tenure")) ∧
            e = if decide (c ∈ ["customer_id"; "total_charges"])
                then KeyError c else AttributeError c) ∨
      (e = TypeError ∧
       Exists (λ v, is_text v = true) (column_or_empty raw "tenure") ∧
       ∀ c, c ∈ required_columns → c ≠ "total_charges" → c ∈ columns raw)
  end.
Proof.
  unfold prep_telco. cbv zeta.
  read_or_raise "customer_id" raw ids Hid.
  read_or_raise "online_security" raw r1 H1.
  read_or_raise "online_backup" raw r2 H2.
  read_or_raise "device_protection" raw r3 H3.
  read_or_raise "tech_support" raw r4 H4.
  read_or_raise "streaming_tv" raw r5 H5.
  read_or_raise "streaming_movies" raw r6 H6.
  read_attr "online_security".
  read_attr "online_backup".
  destruct (Series_add_numeric _ _ (Series_map_numeric addon_dict r1)
              (Series_map_numeric addon_dict r2)) as [-> N1].
  cbn [mbind result_bind]. read_attr "device_protection".
  destruct (Series_add_numeric _ _ N1 (Series_map_numeric addon_dict r3)) as [-> N2].
  cbn [mbind result_bind]. read_attr "tech_support".
  destruct (Series_add_numeric _ _ N2 (Series_map_numeric addon_dict r4)) as [-> N3].
  cbn [mbind result_bind]. read_attr "streaming_tv".
  destruct (Series_add_numeric _ _ N3 (Series_map_numeric addon_dict r5)) as [-> N4].
  cbn [mbind result_bind]. read_attr "streaming_movies".
  destruct (Series_add_numeric _ _ N4 (Series_map_numeric addon_dict r6)) as [-> N5].
  cbn [mbind result_bind].
  rewrite drop_columns_present
    by (repeat (apply Forall_cons_2; [eexists; col_solve|]); apply Forall_nil_2).
  cbn [mbind result_bind].
  read_or_raise "phone_service" raw ph Hph.
  read_or_raise "gender" raw g Hg.
  rewrite drop_columns_present
    by (repeat (apply Forall_cons_2; [eexists; col_solve|]); apply Forall_nil_2).
  cbn [mbind result_bind].
  read_or_raise "partner" raw pa Hpa.
  read_or_raise "dependents" raw de Hde.
  read_or_raise "churn" raw ch Hch.
  read_or_raise "contract_type_id" raw ct Hct.
  read_or_raise "internet_service_type_id" raw it Hit.
  read_or_raise "tenure" raw t Ht.
  assert (column_or_empty raw "tenure" = t) as Et
    by (unfold column_or_empty; by rewrite Ht).
  destruct (decide (Forall (λ v, is_text v = false) t)) as [Hnum|Htext].
  2:{ apply not_Forall_Exists in Htext; [|apply _].
      assert (Exists (λ v, is_text v = true) t) as Htext'.
      { apply (Exists_impl _ _ _ Htext). intros v Hv.
        by apply not_false_iff_true. }
      rewrite (tenure_text _ Htext'). cbn [mbind result_bind]. right.
      rewrite Et. split_and!; [done..|].
      intros c Hc Hne. apply column_is_Some. unfold required_columns in Hc.
      repeat (apply elem_of_cons in Hc as [->|Hc]; [first [done|by eexists]|]).
      by apply elem_of_nil in Hc. }
  destruct (tenure_numeric _ Hnum) as (q & y & -> & Hy). cbn [mbind result_bind].
  rewrite Hy. cbn [mbind result_bind].
  match goal with
  | |- context [getitem (rename ?df short_names) "total_charges"] =>
      assert (column "total_charges" (cols (rename df short_names))
              = column "total_charges" (cols raw)) as Etc
  end.
  { destruct (short_names_other "total_charges") as [Hr Hm]; [by_compute..|].
    rewrite (rename_column _ _ _ "total_charges" Hr Hm) by done. col_solve. }
  destruct (column "total_charges" (cols raw)) as [tc|] eqn:Htc.
  2:{ rewrite (getitem_absent _ _ Etc). missing raw "total_charges". by rewrite Et. }
  rewrite (getitem_present _ _ _ Etc). cbn [mbind result_bind].
  read_attr "total_charges".
  split; [|by rewrite Et].
  apply first_missing_None.
  intros c Hc. apply column_is_Some. unfold required_columns in Hc.
  repeat (apply elem_of_cons in Hc as [->|Hc]; [by eexists|]).
  by apply elem_of_nil in Hc.
Qed.




(** *** prep_telco: the frame before the rows are cut down *)

Lemma rename_untouched df c :
  c ∉ short_names.*1 → c ∉ short_names.*2 →
  column c (cols (rename df short_names)) = column c (cols df).
Proof.
  intros H1 H2. destruct (short_names_other c H1 H2) as [Hr Hm].
  by apply rename_column.
Qed.

Lemma rename_target df c old :
  (old, c) ∈ short_names → column c (cols df) = None →
  column c (cols (rename df short_names)) = column old (cols df).
Proof.
  intros H Hn. destruct (short_names_target c old H) as [Hr Hm].
  apply rename_column; auto.
Qed.

Lemma column_derive df c src f c' :
  column c' (cols (derive df c src f)) =
    if decide (c' = c) then Some (f (column_or_empty df src)) else column c' (cols df).
Proof. apply column_setitem. Qed.

Lemma column_map_total df c d c' :
  column c' (cols (map_total df c d)) =
    if decide (c' = c) then Some (Series_map d (column_or_empty df c))
    else column c' (cols df).
Proof. apply column_setitem. Qed.

Lemma column_sum_add_ons df c :
  c ≠ "num_add_ons" → column c (cols (sum_add_ons df)) = column c (cols df).
Proof. intros H. unfold sum_add_ons. cbv zeta. by rewrite column_setitem, decide_False. Qed.

Ltac col_norm :=
  repeat first [ rewrite column_derive | rewrite column_map_total
               | rewrite column_sum_add_ons by done
               | rewrite column_drop_total
               | rewrite column_filter_ne | column_step | progress cbn [cols] ].

(** The same for a column that the function does not write, given the
    inequalities between its name and the names written. *)
Ltac col_other :=
  repeat first
    [ rewrite decide_False by assumption
    | rewrite decide_False
        by (unfold addon_columns; rewrite !not_elem_of_cons;
            split_and!; first [assumption | apply not_elem_of_nil])
    | rewrite column_derive | rewrite column_map_total
    | rewrite column_sum_add_ons by assumption
    | rewrite column_drop_total
    | rewrite column_filter_ne | progress cbn [cols] ].

Lemma rows_total_charges raw :
  column "total_charges" (cols (prep_telco_rows raw)) =
    Some (to_numeric (column_or_empty raw "total_charges")).
Proof.
  unfold prep_telco_rows. cbv zeta. rewrite column_derive, decide_True by done.
  do 2 f_equal. unfold column_or_empty at 1. f_equal.
  rewrite rename_untouched by by_compute. by col_norm.
Qed.

Lemma rows_mapped raw c d :
  (c, d) ∈ [("partner", yes_no_dict); ("churn", yes_no_dict)] →
  column c (cols (prep_telco_rows raw)) = Some (Series_map d (column_or_empty raw c)).
Proof.
  intros H. unfold prep_telco_rows. cbv zeta.
  repeat (apply elem_of_cons in H as [[= -> ->]|H]); [..|by apply elem_of_nil in H];
    rewrite column_derive, decide_False by done;
    rewrite rename_untouched by by_compute; col_norm;
    do 2 f_equal; unfold column_or_empty; f_equal; by col_norm.
Qed.

Lemma rows_renamed raw c old d :
  (c, old, d) ∈ [("phone", "phone_service", yes_no_dict);
                 ("depend", "dependents", yes_no_dict);
                 ("contract_type", "contract_type_id", contract_dict);
                 ("internet_type", "internet_service_type_id", internet_dict)] →
  c ∉ columns raw →
  column c (cols (prep_telco_rows raw)) = Some (Series_map d (column_or_empty raw old)).
Proof.
  intros H Hc%column_None. unfold prep_telco_rows. cbv zeta.
  repeat (apply elem_of_cons in H as [[= -> -> ->]|H]); [..|by apply elem_of_nil in H];
    rewrite column_derive, decide_False by done;
    match goal with
    | |- column ?c _ = Some (Series_map _ (column_or_empty _ ?old)) =>
        rewrite (rename_target _ c old); [|by_compute|by col_norm]
    end; col_norm;
    do 2 f_equal; unfold column_or_empty; f_equal; by col_norm.
Qed.

Lemma rows_is_male raw :
  column "is_male" (cols (prep_telco_rows raw)) =
    Some (Series_map gender_dict (column_or_empty raw "gender")).
Proof.
  unfold prep_telco_rows. cbv zeta. rewrite column_derive, decide_False by done.
  rewrite rename_untouched by by_compute. col_norm.
  do 2 f_equal. unfold column_or_empty. f_equal. by col_norm.
Qed.

Lemma rows_tenure_yrs raw :
  column "tenure_yrs" (cols (prep_telco_rows raw)) =
    Some (tenure_in_years <$> column_or_empty raw "tenure").
Proof.
  unfold prep_telco_rows. cbv zeta. rewrite column_derive, decide_False by done.
  rewrite rename_untouched by by_compute. col_norm.
  do 2 f_equal. unfold column_or_empty. f_equal. by col_norm.
Qed.

Lemma rows_other raw c :
  c ∉ written_columns →
  column c (cols (prep_telco_rows raw)) = column c (cols raw).
Proof.
  intros Hc. unfold written_columns, addon_columns, short_names in Hc. cbn in Hc.
  rewrite !not_elem_of_cons in Hc. destruct_and!.
  unfold prep_telco_rows. cbv zeta. rewrite column_derive, decide_False by done.
  rewrite rename_untouched
    by (unfold short_names; cbn; rewrite !not_elem_of_cons;
        split_and!; first [assumption | apply not_elem_of_nil]).
  by col_other.
Qed.

(** A prepared row is the row of that frame at a surviving position. *)
Lemma prep_telco_row raw out c s j i :
  rectangular raw → prep_telco raw = Ok out →
  column c (cols (prep_telco_rows raw)) = Some s → nrows raw ≤ length s →
  surviving raw !! j = Some i →
  cell out c j = s !! i ∧ i < nrows raw.
Proof.
  intros Hrect Hout Hs Hlen Hj.
  pose proof (prep_telco_cases raw) as Hall. rewrite Hout in Hall.
  destruct Hall as [Hall _]. pose proof (proj1 (first_missing_None _ _) Hall) as Hin.
  destruct (proj2 (column_is_Some "total_charges" (cols raw)))
    as [tc Htc]; [apply Hin; by_compute|].
  pose proof (rectangular_length _ _ _ Hrect Htc) as Ltc.
  rewrite (surviving_eq raw tc Htc (eq_sym Ltc)) in Hj.
  assert (i < length tc) as Hlt
    by (eapply kept_in_range, list_elem_of_lookup_2, Hj).
  split; [|lia].
  rewrite (prep_telco_steps_eq _ _ Hout). unfold prep_telco_steps. cbv zeta.
  unfold column_or_empty at 1. rewrite rows_total_charges. cbn [default id].
  rewrite to_numeric_mask. unfold column_or_empty. rewrite Htc. cbn [default id].
  apply cell_getitem_mask; [done|lia|done].
Qed.

(** *** prep_telco: what each prepared row holds *)

(** X16.  A column that [prep_telco] does not write (tenure and
    monthly_charges are such columns) is carried along: in every prepared
    row it holds the cell of the raw row the prepared row comes from. *)
Theorem prep_telco_keeps_other_columns raw out c :
  rectangular raw → prep_telco raw = Ok out →
  c ∉ written_columns → c ∈ columns raw →
  ∀ j i, surviving raw !! j = Some i →
    ∃ v, cell raw c i = Some v ∧ cell out c j = Some v.
Proof.
  intros Hrect Hout Hc [s Hs]%column_is_Some j i Hj.
  pose proof (rectangular_length _ _ _ Hrect Hs) as Ls.
  destruct (prep_telco_row raw out c s j i Hrect Hout) as [Hcell Hlt];
    [by rewrite rows_other | lia | done |].
  assert (is_Some (s !! i)) as [v Hv] by (apply lookup_lt_is_Some; lia).
  exists v. rewrite Hcell, (cell_column _ _ _ _ Hs). done.
Qed.

Ltac elem_solve :=
  first [ apply list_elem_of_here | apply list_elem_of_further; elem_solve ].

Lemma Series_map_lookup_None d s i v :
  s !! i = Some v → dict_get d v = None → Series_map d s !! i = Some (VFloat nan).
Proof.
  intros Hv Hz. unfold Series_map. destruct (mapM _ s) as [zs|] eqn:E.
  - apply mapM_Some in E.
    destruct (Forall2_lookup_l _ _ _ _ _ E Hv) as (z' & _ & Hd). congruence.
  - rewrite list_lookup_fmap, Hv. simpl. by rewrite Hz.
Qed.

Lemma binary_cell (one zero : string) (s : Series) i v :
  one ≠ zero → s !! i = Some v →
  ∃ n, Series_map [(VStr one, 1%Z); (VStr zero, 0%Z)] s !! i = Some n ∧
       (v = VStr one → is_number 1 n) ∧
       (v = VStr zero → is_number 0 n) ∧
       (v ≠ VStr one → v ≠ VStr zero → n = VFloat nan).
Proof.
  intros Hne Hv.
  destruct (dict_get [(VStr one, 1%Z); (VStr zero, 0%Z)] v) as [z|] eqn:Hz.
  - destruct (Series_map_lookup _ _ _ _ _ Hv Hz) as (n & Hn & Hnum).
    exists n. split; [done|]. simpl in Hz.
    destruct v as [t|t|t]; simpl in Hz; try done.
    destruct (bool_decide_reflect (one = t)) as [->|Hne1].
    + injection Hz as <-. split_and!; [done|congruence|done].
    + destruct (bool_decide_reflect (zero = t)) as [->|Hne0]; [|done].
      injection Hz as <-. split_and!; [congruence|done|done].
  - exists (VFloat nan). split; [by apply (Series_map_lookup_None _ _ _ v)|].
    simpl in Hz. split_and!; [intros ->|intros ->|done]; simpl in Hz.
    + by rewrite bool_decide_true in Hz.
    + rewrite (bool_decide_true (zero = zero)) in Hz by done.
      by rewrite bool_decide_false in Hz.
Qed.

(** X17.  The five two-valued columns are encoded cell by cell, and a cell
    that holds neither of the two texts never raises: in every prepared row,
    phone, partner, depend and churn hold 1 where the raw row says Yes and 0
    where it says No, is_male holds 1 for Male and 0 for Female, and any
    other cell (another spelling, a number, a missing value) has become NaN.
    The raw table is taken not to have columns already named phone or
    depend. *)
Theorem prep_telco_binary_columns raw out c src one zero :
  rectangular raw → "phone" ∉ columns raw → "depend" ∉ columns raw →
  prep_telco raw = Ok out →
  (c, src, one, zero) ∈
    [("phone", "phone_service", "Yes", "No"); ("partner", "partner", "Yes", "No");
     ("depend", "dependents", "Yes", "No"); ("churn", "churn", "Yes", "No");
     ("is_male", "gender", "Male", "Female")] →
  ∀ j i, surviving raw !! j = Some i →
    ∃ v n, cell raw src i = Some v ∧ cell out c j = Some n ∧
           (v = VStr one → is_number 1 n) ∧
           (v = VStr zero → is_number 0 n) ∧
           (v ≠ VStr one → v ≠ VStr zero → n = VFloat nan).
Proof.
  intros Hrect Hphone Hdepend Hout Hin j i Hj.
  pose proof (prep_telco_cases raw) as Hall. rewrite Hout in Hall.
  destruct Hall as [Hall _]. pose proof (proj1 (first_missing_None _ _) Hall) as Hreq.
  assert (one ≠ zero ∧ src ∈ required_columns ∧
          column c (cols (prep_telco_rows raw)) =
            Some (Series_map [(VStr one, 1%Z); (VStr zero, 0%Z)]
                    (column_or_empty raw src))) as (Hne & Hsrc & Hcol).
  { repeat (apply elem_of_cons in Hin as [[= -> -> -> ->]|Hin]);
      [..|by apply elem_of_nil in Hin]; (split; [done|]); (split; [by_compute|]).
    - by apply (rows_renamed raw "phone" "phone_service" yes_no_dict); [elem_solve|].
    - apply (rows_mapped raw "partner" yes_no_dict); elem_solve.
    - by apply (rows_renamed raw "depend" "dependents" yes_no_dict); [elem_solve|].
    - apply (rows_mapped raw "churn" yes_no_dict); elem_solve.
    - apply rows_is_male. }
  destruct (proj2 (column_is_Some src (cols raw)) (Hreq src Hsrc)) as [s Hs].
  pose proof (rectangular_length _ _ _ Hrect Hs) as Ls.
  unfold column_or_empty in Hcol. rewrite Hs in Hcol. cbn [default id] in Hcol.
  destruct (prep_telco_row raw out c _ j i Hrect Hout Hcol) as [Hcell Hlt];
    [rewrite Series_map_length; lia | done |].
  assert (is_Some (s !! i)) as [v Hv] by (apply lookup_lt_is_Some; lia).
  destruct (binary_cell one zero s i v Hne Hv) as (n & Hn & H1 & H0 & Hnan).
  exists v, n. rewrite Hcell, (cell_column _ _ _ _ Hs). done.
Qed.

Lemma add_nan_r (x : float) : (x + nan)%float = nan.
Proof.
  apply is_nan_eq. unfold is_nan. rewrite FloatAxioms.eqb_spec, add_spec.
  change (Prim2SF nan) with S754_nan. by destruct (Prim2SF x) as [?|?| |? ? ?].
Qed.

Lemma add_nan_any (y : float) : (nan + y)%float = nan.
Proof. apply is_nan_eq, add_nan_l. Qed.

(** A sum of two cells that are not text is a cell that is not text, and is
    NaN as soon as one of the two is. *)
Lemma add_value_nan x y z :
  is_text x = false → is_text y = false → add_value x y = Ok z →
  is_text z = false ∧ (x = VFloat nan ∨ y = VFloat nan → z = VFloat nan).
Proof.
  intros Hx Hy Hz. destruct x as [?|x|x], y as [?|y|y]; try done;
    injection Hz as <-; (split; [done|]); intros [[=]|[=]]; subst;
    by rewrite ?add_nan_r, ?add_nan_any.
Qed.

Lemma addon_dict_unknown v : ¬ addon_domain v → dict_get addon_dict v = None.
Proof.
  intros Hv. destruct (dict_get addon_dict v) as [z|] eqn:Hz; [|done].
  exfalso. apply Hv. unfold addon_domain. destruct v as [t|t|t]; simpl in Hz; try done.
  repeat (case_bool_decide; [subst; by eauto|]). done.
Qed.

(** X18.  A cell of the six add-on columns that holds something else than
    Yes, No or No internet service does not raise and is not counted as 0:
    it makes num_add_ons NaN in its row. *)
Theorem prep_telco_num_add_ons_unknown raw out :
  rectangular raw → prep_telco raw = Ok out →
  ∀ j i vs, surviving raw !! j = Some i → addons raw i = Some vs →
    Exists (λ v, ¬ addon_domain v) vs →
    cell out "num_add_ons" j = Some (VFloat nan).
Proof.
  intros Hrect H.
  destruct (prep_telco_frame raw out Hrect H)
    as (pre & tc & Htc & _ & Hadd & _ & _ & Hcell & Hidx & Hn & Hgone).
  destruct Hadd as (r1 & r2 & r3 & r4 & r5 & r6 & s1 & s2 & s3 & s4 & s5
                    & Hr1 & Hr2 & Hr3 & Hr4 & Hr5 & Hr6
                    & Hs1 & Hs2 & Hs3 & Hs4 & Hs5 & Hsum).
  intros j i vs Hj Hvs Hex. destruct (Hidx j i Hj) as [_ Hlt].
  unfold addons, addon_columns in Hvs. simpl in Hvs.
  rewrite (cell_column _ _ _ _ Hr1), (cell_column _ _ _ _ Hr2),
    (cell_column _ _ _ _ Hr3), (cell_column _ _ _ _ Hr4),
    (cell_column _ _ _ _ Hr5), (cell_column _ _ _ _ Hr6) in Hvs.
  destruct (r1 !! i) as [v1|] eqn:H1; [|done].
  destruct (r2 !! i) as [v2|] eqn:H2; [|done].
  destruct (r3 !! i) as [v3|] eqn:H3; [|done].
  destruct (r4 !! i) as [v4|] eqn:H4; [|done].
  destruct (r5 !! i) as [v5|] eqn:H5; [|done].
  destruct (r6 !! i) as [v6|] eqn:H6; [|done].
  simpl in Hvs. injection Hvs as <-.
  assert (∀ r v, r !! i = Some v →
            ∃ m, Series_map addon_dict r !! i = Some m ∧ is_text m = false ∧
                 (¬ addon_domain v → m = VFloat nan)) as Hmap.
  { intros r v Hv.
    assert (is_Some (Series_map addon_dict r !! i)) as [m Hm].
    { apply lookup_lt_is_Some. rewrite Series_map_length. by eapply lookup_lt_Some. }
    exists m. split_and!; [done| |].
    - pose proof (Series_map_numeric addon_dict r) as Hnum.
      rewrite Forall_forall in Hnum. by eapply Hnum, list_elem_of_lookup_2.
    - intros Hd%addon_dict_unknown.
      rewrite (Series_map_lookup_None _ _ _ _ Hv Hd) in Hm. congruence. }
  destruct (Hmap _ _ H1) as (m1 & M1 & T1 & N1).
  destruct (Hmap _ _ H2) as (m2 & M2 & T2 & N2).
  destruct (Hmap _ _ H3) as (m3 & M3 & T3 & N3).
  destruct (Hmap _ _ H4) as (m4 & M4 & T4 & N4).
  destruct (Hmap _ _ H5) as (m5 & M5 & T5 & N5).
  destruct (Hmap _ _ H6) as (m6 & M6 & T6 & N6).
  destruct (Series_add_lookup _ _ _ i _ _ Hs1 M1 M2) as (z1 & Z1 & A1).
  destruct (Series_add_lookup _ _ _ i _ _ Hs2 Z1 M3) as (z2 & Z2 & A2).
  destruct (Series_add_lookup _ _ _ i _ _ Hs3 Z2 M4) as (z3 & Z3 & A3).
  destruct (Series_add_lookup _ _ _ i _ _ Hs4 Z3 M5) as (z4 & Z4 & A4).
  destruct (Series_add_lookup _ _ _ i _ _ Hs5 Z4 M6) as (z5 & Z5 & A5).
  destruct (add_value_nan _ _ _ T1 T2 A1) as [U1 P1].
  destruct (add_value_nan _ _ _ U1 T3 A2) as [U2 P2].
  destruct (add_value_nan _ _ _ U2 T4 A3) as [U3 P3].
  destruct (add_value_nan _ _ _ U3 T5 A4) as [U4 P4].
  destruct (add_value_nan _ _ _ U4 T6 A5) as [U5 P5].
  assert (z5 = VFloat nan) as ->.
  { rewrite !Exists_cons in Hex.
    destruct Hex as [E|[E|[E|[E|[E|[E|E]]]]]]; [..|by apply Exists_nil in E].
    - apply P5; left; apply P4; left; apply P3; left; apply P2; left; apply P1; left.
      by apply N1.
    - apply P5; left; apply P4; left; apply P3; left; apply P2; left; apply P1; right.
      by apply N2.
    - apply P5; left; apply P4; left; apply P3; left; apply P2; right. by apply N3.
    - apply P5; left; apply P4; left; apply P3; right. by apply N4.
    - apply P5; left; apply P4; right. by apply N5.
    - apply P5; right. by apply N6. }
  rewrite <- Z5. apply Hcell; [done| |done].
  apply lookup_lt_Some in Z5.
  pose proof (rectangular_length _ _ _ Hrect Hr1) as L1.
  pose proof (rectangular_length _ _ _ Hrect Hr2) as L2.
  pose proof (rectangular_length _ _ _ Hrect Hr3) as L3.
  pose proof (rectangular_length _ _ _ Hrect Hr4) as L4.
  pose proof (rectangular_length _ _ _ Hrect Hr5) as L5.
  pose proof (rectangular_length _ _ _ Hrect Hr6) as L6.
  pose proof (Series_add_length _ _ _ Hs1) as K1. rewrite !Series_map_length in K1.
  pose proof (Series_add_length _ _ _ Hs2) as K2. rewrite !Series_map_length in K2.
  pose proof (Series_add_length _ _ _ Hs3) as K3. rewrite !Series_map_length in K3.
  pose proof (Series_add_length _ _ _ Hs4) as K4. rewrite !Series_map_length in K4.
  pose proof (Series_add_length _ _ _ Hs5) as K5. rewrite !Series_map_length in K5.
  lia.
Qed.

Lemma same_float_eq (x y : float) : same_float x y = true → x = y.
Proof.
  unfold same_float. intros H. apply Prim2SF_inj.
  destruct (Prim2SF x) as [s|s| |s m e], (Prim2SF y) as [s'|s'| |s' m' e'];
    simpl in H; try done.
  - by apply Bool.eqb_prop in H as ->.
  - by apply Bool.eqb_prop in H as ->.
  - apply andb_prop in H as [[Hs%Bool.eqb_prop Hm%Pos.eqb_eq]%andb_prop He%Z.eqb_eq].
    by subst.
Qed.

(** For a tenure of up to a hundred years, the two roundings of
    [round(tenure / 12, 2)] (of the quotient, and of its hundredfold) do not
    add up: the result is the float nearest to the quotient's two-decimal
    value. *)
Lemma tenure_in_years_months :
  forallb (λ n, same_float (round2 (Z2F (Z.of_nat n) / Z2F 12))
                  (Z2F ((100 * Z.of_nat n + 6) / 12) / 100))
    (seq 0 1201) = true.
Proof. vm_compute. reflexivity. Qed.

(** X19.  tenure_yrs is tenure in years to two decimals: in every prepared
    row whose tenure is a whole number [t] of months, from 0 to 1200,
    tenure_yrs is the float nearest to [n / 100], where [n] is [100 t / 12]
    rounded to the nearest integer, and tenure itself is left as it was. *)
Theorem prep_telco_tenure_yrs raw out :
  rectangular raw → prep_telco raw = Ok out →
  ∀ j i t, surviving raw !! j = Some i →
    cell raw "tenure" i = Some (VInt t) → (0 ≤ t ≤ 1200)%Z →
    cell out "tenure" j = Some (VInt t) ∧
    cell out "tenure_yrs" j = Some (VFloat (Z2F ((100 * t + 6) / 12) / 100)).
Proof.
  intros Hrect Hout j i t Hj Ht Hrange.
  unfold cell in Ht. destruct (column "tenure" (cols raw)) as [s|] eqn:Hs; [|done].
  simpl in Ht. pose proof (rectangular_length _ _ _ Hrect Hs) as Ls. split.
  - destruct (prep_telco_row raw out "tenure" s j i Hrect Hout) as [-> _];
      [rewrite rows_other; [done|by_compute] | lia | done | done].
  - destruct (prep_telco_row raw out "tenure_yrs" (tenure_in_years <$> s) j i
                Hrect Hout) as [-> _]; [|rewrite length_fmap; lia|done|].
    { rewrite rows_tenure_yrs. unfold column_or_empty. by rewrite Hs. }
    rewrite list_lookup_fmap, Ht. unfold tenure_in_years.
    cbn [fmap option_fmap option_map truediv_value mbind result_bind round2_value or_nan].
    do 2 f_equal.
    pose proof tenure_in_years_months as Htab. rewrite forallb_forall in Htab.
    specialize (Htab (Z.to_nat t)). rewrite Z2Nat.id in Htab by lia.
    apply same_float_eq, Htab, in_seq. lia.
Qed.

(** *** prep_telco: the columns of the returned frame *)

Lemma columns_set_column c s (cs : list (string * Series)) :
  (set_column c s cs).*1 = if decide (c ∈ cs.*1) then cs.*1 else cs.*1 ++ [c].
Proof.
  induction cs as [|[c' s'] cs IH]; csimpl.
  - done.
  - destruct (decide (c = c')) as [->|Hne].
    + rewrite decide_True; [done|left].
    + csimpl. rewrite IH. destruct (decide (c ∈ cs.*1)).
      * rewrite decide_True; [done|by right].
      * rewrite decide_False; [done|]. rewrite not_elem_of_cons. done.
Qed.

Lemma columns_setitem_present df c s x :
  column c (cols df) = Some x → columns (setitem df c s) = columns df.
Proof.
  intros H. unfold columns, setitem. cbn [cols]. rewrite columns_set_column.
  rewrite decide_True; [done|]. apply column_is_Some. by eexists.
Qed.

Lemma columns_setitem_absent df c s :
  column c (cols df) = None → columns (setitem df c s) = columns df ++ [c].
Proof.
  intros H. unfold columns, setitem. cbn [cols]. rewrite columns_set_column.
  rewrite decide_False; [done|]. by apply column_None.
Qed.

Lemma columns_derive_present df c src f x :
  column c (cols df) = Some x → columns (derive df c src f) = columns df.
Proof. apply columns_setitem_present. Qed.

Lemma columns_derive_absent df c src f :
  column c (cols df) = None → columns (derive df c src f) = columns df ++ [c].
Proof. apply columns_setitem_absent. Qed.

Lemma columns_map_total df c d x :
  column c (cols df) = Some x → columns (map_total df c d) = columns df.
Proof. apply columns_setitem_present. Qed.

Lemma columns_sum_add_ons df :
  column "num_add_ons" (cols df) = None →
  columns (sum_add_ons df) = columns df ++ ["num_add_ons"].
Proof. apply columns_setitem_absent. Qed.

Lemma columns_filter (P : string → Prop) `{!∀ c, Decision (P c)}
    (cs : list (string * Series)) :
  (filter (λ p, P p.1) cs).*1 = filter P cs.*1.
Proof.
  induction cs as [|[c s] cs IH]; [done|]. csimpl. rewrite !filter_cons. csimpl.
  case_decide; csimpl; by rewrite IH.
Qed.

Lemma columns_drop_total df labels :
  columns (drop_total df labels) = filter (λ c, c ∉ labels) (columns df).
Proof.
  unfold columns, drop_total. cbn [cols].
  exact (columns_filter (λ c, c ∉ labels) (cols df)).
Qed.

Lemma columns_rename df m : columns (rename df m) = rename_label m <$> columns df.
Proof.
  unfold columns, rename. cbn [cols]. rewrite <- !list_fmap_compose.
  apply list_fmap_ext. by intros i [c s].
Qed.

Lemma columns_getitem_mask_eq df mask : columns (getitem_mask df mask) = columns df.
Proof.
  unfold columns, getitem_mask. cbn [cols]. rewrite <- list_fmap_compose.
  apply list_fmap_ext. by intros i [c s].
Qed.

(** The columns of the frame of the statements, for a raw table that has
    the columns read and none of the three new names. *)
Lemma prep_telco_steps_columns raw :
  (∀ c, c ∈ required_columns → c ∈ columns raw) →
  "num_add_ons" ∉ columns raw → "is_male" ∉ columns raw → "tenure_yrs" ∉ columns raw →
  columns (prep_telco_steps raw) =
    (rename_label short_names
       <$> filter (λ c, c ∉ "customer_id" :: "gender" :: addon_columns) (columns raw))
    ++ ["num_add_ons"; "is_male"; "tenure_yrs"].
Proof.
  intros Hreq Hn1%column_None Hn2%column_None Hn3%column_None.
  assert (Forall (λ c, ∃ s, column c (cols raw) = Some s) required_columns) as Hp.
  { apply Forall_forall. intros c Hc. by apply column_is_Some, Hreq. }
  unfold required_columns in Hp.
  repeat match type of Hp with
         | Forall _ (_ :: _) =>
             let H := fresh "Hcol" in
             apply Forall_cons in Hp as [[? H] Hp]
         end.
  clear Hp.
  unfold prep_telco_steps, prep_telco_rows.
  cbv zeta. rewrite columns_getitem_mask_eq.
  erewrite columns_derive_present
    by (rewrite rename_untouched by by_compute; col_norm; eassumption).
  rewrite columns_rename.
  repeat first
    [ erewrite columns_map_total by (col_norm; eassumption)
    | rewrite columns_derive_absent by (col_norm; eassumption)
    | rewrite columns_sum_add_ons by (col_norm; eassumption)
    | rewrite columns_drop_total ].
  unfold columns at 1. cbn [cols].
  assert ((filter (λ p : string * Series, p.1 ≠ "customer_id") (cols raw)).*1
          = filter (λ c, c ≠ "customer_id") (columns raw)) as ->
    by exact (columns_filter (λ c, c ≠ "customer_id") (cols raw)).
  rewrite !filter_app.
  repeat (rewrite filter_cons_True by by_compute). rewrite !filter_nil.
  rewrite !list_filter_filter, <- !app_assoc. cbn [app]. rewrite fmap_app. f_equal.
  f_equal. apply list_filter_iff. intros c. unfold addon_columns.
  rewrite !not_elem_of_cons. split; intros H; destruct_and!; split_and!; assumption.
Qed.

(** X20.  The columns of the prepared table, in order: those of the raw
    table without customer_id (now the index), gender and the six add-on
    columns, five of them under their shorter names, followed by the three
    new columns num_add_ons, is_male and tenure_yrs.  The raw table is taken
    not to have columns already named like the new ones. *)
Theorem prep_telco_columns raw out :
  "num_add_ons" ∉ columns raw → "is_male" ∉ columns raw → "tenure_yrs" ∉ columns raw →
  prep_telco raw = Ok out →
  columns out =
    (rename_label short_names
       <$> filter (λ c, c ∉ "customer_id" :: "gender" :: addon_columns) (columns raw))
    ++ ["num_add_ons"; "is_male"; "tenure_yrs"].
Proof.
  intros Hn1 Hn2 Hn3 Hout.
  pose proof (prep_telco_cases raw) as Hall. rewrite Hout in Hall.
  destruct Hall as [Hall _]. rewrite first_missing_None in Hall.
  rewrite (prep_telco_steps_eq _ _ Hout). by apply prep_telco_steps_columns.
Qed.

(** *** wrangle_grades *)

Lemma select_fmap_self {A : Type} (g : A → bool) (l : list A) :
  select (g <$> l) l = filter (λ x, g x) l.
Proof.
  induction l as [|x l IH]; csimpl; [done|]. rewrite filter_cons.
  destruct (g x); csimpl; by rewrite IH.
Qed.

Lemma select_seq {A : Type} (g : nat → bool) n (l : list A) :
  n ≤ length l →
  select (g <$> seq 0 n) l = omap (l !!.) (filter (λ i, g i) (seq 0 n)).
Proof.
  intros H. rewrite (select_omap_from _ []) by (by rewrite length_fmap, length_seq).
  rewrite length_fmap, length_seq. simpl. by rewrite select_fmap_self.
Qed.

Lemma omap_lookup_ext {A : Type} (l l' : list A) (K : list nat) :
  Forall (λ i, l !! i = l' !! i) K → omap (l !!.) K = omap (l' !!.) K.
Proof. induction 1 as [|i K Hi _ IH]; [done|]. csimpl. by rewrite Hi, IH. Qed.

Lemma blank_all_whitespace s : blank s = true → all_whitespace s = true.
Proof.
  induction s as [|a s IH]; [done|]. simpl. intros [Ha Hs]%andb_prop.
  unfold is_space in Ha. apply bool_decide_eq_true in Ha. csimpl in Ha.
  repeat (apply elem_of_cons in Ha as [->|Ha]; [by apply IH|]).
  by apply elem_of_nil in Ha.
Qed.

Lemma replace_blank_kept v : missing_cell v = false → replace_blank v = v.
Proof.
  unfold missing_cell, replace_blank. destruct v as [s|z|f]; try done.
  by destruct (all_whitespace s).
Qed.

Lemma notna_replace i (s : Series) :
  notna_at i (replace_blank <$> s) = from_option (negb ∘ missing_cell) true (s !! i).
Proof. unfold notna_at. rewrite list_lookup_fmap. by destruct (s !! i). Qed.

(** The rows [dropna] keeps after the two statements before it. *)
Lemma grades_mask csv i :
  forallb (λ p, notna_at i p.2) (cols (replace_blanks (without "student_id" csv)))
  = complete_row csv i.
Proof.
  unfold complete_row, replace_blanks, without. cbn [cols].
  induction (cols csv) as [|[c s] cs IH]; [done|].
  rewrite filter_cons. cbn [fst snd forallb]. case_decide as Hc.
  - csimpl. rewrite bool_decide_false by done. by rewrite notna_replace, IH.
  - rewrite bool_decide_true by done. by rewrite IH.
Qed.

Lemma wrangle_grades_unfold csv :
  wrangle_grades csv =
    if decide ("student_id" ∈ columns csv)
    then match astype_int_frame
                 (getitem_mask (replace_blanks (without "student_id" csv))
                    (complete_row csv <$> seq 0 (nrows csv))) with
         | Some df => Returns df
         | None => CastRaises
         end
    else Raises (KeyError "student_id").
Proof.
  unfold wrangle_grades. cbv zeta. rewrite drop_columns_single.
  case_decide; [|done]. unfold dropna.
  replace ((λ i, forallb (λ p, notna_at i p.2)
                   (cols (replace_blanks (without "student_id" csv))))
             <$> seq 0 (nrows (replace_blanks (without "student_id" csv))))
    with (complete_row csv <$> seq 0 (nrows csv)); [done|].
  apply list_fmap_ext. intros _ i _. by rewrite grades_mask.
Qed.

Lemma astype_int_frame_Some df out :
  astype_int_frame df = Some out →
  index out = index df ∧
  Forall2 (λ p q, q.1 = p.1 ∧ ∃ zs, astype_int p.2 = Some zs ∧ q.2 = VInt <$> zs)
    (cols df) (cols out).
Proof.
  unfold astype_int_frame. destruct (mapM _ _) as [cs|] eqn:E; [|done].
  intros [= <-]. split; [done|]. cbn [cols]. apply mapM_Some in E.
  eapply Forall2_impl; [exact E|]. intros [c s] [c' s']. unfold astype_int_column.
  cbn [fst snd]. destruct (astype_int s) as [zs|]; [|done]. intros [= <- <-]. eauto.
Qed.

Lemma astype_columns df out : astype_int_frame df = Some out → columns out = columns df.
Proof.
  intros [_ H]%astype_int_frame_Some. unfold columns.
  induction H as [|p q ps qs [Hn _] _ IH]; [done|]. csimpl. by rewrite Hn, IH.
Qed.

Lemma astype_column df out c s :
  astype_int_frame df = Some out → column c (cols out) = Some s →
  ∃ s1 zs, column c (cols df) = Some s1 ∧ astype_int s1 = Some zs ∧ s = VInt <$> zs.
Proof.
  intros [_ H]%astype_int_frame_Some.
  induction H as [|[c1 s1] [c2 s2] ps qs [Hn (zs & Hz & Hs)] _ IH]; [done|].
  cbn [fst snd] in *. subst c2 s2. simpl. case_decide; [|done].
  intros [= <-]. eauto.
Qed.

Lemma column_elem c (cs : list (string * Series)) s :
  column c cs = Some s → (c, s) ∈ cs.
Proof.
  induction cs as [|[c1 s1] cs IH]; [done|]. simpl. case_decide as Hc.
  - intros [= <-]. subst. left.
  - intros H. right. by apply IH.
Qed.

Lemma complete_row_cell csv i c s v :
  complete_row csv i = true → (c, s) ∈ cols csv → c ≠ "student_id" →
  s !! i = Some v → missing_cell v = false.
Proof.
  unfold complete_row. rewrite forallb_forall. intros H Hin Hc Hv.
  apply list_elem_of_In in Hin. specialize (H _ Hin). cbn [fst snd] in H.
  rewrite bool_decide_false, Hv in H by done. simpl in H.
  by apply negb_true_iff in H.
Qed.

(** X21.  The rows [wrangle_grades] returns are the rows of the file that
    have no missing cell outside student_id, in the order of the file and
    under their labels, a missing cell being a NaN or text that is empty or
    whitespace only (a cell of spaces, say); what student_id holds plays no
    part.  The columns are those of the file without student_id, and the
    cast is applied to the very cells of the file at those rows: every cell
    returned is an int. *)
Theorem wrangle_grades_rows csv out :
  rectangular csv → wrangle_grades csv = Returns out →
  columns out = filter (λ c, c ≠ "student_id") (columns csv) ∧
  index out = omap (index csv !!.) (complete_rows csv) ∧
  (∀ i, i ∈ complete_rows csv ↔
        i < nrows csv ∧
        ∀ c s v, (c, s) ∈ cols csv → c ≠ "student_id" → s !! i = Some v →
                 missing_cell v = false) ∧
  (∀ i c s t, (c, s) ∈ cols csv → c ≠ "student_id" → s !! i = Some (VStr t) →
              blank t = true → i ∉ complete_rows csv) ∧
  (∀ c s, column c (cols out) = Some s →
          ∃ s0 zs, column c (cols csv) = Some s0 ∧
                   astype_int (omap (s0 !!.) (complete_rows csv)) = Some zs ∧
                   s = VInt <$> zs).
Proof.
  intros Hrect. rewrite wrangle_grades_unfold. case_decide as Hid; [|done].
  destruct (astype_int_frame _) as [df|] eqn:E; [|done]. intros [= ->].
  assert (∀ i, i ∈ complete_rows csv ↔
               i < nrows csv ∧
               ∀ c s v, (c, s) ∈ cols csv → c ≠ "student_id" → s !! i = Some v →
                        missing_cell v = false) as Hin.
  { intros i. unfold complete_rows. rewrite list_elem_of_filter, elem_of_seq.
    rewrite Is_true_true. split.
    - intros [Hrow Hi]. split; [lia|]. intros c s v. by apply complete_row_cell.
    - intros [Hi Hall]. split; [|lia]. unfold complete_row. apply forallb_forall.
      intros [c s] Hcs%list_elem_of_In. cbn [fst snd].
      destruct (decide (c = "student_id")) as [->|Hc]; [by rewrite bool_decide_true|].
      rewrite bool_decide_false by done. simpl.
      destruct (s !! i) as [v|] eqn:Hv; [|done]. simpl.
      by rewrite (Hall c s v). }
  split_and!.
  - rewrite (astype_columns _ _ E), columns_getitem_mask_eq, <- columns_without.
    unfold replace_blanks, columns. cbn [cols]. rewrite <- list_fmap_compose.
    apply list_fmap_ext. by intros _ [c s] _.
  - destruct (astype_int_frame_Some _ _ E) as [-> _]. unfold getitem_mask.
    cbn [index replace_blanks without]. by apply select_seq.
  - done.
  - intros i c s t Hcs Hc Ht Hb [_ Hall]%Hin.
    specialize (Hall c s _ Hcs Hc Ht). unfold missing_cell in Hall. simpl in Hall.
    by rewrite (blank_all_whitespace _ Hb) in Hall.
  - intros c s Hs. destruct (astype_column _ _ _ _ E Hs) as (s1 & zs & Hs1 & Hz & ->).
    unfold getitem_mask, replace_blanks, without in Hs1. cbn [cols] in Hs1.
    rewrite !column_fmap, column_filter_ne in Hs1.
    case_decide as Hc; [done|].
    destruct (column c (cols csv)) as [s0|] eqn:Hs0; [|done]. simpl in Hs1.
    injection Hs1 as <-. exists s0, zs. split_and!; [done| |done].
    rewrite <- Hz. f_equal.
    pose proof (rectangular_length _ _ _ Hrect Hs0) as L0.
    rewrite select_seq by (rewrite length_fmap; lia).
    symmetry. apply omap_lookup_ext, Forall_forall. intros i [Hi Hall]%Hin.
    rewrite list_lookup_fmap. destruct (s0 !! i) as [v|] eqn:Hv; [|done]. simpl.
    f_equal. apply replace_blank_kept.
    by apply (Hall c s0 v); [apply column_elem|..].
Qed.

Lemma mapM_option_None {A B : Type} (f : A → option B) (l : list A) :
  mapM f l = None ↔ ∃ x, x ∈ l ∧ f x = None.
Proof.
  induction l as [|x l IH].
  - split; [done|]. intros (x & Hx & _). by apply elem_of_nil in Hx.
  - csimpl. destruct (f x) as [y|] eqn:Hy; csimpl.
    + destruct (mapM f l) as [k|] eqn:Hk; csimpl.
      * split; [done|]. intros (x' & [->|Hx']%elem_of_cons & Hn); [congruence|].
        by assert (Some k = None) by (apply IH; eauto).
      * split; [|done]. intros _. destruct (proj1 IH eq_refl) as (x' & Hx' & Hn).
        exists x'. split; [by right|done].
    + split; [|done]. intros _. exists x. split; [left|done].
Qed.

Lemma astype_int_frame_None df :
  astype_int_frame df = None ↔ ∃ p, p ∈ cols df ∧ astype_int p.2 = None.
Proof.
  unfold astype_int_frame.
  destruct (mapM astype_int_column (cols df)) as [cs|] eqn:E.
  - split; [done|]. intros (p & Hp & Hn).
    assert (mapM astype_int_column (cols df) = None) as E'; [|congruence].
    apply mapM_option_None. exists p. split; [done|].
    unfold astype_int_column. by rewrite Hn.
  - split; [|done]. intros _. apply mapM_option_None in E as (p & Hp & Hn).
    exists p. split; [done|]. unfold astype_int_column in Hn.
    by destruct (astype_int p.2).
Qed.

(** The column the cast receives for a column of the file: its cells at the
    complete rows, as they are in the file. *)
Lemma grades_cast_input csv c (s0 : Series) :
  rectangular csv → (c, s0) ∈ cols csv → c ≠ "student_id" →
  select (complete_row csv <$> seq 0 (nrows csv)) (replace_blank <$> s0)
  = omap (s0 !!.) (complete_rows csv).
Proof.
  intros Hrect Hin Hc. unfold rectangular in Hrect. rewrite Forall_forall in Hrect.
  pose proof (Hrect _ Hin) as L0. cbn [snd] in L0.
  rewrite select_seq by (rewrite length_fmap; lia).
  apply omap_lookup_ext, Forall_forall.
  intros i [Hrow _]%list_elem_of_filter. apply Is_true_true in Hrow.
  rewrite list_lookup_fmap. destruct (s0 !! i) as [v|] eqn:Hv; [|done]. simpl.
  f_equal. apply replace_blank_kept. by apply (complete_row_cell csv i c s0).
Qed.

(** X22.  What makes [wrangle_grades] raise.  Before the cast it raises only
    when the file has no student_id column, a KeyError.  The cast raises
    exactly when some column other than student_id, cut down to the rows
    without a missing cell, does not convert to ints: a cell of a row that
    is dropped never makes the call fail, whatever it holds. *)
Theorem wrangle_grades_raises csv :
  (wrangle_grades csv = Raises (KeyError "student_id") ↔ "student_id" ∉ columns csv) ∧
  (∀ e, wrangle_grades csv = Raises e → e = KeyError "student_id") ∧
  (rectangular csv →
   wrangle_grades csv = CastRaises ↔
   "student_id" ∈ columns csv ∧
   ∃ c s0, (c, s0) ∈ cols csv ∧ c ≠ "student_id" ∧
           astype_int (omap (s0 !!.) (complete_rows csv)) = None).
Proof.
  rewrite wrangle_grades_unfold. case_decide as Hid.
  - split_and!.
    + by destruct (astype_int_frame _).
    + intros e. by destruct (astype_int_frame _).
    + intros Hrect. destruct (astype_int_frame _) as [df|] eqn:E.
      * split; [done|]. intros [_ (c & s0 & Hin & Hc & Hn)]. exfalso.
        assert (astype_int_frame
                  (getitem_mask (replace_blanks (without "student_id" csv))
                     (complete_row csv <$> seq 0 (nrows csv))) = None) as E';
          [|congruence].
        apply astype_int_frame_None.
        exists (c, select (complete_row csv <$> seq 0 (nrows csv)) (replace_blank <$> s0)).
        split; [|cbn [snd]; by rewrite (grades_cast_input csv c)].
        unfold getitem_mask, replace_blanks, without. cbn [cols].
        apply list_elem_of_fmap. exists (c, replace_blank <$> s0). split; [done|].
        apply list_elem_of_fmap. exists (c, s0). split; [done|].
        by apply list_elem_of_filter.
      * split; [|done]. intros _. split; [done|].
        apply astype_int_frame_None in E as ([c s] & Hp & Hn).
        unfold getitem_mask, replace_blanks, without in Hp. cbn [cols] in Hp.
        apply list_elem_of_fmap in Hp as ([c1 s1] & [= -> ->] & Hp).
        apply list_elem_of_fmap in Hp as ([c0 s0] & [= -> ->] & Hp).
        apply list_elem_of_filter in Hp as [Hc Hin]. cbn [fst snd] in *.
        exists c0, s0. split_and!; [done..|].
        by rewrite <- (grades_cast_input csv c0 s0).
  - split_and!; [done| by intros e [= <-] |].
    intros _. split; [done|]. by intros [? _].
Qed.

Lemma select_all {A : Type} (mask : list bool) (l : list A) :
  Forall (λ b, b = true) mask → length l ≤ length mask → select mask l = l.
Proof.
  intros H. revert l. induction H as [|b mask -> _ IH]; intros [|x l] Hl; simpl in *;
    try done; [lia|]. f_equal. apply IH. lia.
Qed.

Lemma is_int_series (s : Series) :
  Forall (λ v, is_int v = true) s → ∃ zs, s = VInt <$> zs.
Proof.
  induction 1 as [|v s Hv _ [zs ->]]; [by exists []|].
  destruct v as [?|z|?]; try done. by exists (z :: zs).
Qed.

(** X23.  On a file whose columns other than student_id hold ints only,
    [wrangle_grades] does nothing but remove student_id: no row is dropped
    and no cell is changed.  (Where the C long has 64 bits, so that the cast
    of an int64 column is the identity.) *)
Theorem wrangle_grades_clean csv :
  rectangular csv → "student_id" ∈ columns csv →
  Forall (λ p, p.1 ≠ "student_id" → Forall (λ v, is_int v = true) p.2) (cols csv) →
  wrangle_grades csv = Returns (without "student_id" csv).
Proof using Type astype_int_int64.
  intros Hrect Hid Hint. rewrite wrangle_grades_unfold, decide_True by done.
  assert (Forall (λ p : string * Series, ∃ zs, p.2 = VInt <$> zs)
            (cols (without "student_id" csv))) as Hcols.
  { unfold without. cbn [cols]. apply Forall_forall.
    intros p [Hc Hp]%list_elem_of_filter. rewrite Forall_forall in Hint.
    by apply is_int_series, Hint. }
  assert (replace_blanks (without "student_id" csv) = without "student_id" csv) as ->.
  { unfold replace_blanks. destruct (without "student_id" csv) as [idx cs].
    cbn [index cols] in *. f_equal. induction Hcols as [|[c s] cs [zs Hs] _ IH]; [done|].
    cbn [snd] in Hs. subst s. csimpl. rewrite IH. do 2 f_equal.
    rewrite <- list_fmap_compose. by apply list_fmap_ext. }
  assert (Forall (λ b, b = true) (complete_row csv <$> seq 0 (nrows csv))) as Hmask.
  { apply Forall_fmap, Forall_forall. intros i _. simpl. unfold complete_row.
    apply forallb_forall. intros [c s] Hp%list_elem_of_In. cbn [fst snd].
    destruct (decide (c = "student_id")) as [->|Hc]; [by rewrite bool_decide_true|].
    rewrite bool_decide_false by done. simpl. rewrite Forall_forall in Hint.
    pose proof (Hint _ Hp Hc) as Hs. cbn [snd] in Hs. rewrite Forall_forall in Hs.
    destruct (s !! i) as [v|] eqn:Hv; [|done]. simpl.
    apply list_elem_of_lookup_2, Hs in Hv. by destruct v. }
  assert (getitem_mask (without "student_id" csv)
            (complete_row csv <$> seq 0 (nrows csv)) = without "student_id" csv) as ->.
  { unfold getitem_mask, without. cbn [index cols]. f_equal.
    - apply select_all; [done|]. by rewrite length_fmap, length_seq.
    - unfold rectangular in Hrect.
      assert (Forall (λ c : string * Series, length c.2 = nrows csv)
                (filter (λ p, p.1 ≠ "student_id") (cols csv))) as Hf.
      { apply Forall_forall. intros p [_ Hp]%list_elem_of_filter.
        rewrite Forall_forall in Hrect. by apply Hrect. }
      induction Hf as [|[c s] cs Hs _ IH]; [done|]. csimpl. rewrite IH.
      do 2 f_equal. apply select_all; [done|].
      rewrite length_fmap, length_seq. cbn [snd] in Hs. lia. }
  unfold astype_int_frame.
  assert (mapM astype_int_column (cols (without "student_id" csv))
          = Some (cols (without "student_id" csv))) as ->.
  { apply mapM_Some. induction Hcols as [|[c s] cs [zs Hs] _ IH]; constructor; [|done].
    cbn [snd] in Hs. subst s. unfold astype_int_column. cbn [fst snd].
    by rewrite astype_int_int64. }
  by destruct (without "student_id" csv).
Qed.

(** *** prep_telco, telco_split_xy and telco_X_scale, one after the other *)

Lemma rename_churn c : rename_label short_names c = "churn" ↔ c = "churn".
Proof.
  unfold short_names, rename_label. repeat case_decide; subst; split; done.
Qed.

Lemma filter_fmap_comm {A B : Type} (f : A → B) (P : B → Prop)
    `{!∀ y, Decision (P y)} (l : list A) :
  filter P (f <$> l) = f <$> filter (λ x, P (f x)) l.
Proof.
  induction l as [|x l IH]; [done|]. csimpl. rewrite !filter_cons.
  destruct (decide (P (f x))); csimpl; by rewrite IH.
Qed.

Lemma telco_split_xy_columns df target (w w' : world rng_state) xy :
  telco_split_xy df target w = (Ok xy, w') →
  Forall (λ X, columns X = filter (λ c, c ≠ target) (columns df))
    [X_train xy; X_validate xy; X_test xy].
Proof.
  rewrite telco_split_xy_unfold.
  destruct (telco_split df w) as [[[[train validate] test]|e] w1] eqn:H; [|done].
  intros [= Hxy _].
  destruct (telco_split_positions _ _ _ _ _ _ H) as (p1 & p2 & p3 & H1 & H2 & H3).
  apply bind_Ok in Hxy as ([X1 y1] & Hf1 & Hxy).
  apply bind_Ok in Hxy as ([X2 y2] & Hf2 & Hxy).
  apply bind_Ok in Hxy as ([X3 y3] & Hf3 & [= <-]).
  cbn [X_train X_validate X_test fst snd].
  assert (∀ part X yy, feature_target part target = Ok (X, yy) →
            X = without target part) as Hft.
  { intros part X yy Hf. unfold feature_target in Hf.
    apply bind_Ok in Hf as (X' & HX & Hf). apply bind_Ok in Hf as (y' & Hy & [= <- <-]).
    rewrite drop_columns_single in HX. case_decide; [|done]. by injection HX as <-. }
  apply Hft in Hf1 as ->, Hf2 as ->, Hf3 as ->.
  repeat (apply Forall_cons_2;
            [rewrite columns_without; f_equal; by eapply iloc_columns|]).
  apply Forall_nil_2.
Qed.

Lemma check_array_length X a : check_array X = Ok a → length a = length (cols X).
Proof.
  unfold check_array. repeat case_decide; try done.
  intros Hm%mapM_result_Ok. symmetry. by eapply Forall2_length.
Qed.

(** X24.  The three steps chained, with churn as the target.  The columns
    of each X that [telco_split_xy] makes of a prepared table are the raw
    columns that are neither customer_id, gender, churn nor an add-on, under
    their new names and in the raw order, followed by num_add_ons, is_male
    and tenure_yrs.  So when the raw table has its nine other columns in the
    order contract_type_id, phone_service, internet_service_type_id,
    senior_citizen, partner, dependents, tenure, monthly_charges,
    total_charges, the columns of each X are the twelve names that
    [telco_X_scale] assigns by position.  And whenever [telco_X_scale]
    returns for these X, the raw table has exactly nine other columns, and
    the names it assigns are the names the columns had exactly when those
    nine, renamed, are the first nine of its list, in its order. *)
Theorem telco_pipeline_columns raw df (w w' : world rng_state) xy :
  "num_add_ons" ∉ columns raw → "is_male" ∉ columns raw → "tenure_yrs" ∉ columns raw →
  prep_telco raw = Ok df → telco_split_xy df "churn" w = (Ok xy, w') →
  let others :=
    filter (λ c, c ∉ "customer_id" :: "gender" :: "churn" :: addon_columns)
      (columns raw) in
  Forall (λ X, columns X = (rename_label short_names <$> others)
                           ++ ["num_add_ons"; "is_male"; "tenure_yrs"])
    [X_train xy; X_validate xy; X_test xy] ∧
  (others = ["contract_type_id"; "phone_service"; "internet_service_type_id";
             "senior_citizen"; "partner"; "dependents"; "tenure";
             "monthly_charges"; "total_charges"] →
   Forall (λ X, columns X = scaled_columns) [X_train xy; X_validate xy; X_test xy]) ∧
  (∀ a b c, telco_X_scale (X_train xy) (X_validate xy) (X_test xy) = Ok (a, b, c) →
     length others = 9 ∧
     (columns a = columns (X_train xy) ↔
      rename_label short_names <$> others = take 9 scaled_columns)).
Proof.
  intros Hn1 Hn2 Hn3 Hout Hxy others.
  pose proof (prep_telco_cases raw) as Hall. rewrite Hout in Hall.
  destruct Hall as [Hall _]. rewrite first_missing_None in Hall.
  pose proof (prep_telco_steps_columns raw Hall Hn1 Hn2 Hn3) as Hcols.
  rewrite <- (prep_telco_steps_eq _ _ Hout) in Hcols.
  pose proof (telco_split_xy_columns _ _ _ _ _ Hxy) as HX. rewrite Hcols in HX.
  assert (filter (λ c, c ≠ "churn")
            ((rename_label short_names
                <$> filter (λ c, c ∉ "customer_id" :: "gender" :: addon_columns)
                      (columns raw))
             ++ ["num_add_ons"; "is_male"; "tenure_yrs"])
          = (rename_label short_names <$> others)
            ++ ["num_add_ons"; "is_male"; "tenure_yrs"]) as E.
  { rewrite filter_app. f_equal.
    rewrite (filter_fmap_comm (rename_label short_names) (λ c, c ≠ "churn")).
    f_equal. rewrite list_filter_filter. apply list_filter_iff. intros c.
    rewrite rename_churn, !not_elem_of_cons.
    split; intros H; destruct_and!; split_and!; assumption. }
  rewrite E in HX. clear E. split; [done|].
  assert (columns (X_train xy)
          = (rename_label short_names <$> others)
            ++ ["num_add_ons"; "is_male"; "tenure_yrs"]) as HXt
    by exact (Forall_lookup_1 _ _ 0 _ HX eq_refl).
  split.
  - intros E. rewrite E in HX. exact HX.
  - intros a b c Hs.
    destruct (telco_X_scale_Ok _ _ _ _ _ _ Hs)
      as (tr & va & te & Htr & _ & _ & Ltr & _ & _ & -> & _ & _).
    apply check_array_length in Htr.
    assert (length (columns (X_train xy)) = 12) as L12
      by (unfold columns; rewrite length_fmap; lia).
    assert (length others = 9) as L9.
    { rewrite HXt, length_app, length_fmap in L12. simpl in L12. lia. }
    split; [done|]. unfold columns at 1. cbn [cols].
    rewrite fst_zip
      by (rewrite length_zip_with; unfold scaled_columns; simpl; lia).
    rewrite HXt.
    change scaled_columns
      with (take 9 scaled_columns ++ ["num_add_ons"; "is_male"; "tenure_yrs"]) at 1.
    split.
    + intros [E _]%app_inj_1; [done|by rewrite length_fmap, L9].
    + by intros ->.
Qed.

(** *** prep_telco: the returned frame is well formed *)

Lemma select_length {A B : Type} (mask : list bool) (l : list A) (k : list B) :
  length l = length k → length (select mask l) = length (select mask k).
Proof.
  revert l k. induction mask as [|b mask IH]; intros [|x l] [|y k] Hl; simpl in *;
    try done. destruct b; simpl; rewrite (IH l k) by lia; done.
Qed.

Lemma select_sublist {A : Type} (mask : list bool) (l : list A) :
  select mask l `sublist_of` l.
Proof.
  revert l. induction mask as [|b mask IH]; intros [|x l]; simpl;
    try apply sublist_nil_l. destruct b; [by apply sublist_skip|by apply sublist_cons].
Qed.

Lemma rectangular_setitem df c s :
  rectangular df → length s = nrows df → rectangular (setitem df c s).
Proof.
  unfold rectangular, setitem, nrows. cbn [index cols]. intros H Hs.
  induction (cols df) as [|[c1 s1] cs IH]; simpl; [by repeat constructor|].
  apply Forall_cons in H as [H1 H2]. case_decide; constructor; auto.
Qed.

Lemma rectangular_derive df c src f x :
  rectangular df → column src (cols df) = Some x →
  (∀ s : Series, length (f s) = length s) → rectangular (derive df c src f).
Proof.
  intros H Hx Hf. apply rectangular_setitem; [done|]. rewrite Hf.
  unfold column_or_empty. rewrite Hx. by apply (rectangular_length df src).
Qed.

Lemma rectangular_map_total df c d x :
  rectangular df → column c (cols df) = Some x → rectangular (map_total df c d).
Proof. intros H Hx. eapply rectangular_derive; [done..|]. apply Series_map_length. Qed.

Lemma add_total_length a b : length (add_total a b) = length a `min` length b.
Proof. unfold add_total. by rewrite length_fmap, length_zip. Qed.

Lemma rectangular_sum_add_ons df x1 x2 x3 x4 x5 x6 :
  rectangular df →
  column "online_security" (cols df) = Some x1 →
  column "online_backup" (cols df) = Some x2 →
  column "device_protection" (cols df) = Some x3 →
  column "tech_support" (cols df) = Some x4 →
  column "streaming_tv" (cols df) = Some x5 →
  column "streaming_movies" (cols df) = Some x6 →
  rectangular (sum_add_ons df).
Proof.
  intros H H1 H2 H3 H4 H5 H6. unfold sum_add_ons. cbv zeta.
  apply rectangular_setitem; [done|]. unfold column_or_empty.
  rewrite H1, H2, H3, H4, H5, H6. cbn [default id]. rewrite !add_total_length.
  rewrite (rectangular_length _ _ _ H H1), (rectangular_length _ _ _ H H2),
    (rectangular_length _ _ _ H H3), (rectangular_length _ _ _ H H4),
    (rectangular_length _ _ _ H H5), (rectangular_length _ _ _ H H6). lia.
Qed.

Lemma rectangular_drop_total df labels : rectangular df → rectangular (drop_total df labels).
Proof.
  unfold rectangular, drop_total, nrows. cbn [index cols]. intros H.
  apply Forall_forall. intros p [_ Hp]%list_elem_of_filter.
  rewrite Forall_forall in H. by apply H.
Qed.

Lemma rectangular_rename df m : rectangular df → rectangular (rename df m).
Proof.
  unfold rectangular, rename, nrows. cbn [index cols]. intros H.
  apply Forall_fmap. eapply Forall_impl; [exact H|]. by intros [c s].
Qed.

Lemma rectangular_getitem_mask df mask :
  rectangular df → rectangular (getitem_mask df mask).
Proof.
  unfold rectangular, getitem_mask, nrows. cbn [index cols]. intros H.
  apply Forall_fmap. eapply Forall_impl; [exact H|]. intros [c s] Hs.
  cbn [prod_map fst snd id] in *. by apply select_length.
Qed.

Lemma rectangular_rows raw :
  rectangular raw → (∀ c, c ∈ required_columns → c ∈ columns raw) →
  rectangular (prep_telco_rows raw).
Proof.
  intros Hrect Hreq.
  assert (Forall (λ c, ∃ s, column c (cols raw) = Some s) required_columns) as Hp.
  { apply Forall_forall. intros c Hc. by apply column_is_Some, Hreq. }
  unfold required_columns in Hp.
  repeat match type of Hp with
         | Forall _ (_ :: _) =>
             let H := fresh "Hcol" in
             apply Forall_cons in Hp as [[? H] Hp]
         end.
  clear Hp. unfold prep_telco_rows. cbv zeta.
  eapply rectangular_derive;
    [|rewrite rename_untouched by by_compute; col_norm; eassumption
     |apply to_numeric_length].
  apply rectangular_rename.
  repeat first
    [ eapply rectangular_map_total; [|col_norm; eassumption]
    | eapply rectangular_derive;
        [|col_norm; eassumption
         |intros; first [apply Series_map_length | apply length_fmap]]
    | apply rectangular_drop_total
    | eapply rectangular_sum_add_ons; [|col_norm; reflexivity..] ].
  unfold rectangular, nrows. cbn [index cols]. unfold column_or_empty.
  match goal with
  | H : column "customer_id" _ = Some _ |- _ =>
      rewrite H; pose proof (rectangular_length _ _ _ Hrect H) as Lid
  end.
  cbn [default id]. apply Forall_forall. intros p [_ Hp]%list_elem_of_filter.
  unfold rectangular in Hrect. rewrite Forall_forall in Hrect.
  by rewrite (Hrect p Hp).
Qed.

Lemma rename_label_cases c :
  rename_label short_names c = c ∧ c ∉ short_names.*1 ∨
  (c, rename_label short_names c) ∈ short_names.
Proof.
  unfold rename_label, short_names. repeat case_decide; subst;
    first [ right; by_compute
          | left; split; [done|]; csimpl; rewrite !not_elem_of_cons;
            split_and!; first [assumption | apply not_elem_of_nil] ].
Qed.

(** X25.  [prep_telco] keeps a table well formed: for a raw table with one
    cell per row in every column and distinct column names, none of them one
    of the eight names the function introduces, the prepared table has one
    cell per row in every column and distinct column names; and its row
    labels, the customer identifiers, are distinct when those of the raw
    table are. *)
Theorem prep_telco_well_formed raw out :
  wf_frame raw →
  Forall (λ c, c ∉ columns raw)
    ["num_add_ons"; "is_male"; "tenure_yrs"; "contract_type"; "phone";
     "internet_type"; "senior"; "depend"] →
  prep_telco raw = Ok out →
  wf_frame out ∧
  ∀ ids, column "customer_id" (cols raw) = Some ids → NoDup ids → NoDup (index out).
Proof.
  intros [Hnd Hrect] Hnew Hout.
  pose proof (prep_telco_cases raw) as Hall. rewrite Hout in Hall.
  destruct Hall as [Hall _]. rewrite first_missing_None in Hall.
  rewrite !Forall_cons in Hnew.
  destruct Hnew as (N1 & N2 & N3 & N4 & N5 & N6 & N7 & N8 & _).
  pose proof (prep_telco_steps_columns raw Hall N1 N2 N3) as Hcols.
  rewrite (prep_telco_steps_eq _ _ Hout). split; [split|].
  - rewrite Hcols. apply NoDup_app. split_and!.
    + apply NoDup_fmap_2_strong; [|by apply NoDup_filter].
      intros x y [_ Hx]%list_elem_of_filter [_ Hy]%list_elem_of_filter E.
      assert (∀ c, c ∈ columns raw → c ∉ short_names.*2) as Htarget.
      { intros c Hc. unfold short_names. csimpl. rewrite !not_elem_of_cons.
        split_and!; [by intros ->..|apply not_elem_of_nil]. }
      assert (∀ c t, c ∈ columns raw → (c, t) ∈ short_names →
                     rename_label short_names c = t) as Hsrc.
      { intros c t _ Hct. unfold short_names in Hct.
        repeat (apply elem_of_cons in Hct as [[= -> ->]|Hct]; [done|]).
        by apply elem_of_nil in Hct. }
      destruct (rename_label_cases x) as [[Ex Hx']|Hx'],
               (rename_label_cases y) as [[Ey Hy']|Hy'].
      * congruence.
      * exfalso. apply (Htarget x Hx). rewrite <- Ex, E.
        apply list_elem_of_fmap. by exists (y, rename_label short_names y).
      * exfalso. apply (Htarget y Hy). rewrite <- Ey, <- E.
        apply list_elem_of_fmap. by exists (x, rename_label short_names x).
      * rewrite E in Hx'. remember (rename_label short_names y) as t eqn:Et.
        clear Et E. unfold short_names in Hx', Hy'.
        repeat (apply elem_of_cons in Hx' as [[= Hx1 Hx2]|Hx']; [|]);
          [..|by apply elem_of_nil in Hx'];
          repeat (apply elem_of_cons in Hy' as [[= Hy1 Hy2]|Hy']; [|]);
          try (by apply elem_of_nil in Hy'); congruence.
    + intros c (x & -> & [_ Hx]%list_elem_of_filter)%list_elem_of_fmap Hin.
      destruct (rename_label_cases x) as [[Ex _]|Hx'].
      * rewrite Ex in Hin.
        repeat (apply elem_of_cons in Hin as [->|Hin]; [done|]).
        by apply elem_of_nil in Hin.
      * remember (rename_label short_names x) as t eqn:Et. clear Et.
        unfold short_names in Hx'.
        repeat (apply elem_of_cons in Hx' as [[= Hx1 Hx2]|Hx']; [|]);
          [..|by apply elem_of_nil in Hx']; rewrite Hx2 in Hin;
          repeat (apply elem_of_cons in Hin as [[=]|Hin]);
          by apply elem_of_nil in Hin.
    + by_compute.
  - apply rectangular_getitem_mask. by apply rectangular_rows.
  - intros ids Hids Hnd'. unfold prep_telco_steps, getitem_mask. cbv zeta.
    cbn [index]. eapply sublist_NoDup; [|apply select_sublist].
    unfold prep_telco_rows. cbv zeta. cbn [index derive setitem rename map_total
      drop_total sum_add_ons]. unfold column_or_empty at 1. by rewrite Hids.
Qed.
End Prepare.

(** ** The statements at the small instance *)

Lemma demo_cv_split_partition g test_size n stratify train test g' :
  demo_cv_split g test_size n stratify = (Ok (train, test), g') →
  train ++ test ≡ₚ seq 0 n.
Proof.
  unfold demo_cv_split. case_decide as Hn; [done|]. intros [= <- <- _].
  destruct n as [|n]; [lia|]. simpl. rewrite Nat.sub_0_r.
  symmetry. apply Permutation_cons_append.
Qed.

Lemma demo_str_to_num_blank s : blank s = true → demo_str_to_num s = None.
Proof.
  unfold demo_str_to_num. intros Hb. repeat case_decide; subst; done.
Qed.

Lemma demo_raw_rectangular : rectangular demo_raw.
Proof. unfold rectangular. simpl. repeat constructor. Qed.

(** C1 at the instance: the three rows go to three partitions of one row. *)
Lemma telco_split_partition_witness :
  ∃ train validate test,
    telco_split Z id demo_cv_split demo_prepared demo_world
      = (Ok (train, validate, test), demo_world) ∧
    nrows train + nrows validate + nrows test = nrows demo_prepared ∧
    rows train ++ rows validate ++ rows test ≡ₚ rows demo_prepared.
Proof.
  eexists _, _, _. split; [vm_compute; reflexivity|].
  destruct (telco_split_partition Z id demo_cv_split demo_cv_split_partition
              demo_prepared demo_world demo_world _ _ _ eq_refl)
    as (_ & Hn & Hrows & _).
  split; [exact Hn | exact Hrows].
Defined.

(** C3 at the instance: the third raw customer, the second prepared row, has
    all six add-ons. *)
Lemma prep_telco_num_add_ons_witness :
  ∃ out,
    rectangular demo_raw ∧ prep_telco demo_str_to_num demo_raw = Ok out ∧
    surviving demo_str_to_num demo_raw !! 1 = Some 2 ∧
    addons demo_raw 2 = Some (replicate 6 (VStr "Yes")) ∧
    Forall addon_domain (replicate 6 (VStr "Yes")) ∧
    (∀ c, c ∈ addon_columns → c ∉ columns out) ∧
    ∃ n, cell out "num_add_ons" 1 = Some n ∧ is_number 6 n.
Proof.
  eexists. split; [exact demo_raw_rectangular|].
  split; [vm_compute; reflexivity|]. split; [reflexivity|]. split; [reflexivity|].
  assert (Forall addon_domain (replicate 6 (VStr "Yes"))) as Hdom
    by (repeat constructor).
  split; [exact Hdom|].
  destruct (prep_telco_num_add_ons demo_str_to_num demo_raw _
              demo_raw_rectangular eq_refl) as (Hgone & _ & Hrow).
  split; [exact Hgone|].
  destruct (Hrow 1 2 eq_refl) as [_ Hv].
  destruct (Hv _ eq_refl Hdom) as [_ Hn]. exact Hn.
Defined.

(** C4 at the instance: the first raw customer has contract code 2 and
    internet code 1. *)
Lemma prep_telco_rebase_witness :
  ∃ out,
    rectangular demo_raw ∧
    ("contract_type" ∉ columns demo_raw) ∧ ("internet_type" ∉ columns demo_raw) ∧
    prep_telco demo_str_to_num demo_raw = Ok out ∧
    surviving demo_str_to_num demo_raw !! 0 = Some 0 ∧
    (∃ n, cell out "contract_type" 0 = Some n ∧ is_number 1 n) ∧
    (∃ n, cell out "internet_type" 0 = Some n ∧ is_number 1 n).
Proof.
  assert ("contract_type" ∉ columns demo_raw) as H1
    by (apply (bool_decide_unpack _); vm_compute; exact I).
  assert ("internet_type" ∉ columns demo_raw) as H2
    by (apply (bool_decide_unpack _); vm_compute; exact I).
  eexists. split; [exact demo_raw_rectangular|]. split; [exact H1|].
  split; [exact H2|]. split; [vm_compute; reflexivity|]. split; [reflexivity|].
  destruct (prep_telco_rebase demo_str_to_num demo_raw _
              demo_raw_rectangular H1 H2 eq_refl 0 0 eq_refl) as (_ & Hc & Hi).
  split.
  - apply (Hc 2%Z eq_refl). lia.
  - apply (Hi 1%Z eq_refl). lia.
Defined.

(** C5 at the instance: the customer with the blank total_charges is
    dropped and the two others are kept. *)
Lemma prep_telco_drops_unparsed_witness :
  ∃ out,
    rectangular demo_raw ∧ prep_telco demo_str_to_num demo_raw = Ok out ∧
    nrows out = 2 ∧ (1 ∉ surviving demo_str_to_num demo_raw) ∧
    index out !! 0 = Some (VStr "0002-ORFBO") ∧
    cell out "total_charges" 0 = Some (VFloat 100.5).
Proof.
  eexists. split; [exact demo_raw_rectangular|].
  split; [vm_compute; reflexivity|].
  destruct (prep_telco_drops_unparsed demo_str_to_num demo_str_to_num_blank
              demo_raw _ demo_raw_rectangular eq_refl)
    as (Hn & Hrow & _ & Hblank).
  split; [exact Hn|]. split; [exact (Hblank 1 " " eq_refl eq_refl)|].
  destruct (Hrow 0 0 eq_refl) as (Hid & v & Hv & _ & _ & Hf).
  split; [exact Hid|]. injection Hv as <-.
  exact (Hf "100.5" 100.5%float eq_refl eq_refl).
Defined.

(** C6, refuted as stated: on the training example, the column
    monthly_charges, 18.25 and 118.75, is scaled to 0 and
    0.9999999999999999, so its maximum is not 1 although its minimum and
    maximum differ. *)
Lemma telco_X_scale_max_not_one :
  ∃ a b c,
    telco_X_scale demo_py_float scale_example_train scale_example_validate
      scale_example_validate = Ok (a, b, c) ∧
    column "monthly_charges" (cols scale_example_train)
      = Some [VFloat 18.25; VFloat 118.75] ∧
    column "monthly_charges" (cols a)
      = Some [VFloat 0; VFloat 0x1.fffffffffffffp-1] ∧
    (0x1.fffffffffffffp-1 <? 1)%float = true.
Proof. eexists _, _, _. vm_compute. split_and!; reflexivity. Defined.

(** C6 as the code has it, at the instance: the column monthly_charges of
    the training example, whose scaled minimum is exactly 0 and whose scaled
    maximum is the scaled 118.75. *)
Lemma telco_X_scale_fit_on_train_witness :
  ∃ a b c,
    telco_X_scale demo_py_float scale_example_train scale_example_validate
      scale_example_validate = Ok (a, b, c) ∧
    a = mkDF (index scale_example_train)
          (zip scaled_columns
             ((λ col, scaled_series col col) <$>
                [[0; 2]; [0; 1]; [0; 2]; [0; 1]; [0; 1]; [0; 1]; [1; 72];
                 [18.25; 118.75]; [18.75; 8684.75]; [0; 6]; [0; 1];
                 [0.25; 6]]%float)) ∧
    is_finite (nanmin [18.25; 118.75]%float * fit_scale [18.25; 118.75]%float)
      = true ∧
    nanmin (scale_with [18.25; 118.75]%float <$> [18.25; 118.75]%float) = 0%float ∧
    nanmax (scale_with [18.25; 118.75]%float <$> [18.25; 118.75]%float)
      = scale_with [18.25; 118.75]%float (nanmax [18.25; 118.75]%float).
Proof.
  destruct (telco_X_scale demo_py_float scale_example_train scale_example_validate
              scale_example_validate) as [[[a b] c]|e] eqn:E.
  - destruct (proj1 (telco_X_scale_fit_on_train demo_py_float) _ _ _ _ _ _ E)
      as (tr & va & te & Htr & _ & _ & Ha & _ & _ & Hmin).
    vm_compute in Htr. injection Htr as <-.
    exists a, b, c. split; [reflexivity|]. split; [exact Ha|].
    split; [reflexivity|].
    exact (Forall_lookup_1 _ _ 7 _ Hmin eq_refl eq_refl).
  - vm_compute in E. discriminate E.
Defined.

(** C7 at the instance: splitting off the target churn, and a target that is
    not a column. *)
Lemma telco_split_xy_projection_witness :
  ∃ train validate test xy e,
    telco_split Z id demo_cv_split demo_prepared demo_world
      = (Ok (train, validate, test), demo_world) ∧
    telco_split_xy Z id demo_cv_split demo_prepared "churn" demo_world
      = (Ok xy, demo_world) ∧
    X_train xy = without "churn" train ∧
    column "churn" (cols train) = Some (y_train xy) ∧
    (telco_split_xy Z id demo_cv_split demo_prepared "label" demo_world).1 = Raise e.
Proof.
  assert ("churn" ∈ columns demo_prepared) as Hin
    by (apply (bool_decide_unpack _); vm_compute; exact I).
  assert ("label" ∉ columns demo_prepared) as Hout
    by (apply (bool_decide_unpack _); vm_compute; exact I).
  destruct (telco_split_xy_projection Z id demo_cv_split
              demo_prepared "churn" demo_world) as [Hok _].
  destruct (telco_split_xy_projection Z id demo_cv_split
              demo_prepared "label" demo_world) as [_ Herr].
  destruct (Hok Hin _ _ _ _ eq_refl) as (xy & Hxy & HX & Hy & _).
  destruct (Herr Hout) as [e He].
  eexists _, _, _, xy, e. split; [reflexivity|].
  split; [exact Hxy|]. split; [exact HX|]. split; [exact Hy | exact He].
Defined.

(** C8 at the instance. *)
Lemma prep_telco_example_witness :
  demo_str_to_num "100.5" = Some (inr 100.5%float) ∧
  prep_telco demo_str_to_num (example_raw (VStr "0002-ORFBO"))
    = Ok (example_prepared (VStr "0002-ORFBO")).
Proof.
  split; [reflexivity|].
  exact (proj1 (prep_telco_example demo_str_to_num (VStr "0002-ORFBO") eq_refl)).
Defined.

(** C9 at the instance: the caller's mall table has a fifth column after the
    call. *)
Lemma prep_mall_data_mutates_argument_witness :
  let w := mkWorld {[ 0 := demo_mall ]} 0%Z in
  objects w !! 0 = Some demo_mall ∧
  ∃ d', objects (prep_mall_data Z id demo_cv_split 0 w).2 !! 0 = Some d' ∧
        columns d' = columns demo_mall ++ ["is_female"] ∧ d' ≠ demo_mall.
Proof.
  intros w. split; [reflexivity|].
  assert ("is_female" ∉ columns demo_mall) as Hnew
    by (apply (bool_decide_unpack _); vm_compute; exact I).
  destruct (prep_mall_data_mutates_argument Z id demo_cv_split w 0 demo_mall _
              eq_refl eq_refl) as [Hd' Hne].
  eexists. split; [exact Hd'|]. split; [reflexivity | exact (Hne Hnew)].
Defined.

(** C10 at the instance. *)
Lemma telco_split_xy_agrees_witness :
  ∃ train validate test xy,
    telco_split Z id demo_cv_split demo_prepared demo_world
      = (Ok (train, validate, test), demo_world) ∧
    telco_split_xy Z id demo_cv_split demo_prepared "churn" demo_world
      = (Ok xy, demo_world) ∧
    insert_column (X_train xy) 2 "churn" (y_train xy) = train ∧
    insert_column (X_validate xy) 2 "churn" (y_validate xy) = validate ∧
    insert_column (X_test xy) 2 "churn" (y_test xy) = test.
Proof.
  assert (NoDup (columns demo_prepared)) as Hnd
    by (apply (bool_decide_unpack _); vm_compute; exact I).
  assert ("churn" ∈ columns demo_prepared) as Hin
    by (apply (bool_decide_unpack _); vm_compute; exact I).
  pose proof (telco_split_xy_agrees Z id demo_cv_split
                demo_prepared "churn" demo_world Hnd Hin) as H.
  destruct (telco_split Z id demo_cv_split demo_prepared demo_world)
    as [[[[train validate] test]|e] w'] eqn:E.
  - destruct H as (xy & Hxy & H1 & H2 & H3).
    vm_compute in E. injection E as <- <- <- <-.
    eexists _, _, _, xy. split; [reflexivity|]. split; [exact Hxy|].
    split; [exact H1|]. split; [exact H2 | exact H3].
  - vm_compute in E. discriminate E.
Defined.

(** ** The module run on the small tables *)

(** The raw table of three customers prepared: the customer with the blank
    total_charges is gone, and total_charges, parsed from 100.5 and 1889, is
    a float column. *)
Example prep_telco_demo :
  prep_telco demo_str_to_num demo_raw =
    Ok (mkDF [VStr "0002-ORFBO"; VStr "0004-TLHLJ"]
          [("senior", [VInt 0; VInt 1]); ("partner", [VInt 1; VInt 0]);
           ("depend", [VInt 1; VInt 0]); ("tenure", [VInt 9; VInt 4]);
           ("phone", [VInt 1; VInt 0]); ("internet_type", [VInt 1; VInt 2]);
           ("contract_type", [VInt 1; VInt 0]);
           ("monthly_charges", [VFloat 65.5; VFloat 74.5]);
           ("total_charges", [VFloat 100.5; VFloat 1889]);
           ("churn", [VInt 0; VInt 1]); ("num_add_ons", [VInt 3; VInt 6]);
           ("is_male", [VInt 0; VInt 1]);
           ("tenure_yrs", [VFloat 0.75; VFloat 0x1.51eb851eb851fp-2])]).
Proof. vm_compute. reflexivity. Qed.

(** A split without a seed, which the module never asks for, draws from the
    global generator and leaves it advanced: the state the seeded calls are
    independent of is really there. *)
Example train_test_split_unseeded :
  (train_test_split Z id demo_cv_split demo_prepared f0_15 None None demo_world).2
    = mkWorld ∅ 1%Z ∧
  (train_test_split Z id demo_cv_split demo_prepared f0_15 (Some 666%Z) None
     demo_world).2 = demo_world.
Proof. split; vm_compute; reflexivity. Qed.

(** ** The further properties at the small instance *)

(** X3 at the instance: a training column holding 5 twice. *)
Lemma telco_X_scale_constant_column_witness :
  is_finite 5 = true ∧ [5; 5]%float ≠ [] ∧ Forall (λ x, x = 5%float) [5; 5]%float ∧
  fit_scale [5; 5]%float = 1%float ∧
  Forall (λ y, y = 0%float) (scale_with [5; 5]%float <$> [5; 5]%float) ∧
  ∀ x, scale_with [5; 5]%float x = (x * 1 + (0 - 5))%float.
Proof.
  assert (Forall (λ x, x = 5%float) [5; 5]%float) as Hall by (repeat constructor).
  split; [reflexivity|]. split; [discriminate|]. split; [exact Hall|].
  exact (telco_X_scale_constant_column 5 [5; 5]%float eq_refl
           ltac:(discriminate) Hall).
Defined.

(** X4 at the instance: the column monthly_charges of the training
    example. *)
Lemma telco_X_scale_keeps_order_witness :
  fitted demo_py_float scale_example_train [18.25; 118.75]%float ∧
  is_finite (nanmin [18.25; 118.75]%float * fit_scale [18.25; 118.75]%float) = true ∧
  (scale_with [18.25; 118.75]%float 20 <=? scale_with [18.25; 118.75]%float 120.5)%float
    = true ∧
  (0 <=? scale_with [18.25; 118.75]%float 20)%float = true.
Proof.
  assert (fitted demo_py_float scale_example_train [18.25; 118.75]%float) as Hfit.
  { eexists. split; [vm_compute; reflexivity|].
    do 7 apply list_elem_of_further. apply list_elem_of_here. }
  split; [exact Hfit|]. split; [reflexivity|].
  destruct (telco_X_scale_keeps_order demo_py_float scale_example_train
              [18.25; 118.75]%float Hfit eq_refl) as [Hmono Hrange].
  split; [exact (Hmono 20%float 120.5%float eq_refl eq_refl eq_refl)|].
  exact (proj1 (Hrange 20%float eq_refl eq_refl eq_refl)).
Defined.

(** X6 at the instance: the mall table without its gender column. *)
Lemma prep_mall_data_no_gender_witness :
  let w := mkWorld {[ 0 := without "gender" demo_mall ]} 0%Z in
  objects w !! 0 = Some (without "gender" demo_mall) ∧
  ("gender" ∉ columns (without "gender" demo_mall)) ∧
  prep_mall_data Z id demo_cv_split 0 w = (Raise (AttributeError "gender"), w).
Proof.
  intros w.
  assert ("gender" ∉ columns (without "gender" demo_mall)) as Hout
    by (apply (bool_decide_unpack _); vm_compute; exact I).
  split; [reflexivity|]. split; [exact Hout|].
  exact (prep_mall_data_no_gender Z id demo_cv_split w 0 _ eq_refl Hout).
Defined.

(** X8 at the instance: the three mall customers go to three parts of one
    row each. *)
Lemma prep_mall_data_partition_witness :
  let w := mkWorld {[ 0 := demo_mall ]} 0%Z in
  ∃ train test validate w',
    prep_mall_data Z id demo_cv_split 0 w = (Ok (train, test, validate), w') ∧
    nrows train + nrows validate + nrows test = 3 ∧
    index train ++ index validate ++ index test ≡ₚ index demo_mall.
Proof.
  intros w. eexists _, _, _, _. split; [vm_compute; reflexivity|].
  destruct (prep_mall_data_partition Z id demo_cv_split demo_cv_split_partition
              w _ 0 _ _ _ eq_refl)
    as (d & g & Hd & Hg & _ & Hn & _ & Hidx).
  vm_compute in Hd. injection Hd as <-. split; [exact Hn | exact Hidx].
Defined.


(** X10 at the instance: the prepared table without its churn column. *)
Lemma telco_split_no_churn_witness :
  ("churn" ∉ columns (without "churn" demo_prepared)) ∧
  telco_split Z id demo_cv_split (without "churn" demo_prepared) demo_world
    = (Raise (AttributeError "churn"), demo_world) ∧
  telco_split_xy Z id demo_cv_split (without "churn" demo_prepared) "label" demo_world
    = (Raise (AttributeError "churn"), demo_world).
Proof.
  assert ("churn" ∉ columns (without "churn" demo_prepared)) as Hout
    by (apply (bool_decide_unpack _); vm_compute; exact I).
  split; [exact Hout|].
  destruct (telco_split_no_churn Z id demo_cv_split _ demo_world Hout) as [H1 H2].
  split; [exact H1 | exact (H2 "label")].
Defined.

(** X11 at the instance. *)
Lemma telco_split_keeps_columns_witness :
  ∃ train validate test,
    telco_split Z id demo_cv_split demo_prepared demo_world
      = (Ok (train, validate, test), demo_world) ∧
    columns train = columns demo_prepared ∧ rectangular train.
Proof.
  eexists _, _, _. split; [vm_compute; reflexivity|].
  pose proof (telco_split_keeps_columns Z id demo_cv_split demo_prepared
                demo_world demo_world _ _ _ eq_refl) as H.
  destruct (Forall_lookup_1 _ _ 0 _ H eq_refl) as (Hc & Hr & _).
  split; [exact Hc | exact Hr].
Defined.

(** X12 at the instance: the target churn. *)
Lemma telco_split_xy_aligned_witness :
  ∃ xy,
    telco_split_xy Z id demo_cv_split demo_prepared "churn" demo_world
      = (Ok xy, demo_world) ∧
    length (y_train xy) = nrows (X_train xy) ∧
    columns (X_train xy) = filter (λ c, c ≠ "churn") (columns demo_prepared).
Proof.
  eexists. split; [vm_compute; reflexivity|].
  destruct (telco_split_xy_aligned Z id demo_cv_split demo_prepared "churn"
              demo_world demo_world _ eq_refl)
    as (y & p1 & p2 & p3 & _ & _ & _ & _ & _ & _ & _ & Hlen & _ & _ & Hcols).
  split; [exact Hlen|]. exact (Forall_lookup_1 _ _ 0 _ Hcols eq_refl).
Defined.



(** X16 at the instance: monthly_charges of the third raw customer, the
    second prepared row. *)
Lemma prep_telco_keeps_other_columns_witness :
  ∃ out,
    rectangular demo_raw ∧ prep_telco demo_str_to_num demo_raw = Ok out ∧
    ("monthly_charges" ∉ written_columns) ∧ "monthly_charges" ∈ columns demo_raw ∧
    surviving demo_str_to_num demo_raw !! 1 = Some 2 ∧
    cell demo_raw "monthly_charges" 2 = Some (VFloat 74.5) ∧
    cell out "monthly_charges" 1 = Some (VFloat 74.5).
Proof.
  assert ("monthly_charges" ∉ written_columns) as Hnot
    by (apply (bool_decide_unpack _); vm_compute; exact I).
  assert ("monthly_charges" ∈ columns demo_raw) as Hin
    by (apply (bool_decide_unpack _); vm_compute; exact I).
  eexists. split; [exact demo_raw_rectangular|].
  split; [vm_compute; reflexivity|]. split; [exact Hnot|]. split; [exact Hin|].
  split; [reflexivity|]. split; [reflexivity|].
  destruct (prep_telco_keeps_other_columns demo_str_to_num demo_raw _
              "monthly_charges" demo_raw_rectangular eq_refl Hnot Hin 1 2 eq_refl)
    as (v & Hv & Hout).
  vm_compute in Hv. injection Hv as <-. exact Hout.
Defined.

(** X17 at the instance: churn of the third raw customer, who has left. *)
Lemma prep_telco_binary_columns_witness :
  ∃ out,
    rectangular demo_raw ∧ ("phone" ∉ columns demo_raw) ∧
    ("depend" ∉ columns demo_raw) ∧
    prep_telco demo_str_to_num demo_raw = Ok out ∧
    surviving demo_str_to_num demo_raw !! 1 = Some 2 ∧
    cell demo_raw "churn" 2 = Some (VStr "Yes") ∧
    ∃ n, cell out "churn" 1 = Some n ∧ is_number 1 n.
Proof.
  assert ("phone" ∉ columns demo_raw) as Hphone
    by (apply (bool_decide_unpack _); vm_compute; exact I).
  assert ("depend" ∉ columns demo_raw) as Hdepend
    by (apply (bool_decide_unpack _); vm_compute; exact I).
  eexists. split; [exact demo_raw_rectangular|].
  split; [exact Hphone|]. split; [exact Hdepend|].
  split; [vm_compute; reflexivity|]. split; [reflexivity|]. split; [reflexivity|].
  destruct (prep_telco_binary_columns demo_str_to_num demo_raw _
              "churn" "churn" "Yes" "No" demo_raw_rectangular Hphone Hdepend eq_refl
              ltac:(do 3 apply list_elem_of_further; apply list_elem_of_here)
              1 2 eq_refl)
    as (v & n & Hv & Hn & Hone & _).
  vm_compute in Hv. injection Hv as <-.
  exists n. split; [exact Hn | exact (Hone eq_refl)].
Defined.

(** X18 at the instance: the third customer's online_backup is spelt in
    lower case. *)
Lemma prep_telco_num_add_ons_unknown_witness :
  let raw := setitem demo_raw "online_backup"
               [VStr "Yes"; VStr "No internet service"; VStr "yes"] in
  let vs := [VStr "Yes"; VStr "yes"; VStr "Yes"; VStr "Yes"; VStr "Yes"; VStr "Yes"] in
  ∃ out,
    rectangular raw ∧ prep_telco demo_str_to_num raw = Ok out ∧
    surviving demo_str_to_num raw !! 1 = Some 2 ∧
    addons raw 2 = Some vs ∧
    Exists (λ v, ¬ addon_domain v) vs ∧
    cell out "num_add_ons" 1 = Some (VFloat nan).
Proof.
  intros raw vs.
  assert (rectangular raw) as Hrect by (unfold rectangular; simpl; repeat constructor).
  assert (Exists (λ v, ¬ addon_domain v) vs) as Hex.
  { apply Exists_cons_tl, Exists_cons_hd. intros [H|[H|H]]; discriminate H. }
  eexists. split; [exact Hrect|]. split; [vm_compute; reflexivity|].
  split; [reflexivity|]. split; [reflexivity|]. split; [exact Hex|].
  exact (prep_telco_num_add_ons_unknown demo_str_to_num raw _ Hrect eq_refl
           1 2 vs eq_refl eq_refl Hex).
Defined.

(** X19 at the instance: nine months are 0.75 years. *)
Lemma prep_telco_tenure_yrs_witness :
  ∃ out,
    rectangular demo_raw ∧ prep_telco demo_str_to_num demo_raw = Ok out ∧
    surviving demo_str_to_num demo_raw !! 0 = Some 0 ∧
    cell demo_raw "tenure" 0 = Some (VInt 9) ∧ (0 ≤ 9 ≤ 1200)%Z ∧
    cell out "tenure" 0 = Some (VInt 9) ∧
    cell out "tenure_yrs" 0 = Some (VFloat (Z2F 75 / 100)).
Proof.
  eexists. split; [exact demo_raw_rectangular|].
  split; [vm_compute; reflexivity|]. split; [reflexivity|]. split; [reflexivity|].
  split; [lia|].
  exact (prep_telco_tenure_yrs demo_str_to_num demo_raw _ demo_raw_rectangular
           eq_refl 0 0 9%Z eq_refl eq_refl ltac:(lia)).
Defined.

(** X20 at the instance: the thirteen columns of the prepared demo table. *)
Lemma prep_telco_columns_witness :
  ∃ out,
    ("num_add_ons" ∉ columns demo_raw) ∧ ("is_male" ∉ columns demo_raw) ∧
    ("tenure_yrs" ∉ columns demo_raw) ∧
    prep_telco demo_str_to_num demo_raw = Ok out ∧
    columns out =
      ["senior"; "partner"; "depend"; "tenure"; "phone"; "internet_type";
       "contract_type"; "monthly_charges"; "total_charges"; "churn";
       "num_add_ons"; "is_male"; "tenure_yrs"].
Proof.
  assert ("num_add_ons" ∉ columns demo_raw) as H1
    by (apply (bool_decide_unpack _); vm_compute; exact I).
  assert ("is_male" ∉ columns demo_raw) as H2
    by (apply (bool_decide_unpack _); vm_compute; exact I).
  assert ("tenure_yrs" ∉ columns demo_raw) as H3
    by (apply (bool_decide_unpack _); vm_compute; exact I).
  eexists. split; [exact H1|]. split; [exact H2|]. split; [exact H3|].
  split; [vm_compute; reflexivity|].
  exact (prep_telco_columns demo_str_to_num demo_raw _ H1 H2 H3 eq_refl).
Defined.

Lemma demo_astype_int_int64 zs : demo_astype_int (VInt <$> zs) = Some zs.
Proof.
  unfold demo_astype_int. apply mapM_Some.
  induction zs as [|z zs IH]; constructor; done.
Qed.

Lemma demo_grades_rectangular : rectangular demo_grades.
Proof. unfold rectangular. simpl. repeat constructor. Qed.

(** X21 at the instance: the second student, whose exam2 is blank, is
    dropped; the third, whose student_id is blank, is kept. *)
Lemma wrangle_grades_rows_witness :
  ∃ out,
    rectangular demo_grades ∧
    wrangle_grades demo_astype_int demo_grades = Returns out ∧
    complete_rows demo_grades = [0; 2; 3] ∧
    columns out = ["exam1"; "exam2"; "final_grade"] ∧
    index out = [VInt 0; VInt 2; VInt 3].
Proof.
  eexists. split; [exact demo_grades_rectangular|].
  split; [vm_compute; reflexivity|]. split; [reflexivity|].
  destruct (wrangle_grades_rows demo_astype_int demo_grades _
              demo_grades_rectangular eq_refl) as (Hc & Hi & _).
  split; [exact Hc | exact Hi].
Defined.

(** X23 at the instance: the grades file without the column exam2, the only
    one with text. *)
Lemma wrangle_grades_clean_witness :
  let csv := without "exam2" demo_grades in
  rectangular csv ∧ "student_id" ∈ columns csv ∧
  Forall (λ p, p.1 ≠ "student_id" → Forall (λ v, is_int v = true) p.2) (cols csv) ∧
  wrangle_grades demo_astype_int csv = Returns (without "student_id" csv).
Proof.
  intros csv.
  assert (rectangular csv) as Hrect by (unfold rectangular; simpl; repeat constructor).
  assert ("student_id" ∈ columns csv) as Hid
    by (apply (bool_decide_unpack _); vm_compute; exact I).
  assert (Forall (λ p, p.1 ≠ "student_id" → Forall (λ v, is_int v = true) p.2)
            (cols csv)) as Hint.
  { repeat (apply Forall_cons_2; [first [by intros ? | intros _; by repeat constructor]|]).
    apply Forall_nil_2. }
  split; [exact Hrect|]. split; [exact Hid|]. split; [exact Hint|].
  exact (wrangle_grades_clean demo_astype_int demo_astype_int_int64 csv Hrect Hid Hint).
Defined.

(** X24 at the instance: the raw table in the scaler's order, prepared,
    split on churn and scaled. *)
Lemma telco_pipeline_columns_witness :
  ∃ df xy a b c,
    ("num_add_ons" ∉ columns demo_raw_ordered) ∧
    ("is_male" ∉ columns demo_raw_ordered) ∧
    ("tenure_yrs" ∉ columns demo_raw_ordered) ∧
    prep_telco demo_str_to_num demo_raw_ordered = Ok df ∧
    telco_split_xy Z id demo_cv_split df "churn" demo_world = (Ok xy, demo_world) ∧
    columns (X_train xy) = scaled_columns ∧
    telco_X_scale demo_py_float (X_train xy) (X_validate xy) (X_test xy)
      = Ok (a, b, c) ∧
    columns a = columns (X_train xy).
Proof.
  assert ("num_add_ons" ∉ columns demo_raw_ordered) as H1
    by (apply (bool_decide_unpack _); vm_compute; exact I).
  assert ("is_male" ∉ columns demo_raw_ordered) as H2
    by (apply (bool_decide_unpack _); vm_compute; exact I).
  assert ("tenure_yrs" ∉ columns demo_raw_ordered) as H3
    by (apply (bool_decide_unpack _); vm_compute; exact I).
  eexists _, _, _, _, _. split; [exact H1|]. split; [exact H2|]. split; [exact H3|].
  split; [vm_compute; reflexivity|]. split; [vm_compute; reflexivity|].
  match goal with
  | |- columns (X_train ?xy) = _ ∧ _ =>
      destruct (telco_pipeline_columns demo_str_to_num demo_py_float Z id demo_cv_split
                  demo_raw_ordered _ demo_world demo_world xy H1 H2 H3 eq_refl eq_refl)
        as (_ & Hcols & Hscale)
  end.
  split; [exact (Forall_lookup_1 _ _ 0 _ (Hcols eq_refl) eq_refl)|].
  split; [vm_compute; reflexivity|].
  exact (proj2 (proj2 (Hscale _ _ _ eq_refl)) eq_refl).
Defined.

(** X25 at the instance. *)
Lemma prep_telco_well_formed_witness :
  ∃ out,
    wf_frame demo_raw ∧
    Forall (λ c, c ∉ columns demo_raw)
      ["num_add_ons"; "is_male"; "tenure_yrs"; "contract_type"; "phone";
       "internet_type"; "senior"; "depend"] ∧
    prep_telco demo_str_to_num demo_raw = Ok out ∧
    wf_frame out ∧ NoDup (index out).
Proof.
  assert (wf_frame demo_raw) as Hwf.
  { split; [apply (bool_decide_unpack _); vm_compute; exact I|].
    exact demo_raw_rectangular. }
  assert (Forall (λ c, c ∉ columns demo_raw)
            ["num_add_ons"; "is_male"; "tenure_yrs"; "contract_type"; "phone";
             "internet_type"; "senior"; "depend"]) as Hnew
    by (apply (bool_decide_unpack _); vm_compute; exact I).
  assert (NoDup [VStr "0002-ORFBO"; VStr "0003-MKNFE"; VStr "0004-TLHLJ"]) as Hids.
  { repeat (apply NoDup_cons_2;
              [rewrite ?not_elem_of_cons; split_and?; try discriminate;
               apply not_elem_of_nil|]).
    apply NoDup_nil_2. }
  eexists. split; [exact Hwf|]. split; [exact Hnew|].
  split; [vm_compute; reflexivity|].
  destruct (prep_telco_well_formed demo_str_to_num demo_raw _ Hwf Hnew eq_refl)
    as [Hout Hidx].
  split; [exact Hout | exact (Hidx _ eq_refl Hids)].
Defined.
